(** * go-anki-deck: the deck-to-archive engine of [anki.go]

    A shallow embedding of the Go package [anki]: the deck aggregate with its
    embedded relational store, the identifier probe, the content hash of a
    note, the note and card upsert, the media registry and the archive
    packager.

    Conventions of the embedding.
    - A Go [string] is a byte sequence: [String.string].  A Go [[]byte] is a
      list of byte values, [list Z] with every element in [0, 256).
    - [int64] is [Z] with the wrap-around written out by [wrap64].
    - The store is the SQLite database behind [d.db].  A table is the list of
      its rows, a row holds the values as their columns keep them: the value
      bound to the statement, except in the one column that is declared
      [integer] and receives text, the sort field of a note.
    - What the environment decides (the clock, the failure of a statement,
      the order in which [range] visits a Go map) is an explicit input.
    - A JSON blob of the [col] row is held decoded, and so is the media
      manifest: a string in it is what a decoder reads back from the text
      that [json.Marshal] wrote. *)

From Stdlib Require Import ZArith String Ascii List Bool Lia DecimalString.
From Stdlib Require Import Permutation DecimalPos DecimalZ.
Import ListNotations.

Set Warnings "-register-all".

Local Open Scope list_scope.
Local Open Scope string_scope.
Local Open Scope Z_scope.

(** ** Bytes, hexadecimal and decimal text *)

Definition bytes := list Z.

Definition bytes_of_string (s : string) : bytes :=
  map (fun c => Z.of_N (N_of_ascii c)) (list_ascii_of_string s).

(** One lower-case hexadecimal digit, as [fmt.Sprintf("%x", ...)] prints. *)
Definition hex_digit (n : Z) : ascii :=
  if n <? 10
  then ascii_of_N (Z.to_N (48 + n))
  else ascii_of_N (Z.to_N (87 + n)).

Fixpoint hex_of_bytes (bs : bytes) : string :=
  match bs with
  | [] => EmptyString
  | b :: rest =>
      String (hex_digit (b / 16)) (String (hex_digit (b mod 16)) (hex_of_bytes rest))
  end.

(** The value of a hexadecimal digit; [None] for any other character. *)
Definition hex_value (c : ascii) : option Z :=
  let n := Z.of_N (N_of_ascii c) in
  if (48 <=? n) && (n <=? 57) then Some (n - 48)
  else if (97 <=? n) && (n <=? 102) then Some (n - 87)
  else if (65 <=? n) && (n <=? 70) then Some (n - 55)
  else None.

Fixpoint parse_hex_acc (s : string) (acc : Z) : option Z :=
  match s with
  | EmptyString => Some acc
  | String c rest =>
      match hex_value c with
      | Some v => parse_hex_acc rest (acc * 16 + v)
      | None => None
      end
  end.

Definition maxInt64 : Z := 2 ^ 63 - 1.

(** [strconv.ParseInt(s, 16, 64)] on unsigned digit strings, with the error
    dropped as [val, _ := ...] does: a syntax error leaves 0, a value out of
    range leaves the largest int64. *)
Definition ParseInt16 (s : string) : Z :=
  match s with
  | EmptyString => 0
  | _ =>
      match parse_hex_acc s 0 with
      | Some v => if v <=? maxInt64 then v else maxInt64
      | None => 0
      end
  end.

(** Two's complement wrap-around of int64 arithmetic. *)
Definition wrap64 (z : Z) : Z := (z + 2 ^ 63) mod 2 ^ 64 - 2 ^ 63.

(** [strconv.Itoa], [strconv.FormatInt(_, 10)] and the verb [%d]. *)
Definition Itoa (z : Z) : string := NilZero.string_of_int (Z.to_int z).

(** ** SHA-1, as [crypto/sha1.Sum] computes it *)

Module SHA1.

Definition mask32 (z : Z) : Z := z mod 2 ^ 32.

Definition add32 (a b : Z) : Z := mask32 (a + b).

Definition rotl (n x : Z) : Z :=
  mask32 (Z.lor (Z.shiftl x n) (Z.shiftr x (32 - n))).

Definition word_of_bytes (b0 b1 b2 b3 : Z) : Z :=
  Z.lor (Z.shiftl b0 24) (Z.lor (Z.shiftl b1 16) (Z.lor (Z.shiftl b2 8) b3)).

Definition bytes_of_word (w : Z) : bytes :=
  [ Z.shiftr w 24 mod 256; Z.shiftr w 16 mod 256; Z.shiftr w 8 mod 256; w mod 256 ].

Fixpoint words_of_bytes (bs : bytes) : list Z :=
  match bs with
  | b0 :: b1 :: b2 :: b3 :: rest => word_of_bytes b0 b1 b2 b3 :: words_of_bytes rest
  | _ => []
  end.

(** Message length in bits as eight big-endian bytes. *)
Definition length_bytes (bits : Z) : bytes :=
  map (fun i => Z.shiftr bits (8 * i) mod 256) [7; 6; 5; 4; 3; 2; 1; 0].

Definition pad (msg : bytes) : bytes :=
  let len := Z.of_nat (List.length msg) in
  let zeros := Z.to_nat ((55 - len) mod 64) in
  (msg ++ [128] ++ repeat 0 zeros ++ length_bytes (8 * len))%list.

Fixpoint chunks (fuel : nat) (bs : bytes) : list bytes :=
  match fuel with
  | O => []
  | S fuel' =>
      match bs with
      | [] => []
      | _ => firstn 64 bs :: chunks fuel' (skipn 64 bs)
      end
  end.

Definition f (t b c d : Z) : Z :=
  if t <? 20 then Z.lor (Z.land b c) (Z.land (mask32 (Z.lnot b)) d)
  else if t <? 40 then Z.lxor b (Z.lxor c d)
  else if t <? 60 then Z.lor (Z.land b c) (Z.lor (Z.land b d) (Z.land c d))
  else Z.lxor b (Z.lxor c d).

Definition K (t : Z) : Z :=
  if t <? 20 then 1518500249
  else if t <? 40 then 1859775393
  else if t <? 60 then 2400959708
  else 3395469782.

Record state := State { ha : Z; hb : Z; hc : Z; hd : Z; he : Z }.

Definition init : state :=
  State 1732584193 4023233417 2562383102 271733878 3285377520.

(** The message schedule is kept as a window of sixteen words, oldest
    first: W[t+16] = rotl 1 (W[t+13] xor W[t+8] xor W[t+2] xor W[t]). *)
Definition next_window (w : list Z) : list Z :=
  let x := Z.lxor (nth 13 w 0) (Z.lxor (nth 8 w 0) (Z.lxor (nth 2 w 0) (nth 0 w 0))) in
  (tl w ++ [rotl 1 x])%list.

Fixpoint rounds (n : nat) (t : Z) (w : list Z) (s : state) : state :=
  match n with
  | O => s
  | S n' =>
      let temp :=
        add32 (add32 (add32 (add32 (rotl 5 (ha s)) (f t (hb s) (hc s) (hd s))) (he s))
                     (K t)) (nth 0 w 0) in
      rounds n' (t + 1) (next_window w)
             (State temp (ha s) (rotl 30 (hb s)) (hc s) (hd s))
  end.

Definition block (s : state) (chunk : bytes) : state :=
  let r := rounds 80 0 (words_of_bytes chunk) s in
  State (add32 (ha s) (ha r)) (add32 (hb s) (hb r)) (add32 (hc s) (hc r))
        (add32 (hd s) (hd r)) (add32 (he s) (he r)).

Definition digest (s : state) : bytes :=
  (bytes_of_word (ha s) ++ bytes_of_word (hb s) ++ bytes_of_word (hc s)
     ++ bytes_of_word (hd s) ++ bytes_of_word (he s))%list.

Definition Sum (msg : bytes) : bytes :=
  let p := pad msg in
  digest (fold_left block (chunks (List.length p) p) init).

End SHA1.

(** ** Errors, outcomes and decoded JSON *)

(** A Go [error]: one raised by [database/sql], the driver or the file
    system, or [fmt.Errorf(context + ": %w", cause)]. *)
Inductive error : Type :=
| StoreError (msg : string)
| Wrapped (context : string) (cause : error).

Definition Unwrap (e : error) : option error :=
  match e with
  | StoreError _ => None
  | Wrapped _ cause => Some cause
  end.

Fixpoint ErrorText (e : error) : string :=
  match e with
  | StoreError msg => msg
  | Wrapped context cause => context ++ ": " ++ ErrorText cause
  end.

(** What a call can do: return a value, return an error, or panic (a failed
    type assertion). *)
Inductive outcome (A : Type) : Type :=
| Done (a : A)
| Failed (e : error)
| Panicked.

Arguments Done {A} a.
Arguments Failed {A} e.
Arguments Panicked {A}.

(** A decoded JSON value, as [json.Unmarshal] into [interface{}] gives it.
    A number is a float64; every number of the seed data is an integer. *)
Inductive json : Type :=
| JNull
| JBool (b : bool)
| JNum (z : Z)
| JStr (s : string)
| JArr (items : list json)
| JObj (fields : list (string * json)).

(** A Go [map[string]V] as an association list with at most one binding per
    key.  Its order carries no meaning: only [range] observes an order, and
    that one is supplied by the environment. *)
Definition gomap (V : Type) : Type := list (string * V).

Section GoMap.
Context {V : Type}.

Fixpoint map_get (k : string) (m : gomap V) : option V :=
  match m with
  | [] => None
  | (k', v) :: rest => if String.eqb k' k then Some v else map_get k rest
  end.

Definition map_delete (k : string) (m : gomap V) : gomap V :=
  filter (fun kv => negb (String.eqb (fst kv) k)) m.

Definition map_set (k : string) (v : V) (m : gomap V) : gomap V :=
  (map_delete k m ++ [(k, v)])%list.

Definition map_keys (m : gomap V) : list string := map fst m.
End GoMap.

(** [float64(n)] for an int64 [n]: exact below 2^53, otherwise rounded to
    53 significant bits, ties to even. *)
Definition float64_of_int64 (z : Z) : Z :=
  let a := Z.abs z in
  if a <? 2 ^ 53 then z
  else
    let e := Z.log2 a - 52 in
    let q := a / 2 ^ e in
    let r := a mod 2 ^ e in
    let half := 2 ^ (e - 1) in
    let q' := if (half <? r) || ((r =? half) && Z.odd q) then q + 1 else q in
    Z.sgn z * (q' * 2 ^ e).

(** ** Strings as [encoding/json] writes them *)

Definition byteOf (c : ascii) : Z := Z.of_N (N_of_ascii c).

Definition byteWithin (lo hi : Z) (c : ascii) : bool :=
  (lo <=? byteOf c) && (byteOf c <=? hi).

(** The size that [utf8.DecodeRuneInString] returns at the head of [s], and
    0 where it returns [(RuneError, 1)]: the head byte does not start a
    well-formed encoding (a stray continuation byte, an overlong form, a
    surrogate, a value above U+10FFFF, or too few bytes). *)
Definition runeSize (s : string) : nat :=
  match s with
  | EmptyString => 0
  | String c0 rest =>
      let b0 := byteOf c0 in
      if b0 <? 128 then 1
      else if b0 <? 194 then 0
      else if b0 <? 224 then
        match rest with
        | String c1 _ => if byteWithin 128 191 c1 then 2 else 0
        | _ => 0
        end
      else if b0 <? 240 then
        let lo := if b0 =? 224 then 160 else 128 in
        let hi := if b0 =? 237 then 159 else 191 in
        match rest with
        | String c1 (String c2 _) =>
            if byteWithin lo hi c1 && byteWithin 128 191 c2 then 3 else 0
        | _ => 0
        end
      else if b0 <? 245 then
        let lo := if b0 =? 240 then 144 else 128 in
        let hi := if b0 =? 244 then 143 else 191 in
        match rest with
        | String c1 (String c2 (String c3 _)) =>
            if byteWithin lo hi c1 && byteWithin 128 191 c2 && byteWithin 128 191 c3
            then 4 else 0
        | _ => 0
        end
      else 0
  end.

(** U+FFFD in UTF-8: EF BF BD. *)
Definition replacementChar : string :=
  String "239"%char (String "191"%char (String "189"%char EmptyString)).

(** [skip] bytes of an encoding are still to be copied. *)
Fixpoint jsonStringFrom (skip : nat) (s : string) : string :=
  match s with
  | EmptyString => EmptyString
  | String c rest =>
      match skip with
      | S k => String c (jsonStringFrom k rest)
      | O =>
          match runeSize s with
          | O => replacementChar ++ jsonStringFrom 0 rest
          | S k => String c (jsonStringFrom k rest)
          end
      end
  end.

(** The string that a decoder reads back from what [json.Marshal] writes
    for the Go string [s]: the encoder writes the escape of U+FFFD for every
    byte at which [utf8.DecodeRuneInString] returns [(RuneError, 1)], and
    writes everything else so that it decodes to itself. *)
Definition jsonString (s : string) : string := jsonStringFrom 0 s.

Fixpoint validFrom (skip : nat) (s : string) : bool :=
  match s with
  | EmptyString => true
  | String c rest =>
      match skip with
      | S k => validFrom k rest
      | O =>
          match runeSize s with
          | O => false
          | S k => validFrom k rest
          end
      end
  end.

(** [utf8.ValidString]. *)
Definition ValidString (s : string) : bool := validFrom 0 s.

(** ** The text of an SQL string literal *)

Definition apostrophe : ascii := "039"%char.

(** How the engine reads text placed between the apostrophes of a string
    literal: two apostrophes in a row stand for one.  A single apostrophe
    ends the literal; the engine then takes the rest of the text for SQL,
    so the statement fails unless that text was written to continue it.
    Whether the script fails is an input of the model, and the reading
    below, which keeps a single apostrophe, is meant for text whose
    apostrophes come in pairs ([pairedApostrophes]). *)
Fixpoint sqlLiteralText (s : string) : string :=
  match s with
  | EmptyString => EmptyString
  | String c rest =>
      if Ascii.eqb c apostrophe then
        match rest with
        | String c' rest' =>
            if Ascii.eqb c' apostrophe then String apostrophe (sqlLiteralText rest')
            else String c (sqlLiteralText rest)
        | EmptyString => String c EmptyString
        end
      else String c (sqlLiteralText rest)
  end.

Fixpoint pairedApostrophes (s : string) : bool :=
  match s with
  | EmptyString => true
  | String c rest =>
      if Ascii.eqb c apostrophe then
        match rest with
        | String c' rest' => Ascii.eqb c' apostrophe && pairedApostrophes rest'
        | EmptyString => false
        end
      else pairedApostrophes rest
  end.

(** ** Column affinity *)

(** A value as a column holds it. *)
Inductive sqlvalue : Type :=
| SqlText (s : string)
| SqlInteger (z : Z)
| SqlNumber (literal : string).

Definition isSqlSpace (c : ascii) : bool :=
  let b := byteOf c in ((9 <=? b) && (b <=? 13)) || (b =? 32).

Definition isSqlDigit (c : ascii) : bool := byteWithin 48 57 c.

Fixpoint skipSpaces (s : string) : string :=
  match s with
  | EmptyString => EmptyString
  | String c rest => if isSqlSpace c then skipSpaces rest else s
  end.

(** An optional sign: whether it is a minus, and the rest. *)
Definition skipSign (s : string) : bool * string :=
  match s with
  | String c rest =>
      if Ascii.eqb c "-"%char then (true, rest)
      else if Ascii.eqb c "+"%char then (false, rest)
      else (false, s)
  | EmptyString => (false, s)
  end.

(** A run of digits: its value after [acc], the number of digits added to
    [n], and the rest. *)
Fixpoint readDigits (s : string) (acc : Z) (n : nat) : Z * nat * string :=
  match s with
  | EmptyString => (acc, n, s)
  | String c rest =>
      if isSqlDigit c then readDigits rest (10 * acc + (byteOf c - 48)) (S n)
      else (acc, n, s)
  end.

(** The result of the engine's [sqlite3AtoF] when it is positive, that is
    when the whole text is a number: white space, a sign, digits, a point
    and digits, an exponent with its sign and digits, white space, with at
    least one digit before or after the point and, after an [e], at least
    one digit.  1 stands for digits only, one more for a point and one more
    for an exponent. *)
Definition numericType (s : string) : option nat :=
  let z1 := snd (skipSign (skipSpaces s)) in
  let '(_, n1, z2) := readDigits z1 0 0 in
  let '(point, n2, z3) :=
    match z2 with
    | String c rest =>
        if Ascii.eqb c "."%char
        then let '(_, n, z) := readDigits rest 0 0 in (1%nat, n, z)
        else (0%nat, 0%nat, z2)
    | EmptyString => (0%nat, 0%nat, z2)
    end in
  let '(exponent, eValid, z4) :=
    match z3 with
    | String c rest =>
        if Ascii.eqb c "e"%char || Ascii.eqb c "E"%char
        then let '(_, n, z) := readDigits (snd (skipSign rest)) 0 0 in
             (1%nat, negb (Nat.eqb n 0), z)
        else (0%nat, true, z3)
    | EmptyString => (0%nat, true, z3)
    end in
  if String.eqb (skipSpaces z4) "" && negb (Nat.eqb (n1 + n2) 0) && eValid
  then Some (1 + point + exponent)%nat
  else None.

(** The integer that a text of digits denotes, with its sign. *)
Definition integerValue (s : string) : Z :=
  let '(negative, z1) := skipSign (skipSpaces s) in
  let '(v, _, _) := readDigits z1 0 0 in
  if negative then - v else v.

(** What a column declared [integer] keeps of a text bound to it.  Text
    that is not a number stays as it is.  Digits only, within the int64
    range, become that integer.  Any other number is read as a double and
    kept as an integer when the double is a whole number in the int64
    range, as a real otherwise; that value is not computed here and
    [SqlNumber] names it by the text it is read from. *)
Definition integerAffinity (s : string) : sqlvalue :=
  match numericType s with
  | None => SqlText s
  | Some 1%nat =>
      let v := integerValue s in
      if (- 2 ^ 63 <=? v) && (v <=? 2 ^ 63 - 1) then SqlInteger v else SqlNumber s
  | Some _ => SqlNumber s
  end.

(** ** The data model *)

Record Media : Type := { Filename : string; Data : bytes }.

Record CardOptions : Type := { Tags : list string }.

Record TemplateOptions : Type :=
  { QuestionFormat : string; AnswerFormat : string; CSS : string }.

(** A row of [notes], in column order.  The column [sfld] is declared
    [integer] and receives text, so it holds what that affinity makes of
    the text; every other column receives a value of its declared kind. *)
Record Note : Type :=
  { n_id : Z; n_guid : string; n_mid : Z; n_mod : Z; n_usn : Z; n_tags : string;
    n_flds : string; n_sfld : sqlvalue; n_csum : Z; n_flags : Z; n_data : string }.

(** A row of [cards], in column order. *)
Record Card : Type :=
  { c_id : Z; c_nid : Z; c_did : Z; c_ord : Z; c_mod : Z; c_usn : Z; c_type : Z;
    c_queue : Z; c_due : Z; c_ivl : Z; c_factor : Z; c_reps : Z; c_lapses : Z;
    c_left : Z; c_odue : Z; c_odid : Z; c_flags : Z; c_data : string }.

(** The two blobs of the [col] row that the package reads back. *)
Record Col : Type := { models : gomap json; decks : gomap json }.

(** The in-memory database.  [revlog] and [graves] are never written. *)
Record DB : Type := { col : Col; notes : list Note; cards : list Card }.

Record Deck : Type :=
  { name : string; db : DB; media : list Media; topDeckID : Z; topModelID : Z }.

Definition with_db (d : Deck) (s : DB) : Deck :=
  {| name := name d; db := s; media := media d;
     topDeckID := topDeckID d; topModelID := topModelID d |}.

Definition with_notes (s : DB) (ns : list Note) : DB :=
  {| col := col s; notes := ns; cards := cards s |}.

Definition with_cards (s : DB) (cs : list Card) : DB :=
  {| col := col s; notes := notes s; cards := cs |}.

(** [INSERT OR REPLACE] on a table whose only uniqueness constraint is the
    integer primary key: the row with that key, if any, is deleted and the
    new row is inserted. *)
Definition upsert {R : Type} (key : R -> Z) (r : R) (table : list R) : list R :=
  (filter (fun x => negb (key x =? key r)) table ++ [r])%list.

(** ** Text constants *)

(** The field separator U+001F. *)
Definition separator : string := String "031"%char EmptyString.

(** A double quote. *)
Definition dq : string := String "034"%char EmptyString.

(** A line feed. *)
Definition nl : string := String "010"%char EmptyString.

(** A backslash. *)
Definition backslash : string := String "092"%char EmptyString.

(** ** The bootstrap script: [createTemplate] *)

Definition defaultQuestionFormat : string := "{{Front}}".

Definition defaultAnswerFormat : string :=
  "{{FrontSide}}" ++ nl ++ nl ++ "<hr id=" ++ dq ++ "answer" ++ dq ++ ">"
    ++ nl ++ nl ++ "{{Back}}".

Definition defaultCSS : string :=
  ".card {" ++ nl ++ " font-family: arial;" ++ nl ++ " font-size: 20px;" ++ nl
    ++ " text-align: center;" ++ nl ++ " color: black;" ++ nl
    ++ "background-color: white;" ++ nl ++ "}".

(** The defaults that [createTemplate] fills in for unset options. *)
Definition templateDefaults (opts : option TemplateOptions) : TemplateOptions :=
  let o := match opts with
           | Some o => o
           | None => {| QuestionFormat := ""; AnswerFormat := ""; CSS := "" |}
           end in
  {| QuestionFormat :=
       if String.eqb (QuestionFormat o) "" then defaultQuestionFormat else QuestionFormat o;
     AnswerFormat :=
       if String.eqb (AnswerFormat o) "" then defaultAnswerFormat else AnswerFormat o;
     CSS := if String.eqb (CSS o) "" then defaultCSS else CSS o |}.

Definition seedField (fname : string) (ord : Z) : json :=
  JObj [ ("name", JStr fname); ("media", JArr []); ("sticky", JBool false);
         ("rtl", JBool false); ("ord", JNum ord); ("font", JStr "Arial");
         ("size", JNum 20) ].

Definition latexPre : string :=
  backslash ++ "documentclass[12pt]{article}" ++ nl
    ++ backslash ++ "special{papersize=3in,5in}" ++ nl
    ++ backslash ++ "usepackage[utf8]{inputenc}" ++ nl
    ++ backslash ++ "usepackage{amssymb,amsmath}" ++ nl
    ++ backslash ++ "pagestyle{empty}" ++ nl
    ++ backslash ++ "setlength{" ++ backslash ++ "parindent}{0in}" ++ nl
    ++ backslash ++ "begin{document}" ++ nl.

(** An option of the template as the store holds it: [json.Marshal] writes
    it into the blob, and the blob is placed between the apostrophes of a
    string literal of the script. *)
Definition scriptText (s : string) : string := sqlLiteralText (jsonString s).

Definition seedModels (o : TemplateOptions) : gomap json :=
  [ ("1388596687391",
     JObj [ ("vers", JArr []);
            ("name", JStr "Basic-f15d2");
            ("tags", JArr [JStr "Tag"]);
            ("did", JNum 1435588830424);
            ("usn", JNum (-1));
            ("req", JArr [JArr [JNum 0; JStr "all"; JArr [JNum 0]]]);
            ("flds", JArr [seedField "Front" 0; seedField "Back" 1]);
            ("sortf", JNum 0);
            ("latexPre", JStr latexPre);
            ("tmpls",
             JArr [JObj [ ("name", JStr "Card 1");
                          ("qfmt", JStr (scriptText (QuestionFormat o)));
                          ("did", JNull); ("bafmt", JStr "");
                          ("afmt", JStr (scriptText (AnswerFormat o))); ("ord", JNum 0);
                          ("bqfmt", JStr "") ]]);
            ("latexPost", JStr (backslash ++ "end{document}"));
            ("type", JNum 0);
            ("id", JNum 1388596687391);
            ("css", JStr (scriptText (CSS o)));
            ("mod", JNum 1435645658) ]) ].

Definition seedDeck (dname : string) (usn today id md : Z) : json :=
  let pair := JArr [JNum today; JNum 0] in
  JObj [ ("desc", JStr ""); ("name", JStr dname); ("extendRev", JNum 50);
         ("usn", JNum usn); ("collapsed", JBool false); ("newToday", pair);
         ("timeToday", pair); ("dyn", JNum 0); ("extendNew", JNum 10);
         ("conf", JNum 1); ("revToday", pair); ("lrnToday", pair);
         ("id", JNum id); ("mod", JNum md) ].

Definition seedDecks : gomap json :=
  [ ("1", seedDeck "Default" 0 0 1 1435645724);
    ("1435588830424", seedDeck "Template" (-1) 545 1435588830424 1435588830) ].

(** The store that executing the script leaves: the [col] row with its seed
    blobs and empty [notes] and [cards] tables.  ([conf], [dconf] and the
    scalar columns of [col] are never read back and are left out.) *)
Definition createTemplate (opts : option TemplateOptions) : DB :=
  let o := templateDefaults opts in
  {| col := {| models := seedModels o; decks := seedDecks |};
     notes := []; cards := [] |}.

(** ** Identifier assignment *)

(** The integer columns a probe can select; any other table or column name
    makes the query fail. *)
Definition column (s : DB) (table colname : string) : option (list Z) :=
  if String.eqb table "notes" then
    if String.eqb colname "id" then Some (map n_id (notes s))
    else if String.eqb colname "mid" then Some (map n_mid (notes s))
    else if String.eqb colname "mod" then Some (map n_mod (notes s))
    else if String.eqb colname "usn" then Some (map n_usn (notes s))
    else if String.eqb colname "csum" then Some (map n_csum (notes s))
    else if String.eqb colname "flags" then Some (map n_flags (notes s))
    else None
  else if String.eqb table "cards" then
    if String.eqb colname "id" then Some (map c_id (cards s))
    else if String.eqb colname "nid" then Some (map c_nid (cards s))
    else if String.eqb colname "did" then Some (map c_did (cards s))
    else if String.eqb colname "ord" then Some (map c_ord (cards s))
    else if String.eqb colname "mod" then Some (map c_mod (cards s))
    else if String.eqb colname "usn" then Some (map c_usn (cards s))
    else if String.eqb colname "type" then Some (map c_type (cards s))
    else if String.eqb colname "queue" then Some (map c_queue (cards s))
    else if String.eqb colname "due" then Some (map c_due (cards s))
    else if String.eqb colname "ivl" then Some (map c_ivl (cards s))
    else if String.eqb colname "factor" then Some (map c_factor (cards s))
    else if String.eqb colname "reps" then Some (map c_reps (cards s))
    else if String.eqb colname "lapses" then Some (map c_lapses (cards s))
    else if String.eqb colname "left" then Some (map c_left (cards s))
    else if String.eqb colname "odue" then Some (map c_odue (cards s))
    else if String.eqb colname "odid" then Some (map c_odid (cards s))
    else if String.eqb colname "flags" then Some (map c_flags (cards s))
    else None
  else None.

(** [ORDER BY _ DESC LIMIT 1] over the selected values: the greatest one, or
    no row. *)
Definition greatest (vs : list Z) : option Z :=
  match vs with
  | [] => None
  | v :: rest => Some (fold_left Z.max rest v)
  end.

(** [SELECT col FROM table WHERE col >= ts ORDER BY col DESC LIMIT 1]: one
    more than the greatest value found, or [ts] when the query fails or
    finds no row. *)
Definition getID (d : Deck) (table colname : string) (ts : Z) : Z :=
  match column (db d) table colname with
  | None => ts
  | Some vs =>
      match greatest (filter (fun v => ts <=? v) vs) with
      | None => ts
      | Some maxID => wrap64 (maxID + 1)
      end
  end.

Definition getNoteID (d : Deck) (guid : string) (ts : Z) : Z :=
  match greatest (map n_id (filter (fun n => String.eqb (n_guid n) guid) (notes (db d)))) with
  | None => getID d "notes" "id" ts
  | Some id => id
  end.

Definition getNoteGUID (d : Deck) (deckID : Z) (front back : string) : string :=
  let data := Itoa deckID ++ front ++ back in
  hex_of_bytes (SHA1.Sum (bytes_of_string data)).

Definition getCardID (d : Deck) (noteID ts : Z) : Z :=
  match greatest (map c_id (filter (fun c => c_nid c =? noteID) (cards (db d)))) with
  | None => getID d "cards" "id" ts
  | Some id => id
  end.

Definition checksum (d : Deck) (str : string) : Z :=
  let hash := SHA1.Sum (bytes_of_string str) in
  let hexStr := substring 0 8 (hex_of_bytes hash) in
  ParseInt16 hexStr.

(** ** Sequencing of fallible steps *)

Definition bind {A B : Type} (c : outcome A) (k : A -> outcome B) : outcome B :=
  match c with
  | Done a => k a
  | Failed e => Failed e
  | Panicked => Panicked
  end.

Notation "x <- c ;; k" := (bind c (fun x => k))
  (at level 61, c at next level, right associativity).

(** [if err != nil { return fmt.Errorf(context + ": %w", err) }] *)
Definition check (err : option error) (context : string) : outcome unit :=
  match err with
  | Some e => Failed (Wrapped context e)
  | None => Done tt
  end.

(** ** Deck construction *)

(** What the environment decides while a deck is built: the clock, the
    result of opening the store and of each statement, and the order in
    which [range] visits the keys of the two decoded blobs. *)
Record InitEnv : Type :=
  { init_clock : Z;
    open_err : option error;
    template_err : option error;
    decks_range : list string;
    decks_update_err : option error;
    models_range : list string;
    models_update_err : option error }.

(** [var lastKey string; for k := range m { lastKey = k }], where [visited]
    is the order in which the runtime hands out the keys. *)
Definition lastKeyOf (visited : list string) : string :=
  fold_left (fun _ k => k) visited "".

(** Reading the blob back and decoding it succeeds on the store that the
    script has just filled; the [UPDATE] may fail.  The blob is written
    back with [json.Marshal], so the name goes into it as [jsonString]
    gives it. *)
Definition updateDeckName (e : InitEnv) (d : Deck) : outcome Deck :=
  let decks0 := decks (col (db d)) in
  let lastKey := lastKeyOf (decks_range e) in
  updated <-
    (if negb (String.eqb lastKey "") && negb (String.eqb lastKey "1") then
       match map_get lastKey decks0 with
       | Some (JObj deck) =>
           let deck1 := map_set "name" (JStr (jsonString (name d))) deck in
           let deck2 := map_set "id" (JNum (float64_of_int64 (topDeckID d))) deck1 in
           Done (map_set (Itoa (topDeckID d)) (JObj deck2) (map_delete lastKey decks0))
       | _ => Panicked
       end
     else Done decks0) ;;
  match decks_update_err e with
  | Some err => Failed err
  | None =>
      Done (with_db d {| col := {| models := models (col (db d)); decks := updated |};
                         notes := notes (db d); cards := cards (db d) |})
  end.

Definition updateModel (e : InitEnv) (d : Deck) : outcome Deck :=
  let models0 := models (col (db d)) in
  let lastKey := lastKeyOf (models_range e) in
  updated <-
    (if negb (String.eqb lastKey "") then
       match map_get lastKey models0 with
       | Some (JObj model) =>
           let model1 := map_set "name" (JStr (jsonString (name d))) model in
           let model2 := map_set "did" (JNum (float64_of_int64 (topDeckID d))) model1 in
           let model3 := map_set "id" (JNum (float64_of_int64 (topModelID d))) model2 in
           Done (map_set (Itoa (topModelID d)) (JObj model3) (map_delete lastKey models0))
       | _ => Panicked
       end
     else Done models0) ;;
  match models_update_err e with
  | Some err => Failed err
  | None =>
      Done (with_db d {| col := {| models := updated; decks := decks (col (db d)) |};
                         notes := notes (db d); cards := cards (db d) |})
  end.

Definition initializeDatabase (e : InitEnv) (d : Deck) (templateOpts : option TemplateOptions)
  : outcome Deck :=
  _ <- check (template_err e) "failed to execute template" ;;
  let d0 := with_db d (createTemplate templateOpts) in
  let now := init_clock e in
  let deckID := getID d0 "cards" "did" now in
  let d1 := {| name := name d0; db := db d0; media := media d0;
               topDeckID := deckID; topModelID := topModelID d0 |} in
  let modelID := getID d1 "notes" "mid" now in
  let d2 := {| name := name d1; db := db d1; media := media d1;
               topDeckID := topDeckID d1; topModelID := modelID |} in
  d3 <- match updateDeckName e d2 with
        | Done d' => Done d'
        | Failed err => Failed (Wrapped "failed to update deck name" err)
        | Panicked => Panicked
        end ;;
  match updateModel e d3 with
  | Done d' => Done d'
  | Failed err => Failed (Wrapped "failed to update model" err)
  | Panicked => Panicked
  end.

(** The store that [sql.Open] hands over before the script has run. *)
Definition emptyDB : DB :=
  {| col := {| models := []; decks := [] |}; notes := []; cards := [] |}.

Definition NewDeckWithTemplate (e : InitEnv) (name0 : string)
    (templateOpts : option TemplateOptions) : outcome Deck :=
  _ <- check (open_err e) "failed to open database" ;;
  let deck := {| name := name0; db := emptyDB; media := [];
                 topDeckID := 0; topModelID := 0 |} in
  match initializeDatabase e deck templateOpts with
  | Done d => Done d
  | Failed err => Failed (Wrapped "failed to initialize database" err)
  | Panicked => Panicked
  end.

Definition NewDeck (e : InitEnv) (name0 : string) : outcome Deck :=
  NewDeckWithTemplate e name0 None.

(** ** Adding cards *)

(** What the environment decides during one [AddCardWithOptions]: the clock
    and the result of each of the two statements. *)
Record ExecEnv : Type :=
  { clock : Z; note_exec_err : option error; card_exec_err : option error }.

(** [strings.ReplaceAll] for a one-byte pattern and a one-byte replacement. *)
Fixpoint ReplaceAll (s : string) (old new : ascii) : string :=
  match s with
  | EmptyString => EmptyString
  | String c rest =>
      String (if Ascii.eqb c old then new else c) (ReplaceAll rest old new)
  end.

(** The tag text of a note: lines 155 to 162 of [AddCardWithOptions]. *)
Definition tagsStr (opts : option CardOptions) : string :=
  match opts with
  | Some o =>
      match Tags o with
      | [] => ""
      | _ :: _ =>
          let tags := map (fun tag => ReplaceAll tag " "%char "_"%char) (Tags o) in
          " " ++ String.concat " " tags ++ " "
      end
  | None => ""
  end.

(** The call changes the store through the pointer receiver, so the deck it
    leaves is returned together with the error, also when it fails. *)
Definition AddCardWithOptions (e : ExecEnv) (d : Deck) (front back : string)
    (opts : option CardOptions) : Deck * option error :=
  let now := clock e in
  let noteGUID := getNoteGUID d (topDeckID d) front back in
  let noteID := getNoteID d noteGUID now in
  let note :=
    {| n_id := noteID; n_guid := noteGUID; n_mid := topModelID d;
       n_mod := getID d "notes" "mod" now; n_usn := -1; n_tags := tagsStr opts;
       n_flds := front ++ separator ++ back; n_sfld := integerAffinity front;
       n_csum := checksum d (front ++ separator ++ back); n_flags := 0;
       n_data := "" |} in
  match note_exec_err e with
  | Some err => (d, Some (Wrapped "failed to insert note" err))
  | None =>
      let d1 := with_db d (with_notes (db d) (upsert n_id note (notes (db d)))) in
      let card :=
        {| c_id := getCardID d1 noteID now; c_nid := noteID; c_did := topDeckID d1;
           c_ord := 0; c_mod := getID d1 "cards" "mod" now; c_usn := -1; c_type := 0;
           c_queue := 0; c_due := 179; c_ivl := 0; c_factor := 0; c_reps := 0;
           c_lapses := 0; c_left := 0; c_odue := 0; c_odid := 0; c_flags := 0;
           c_data := "" |} in
      match card_exec_err e with
      | Some err => (d1, Some (Wrapped "failed to insert card" err))
      | None =>
          (with_db d1 (with_cards (db d1) (upsert c_id card (cards (db d1)))), None)
      end
  end.

Definition AddCard (e : ExecEnv) (d : Deck) (front back : string) : Deck * option error :=
  AddCardWithOptions e d front back None.

(** ** The media registry *)

Definition AddMedia (d : Deck) (filename : string) (data : bytes) : Deck :=
  {| name := name d; db := db d;
     media := (media d ++ [{| Filename := filename; Data := data |}])%list;
     topDeckID := topDeckID d; topModelID := topModelID d |}.

(** Modelled from the spec: the convenience wrappers [AddAudio], [AddImage]
    and [AddVideo] of the package are not among the sources (only their
    tests and callers are).  Following section 4.4 and the media tag
    property of section 8, each registers the media through [AddMedia] and
    returns the markup fragment for it. *)
Definition AddAudio (d : Deck) (filename : string) (data : bytes) : Deck * string :=
  (AddMedia d filename data, "[sound:" ++ filename ++ "]").

(** Modelled from the spec: see [AddAudio]. *)
Definition AddImage (d : Deck) (filename : string) (data : bytes) : Deck * string :=
  (AddMedia d filename data, "<img src=" ++ dq ++ filename ++ dq ++ ">").

(** Modelled from the spec: see [AddAudio]. *)
Definition AddVideo (d : Deck) (filename : string) (data : bytes) : Deck * string :=
  (AddMedia d filename data,
   "<video controls><source src=" ++ dq ++ filename ++ dq ++ "></video>").

(** ** Archive export *)

(** The body of a zip entry: raw bytes, or the JSON text that [json.Marshal]
    wrote, held decoded. *)
Inductive body : Type :=
| Raw (b : bytes)
| JSONText (j : json).

Record ZipEntry : Type := { entryName : string; entryBody : body }.

(** What the environment decides during [Save]: the bytes of the database
    file that the snapshot produces, whether the snapshot fails, and the
    result of each operation of the zip writer. *)
Record SaveEnv : Type :=
  { sqlite_file : DB -> bytes;
    export_err : option error;
    zip_create_err : string -> option error;
    zip_write_err : string -> option error;
    zip_close_err : option error }.

Definition exportDatabase (e : SaveEnv) (d : Deck) : outcome bytes :=
  match export_err e with
  | Some err => Failed err
  | None => Done (sqlite_file e (db d))
  end.

(** [for i, m := range d.media { mediaMap[strconv.Itoa(i)] = m.Filename }] *)
Fixpoint buildMediaMap (i : Z) (ms : list Media) (mediaMap : gomap string) : gomap string :=
  match ms with
  | [] => mediaMap
  | m :: rest => buildMediaMap (i + 1) rest (map_set (Itoa i) (Filename m) mediaMap)
  end.

(** [json.Marshal] of a [map[string]string], as a decoder reads it back. *)
Definition marshalStringMap (m : gomap string) : json :=
  JObj (map (fun kv => (jsonString (fst kv), JStr (jsonString (snd kv)))) m).

(** The loop that writes one entry per media file. *)
Fixpoint writeMediaFiles (e : SaveEnv) (i : Z) (ms : list Media) (w : list ZipEntry)
  : outcome (list ZipEntry) :=
  match ms with
  | [] => Done w
  | m :: rest =>
      _ <- check (zip_create_err e (Itoa i)) ("failed to create media file " ++ Itoa i) ;;
      _ <- check (zip_write_err e (Itoa i)) ("failed to write media file " ++ Itoa i) ;;
      writeMediaFiles e (i + 1) rest
        (w ++ [{| entryName := Itoa i; entryBody := Raw (Data m) |}])%list
  end.

(** [Save] returns the bytes of a zip archive; the model returns the entries
    of that archive in the order they were written. *)
Definition Save (e : SaveEnv) (d : Deck) : outcome (list ZipEntry) :=
  dbData <- match exportDatabase e d with
            | Done b => Done b
            | Failed err => Failed (Wrapped "failed to export database" err)
            | Panicked => Panicked
            end ;;
  _ <- check (zip_create_err e "collection.anki2") "failed to create collection.anki2" ;;
  _ <- check (zip_write_err e "collection.anki2") "failed to write collection.anki2" ;;
  let w1 := [{| entryName := "collection.anki2"; entryBody := Raw dbData |}] in
  let mediaMap := buildMediaMap 0 (media d) [] in
  let mediaJSON := marshalStringMap mediaMap in
  _ <- check (zip_create_err e "media") "failed to create media file" ;;
  _ <- check (zip_write_err e "media") "failed to write media file" ;;
  let w2 := (w1 ++ [{| entryName := "media"; entryBody := JSONText mediaJSON |}])%list in
  w3 <- writeMediaFiles e 0 (media d) w2 ;;
  _ <- check (zip_close_err e) "failed to close zip writer" ;;
  Done w3.

(** ** The wipe of [PullFromAnki] *)

(** [DELETE FROM cards WHERE did = ?] with the deck's id. *)
Definition clearCards (d : Deck) : Deck :=
  with_db d (with_cards (db d)
    (filter (fun c => negb (c_did c =? topDeckID d)) (cards (db d)))).

(** [DELETE FROM notes] *)
Definition clearNotes (d : Deck) : Deck :=
  with_db d (with_notes (db d) []).

(** ** Decks that the package can build *)

Inductive reachable : Deck -> Prop :=
| reach_new e name0 templateOpts d :
    NewDeckWithTemplate e name0 templateOpts = Done d -> reachable d
| reach_add_card e d front back opts :
    reachable d -> reachable (fst (AddCardWithOptions e d front back opts))
| reach_add_media d filename data :
    reachable d -> reachable (AddMedia d filename data)
| reach_clear_cards d :
    reachable d -> reachable (clearCards d)
| reach_clear_notes d :
    reachable d -> reachable (clearNotes d).

(** ** Queries used to state the properties *)

(** [SELECT * FROM notes WHERE guid = ?] *)
Definition notesFor (s : DB) (guid : string) : list Note :=
  filter (fun n => String.eqb (n_guid n) guid) (notes s).

(** [SELECT c.* FROM cards c JOIN notes n ON c.nid = n.id WHERE n.guid = ?] *)
Definition cardsFor (s : DB) (guid : string) : list Card :=
  filter (fun c => existsb (fun n => (n_id n =? c_nid c) && String.eqb (n_guid n) guid)
                           (notes s))
         (cards s).

(** [SELECT * FROM cards WHERE nid = ?] *)
Definition cardsOfNote (s : DB) (noteID : Z) : list Card :=
  filter (fun c => c_nid c =? noteID) (cards s).

(** The first 32 bits of a hash, read as an unsigned big-endian integer. *)
Definition truncate32 (hash : bytes) : Z :=
  match hash with
  | b0 :: b1 :: b2 :: b3 :: _ => ((b0 * 256 + b1) * 256 + b2) * 256 + b3
  | _ => 0
  end.

(** *** The tag text, in the words of the specification *)

Fixpoint mapString (f : ascii -> ascii) (s : string) : string :=
  match s with
  | EmptyString => EmptyString
  | String c rest => String (f c) (mapString f rest)
  end.

(** White space as Go's [unicode.IsSpace] has it among one-byte characters:
    tab, line feed, vertical tab, form feed, carriage return and space. *)
Definition isSpace (c : ascii) : bool :=
  let n := Z.of_N (N_of_ascii c) in
  ((9 <=? n) && (n <=? 13)) || (n =? 32).

Definition underscoreWhitespace (tag : string) : string :=
  mapString (fun c => if isSpace c then "_"%char else c) tag.

Definition underscoreSpaces (tag : string) : string :=
  mapString (fun c => if Ascii.eqb c " "%char then "_"%char else c) tag.

(** Nothing for no tags; otherwise a leading space, then every tag followed
    by one space. *)
Definition wrapTags (tags : list string) : string :=
  match tags with
  | [] => ""
  | _ :: _ => " " ++ fold_right (fun tag acc => tag ++ " " ++ acc) "" tags
  end.

Definition optionTags (opts : option CardOptions) : list string :=
  match opts with
  | Some o => Tags o
  | None => []
  end.

Definition tab : string := String "009"%char EmptyString.

(** *** The archive, in the words of the specification *)

(** The elements of a list paired with their indices, counted from [k]. *)
Definition indexedFrom {A : Type} (k : nat) (l : list A) : list (Z * A) :=
  combine (map Z.of_nat (seq k (List.length l))) l.

Definition indexed {A : Type} (l : list A) : list (Z * A) := indexedFrom 0 l.

Definition manifestOf (ms : list Media) : list (string * json) :=
  map (fun im => (Itoa (fst im), JStr (Filename (snd im)))) (indexed ms).

(** The manifest as [Save] writes it: the file names go through
    [json.Marshal]. *)
Definition writtenManifest (ms : list Media) : list (string * json) :=
  map (fun im => (Itoa (fst im), JStr (jsonString (Filename (snd im))))) (indexed ms).

Definition payloadEntries (ms : list Media) : list ZipEntry :=
  map (fun im => {| entryName := Itoa (fst im); entryBody := Raw (Data (snd im)) |})
      (indexed ms).

(** The store invariant of the deduplication scheme: no two notes share a
    guid and no two cards share a note. *)
Definition dedup_inv (d : Deck) : Prop :=
  NoDup (map n_guid (notes (db d))) /\ NoDup (map c_nid (cards (db d))).

(** ** Sample inputs *)

(** A clock reading and a fault-free environment in which [range] visits
    the seed deck last. *)
Definition sampleInit : InitEnv :=
  {| init_clock := 1700000000000;
     open_err := None;
     template_err := None;
     decks_range := ["1"; "1435588830424"];
     decks_update_err := None;
     models_range := ["1388596687391"];
     models_update_err := None |}.

(** The same environment, except that [range] visits the key "1" last. *)
Definition sampleInitDefaultLast : InitEnv :=
  {| init_clock := 1700000000000;
     open_err := None;
     template_err := None;
     decks_range := ["1435588830424"; "1"];
     decks_update_err := None;
     models_range := ["1388596687391"];
     models_update_err := None |}.

Definition okExec (now : Z) : ExecEnv :=
  {| clock := now; note_exec_err := None; card_exec_err := None |}.

(** The card statement fails after the note statement has succeeded. *)
Definition cardFailExec (now : Z) : ExecEnv :=
  {| clock := now; note_exec_err := None;
     card_exec_err := Some (StoreError "database or disk is full") |}.

Definition valueOr {A : Type} (default : A) (o : outcome A) : A :=
  match o with
  | Done a => a
  | _ => default
  end.

Definition blankDeck : Deck :=
  {| name := ""; db := emptyDB; media := []; topDeckID := 0; topModelID := 0 |}.

Definition sampleDeck : Deck := valueOr blankDeck (NewDeck sampleInit "Test Deck").

(** ** Further invariants of the store *)

(** Every row is the only one under its primary key. *)
Definition pk_inv (d : Deck) : Prop :=
  NoDup (map n_id (notes (db d))) /\ NoDup (map c_id (cards (db d))).

(** A note as [AddCardWithOptions] writes it for the deck [d]: the model of
    the deck, the fixed columns, a checksum that matches the field text, as
    sort field what the integer column keeps of the front, and a guid that
    is the hash of its own fields. *)
Definition note_wf (d : Deck) (n : Note) : Prop :=
  n_mid n = topModelID d /\ n_usn n = -1 /\ n_flags n = 0 /\ n_data n = ""
  /\ n_csum n = checksum d (n_flds n)
  /\ exists front back,
       n_flds n = front ++ separator ++ back
       /\ n_sfld n = integerAffinity front
       /\ n_guid n = getNoteGUID d (topDeckID d) front back.

(** A card as [AddCardWithOptions] writes it for the deck [d]. *)
Definition card_wf (d : Deck) (c : Card) : Prop :=
  c_did c = topDeckID d /\ c_ord c = 0 /\ c_usn c = -1 /\ c_type c = 0
  /\ c_queue c = 0 /\ c_due c = 179 /\ c_ivl c = 0 /\ c_factor c = 0
  /\ c_reps c = 0 /\ c_lapses c = 0 /\ c_left c = 0 /\ c_odue c = 0
  /\ c_odid c = 0 /\ c_flags c = 0 /\ c_data c = "".

(** ** Text scanning of the sync client *)

(** [s] begins with [p]. *)
Fixpoint hasPrefix (s p : string) {struct p} : bool :=
  match p with
  | EmptyString => true
  | String a p' =>
      match s with
      | EmptyString => false
      | String b s' => Ascii.eqb a b && hasPrefix s' p'
      end
  end.

(** The offset of the first occurrence of [substr] in [s], if any. *)
Fixpoint indexOf (substr s : string) : option nat :=
  if hasPrefix s substr then Some O
  else match s with
       | EmptyString => None
       | String _ rest => option_map S (indexOf substr rest)
       end.

(** [strings.Index]: the byte offset of the first occurrence, or -1. *)
Definition Index (s substr : string) : Z :=
  match indexOf substr s with
  | Some n => Z.of_nat n
  | None => -1
  end.

(** The slice expression [s[lo:hi]], which panics unless
    0 <= lo <= hi <= len(s). *)
Definition slice (s : string) (lo hi : Z) : outcome string :=
  if (0 <=? lo) && (lo <=? hi) && (hi <=? Z.of_nat (String.length s))
  then Done (substring (Z.to_nat lo) (Z.to_nat (hi - lo)) s)
  else Panicked.

(** The slice expression [s[lo:]]. *)
Definition sliceFrom (s : string) (lo : Z) : outcome string :=
  slice s lo (Z.of_nat (String.length s)).

(** The struct [ankiMedia]; its fields [Filename], [Fields] and [Data] are
    prefixed here because the deck's [Media] has fields of the same name. *)
Record ankiMedia : Type :=
  { mediaPath : string; mediaFilename : string; mediaFields : list string;
    mediaData : string }.

(** One [if] block of the case "sound": the sound marker of one field. *)
Definition soundReference (text fieldName : string) (found : list ankiMedia)
  : outcome (list ankiMedia) :=
  let idx := Index text "[sound:" in
  if 0 <=? idx then
    rest <- sliceFrom text idx ;;
    let end_ := Index rest "]" in
    if 0 <? end_ then
      filename <- slice text (idx + 7) (idx + end_) ;;
      Done (found ++ [{| mediaPath := ""; mediaFilename := filename;
                         mediaFields := [fieldName]; mediaData := "" |}])%list
    else Done found
  else Done found.

(** One [if] block of the case "img": the image element of one field. *)
Definition imgReference (text fieldName : string) (found : list ankiMedia)
  : outcome (list ankiMedia) :=
  let idx := Index text ("<img src=" ++ dq) in
  if 0 <=? idx then
    rest <- sliceFrom text (idx + 10) ;;
    let end_ := Index rest dq in
    if 0 <? end_ then
      filename <- slice text (idx + 10) (idx + 10 + end_) ;;
      Done (found ++ [{| mediaPath := ""; mediaFilename := filename;
                         mediaFields := [fieldName]; mediaData := "" |}])%list
    else Done found
  else Done found.

Definition extractMediaReferences (front back mediaType : string)
  : outcome (list ankiMedia) :=
  if String.eqb mediaType "sound" then
    found <- soundReference front "Front" [] ;;
    soundReference back "Back" found
  else if String.eqb mediaType "img" then
    found <- imgReference front "Front" [] ;;
    imgReference back "Back" found
  else Done [].

(** [lacks c s]: the character [c] does not occur in [s]. *)
Fixpoint lacks (c : ascii) (s : string) : bool :=
  match s with
  | EmptyString => true
  | String x rest => negb (Ascii.eqb x c) && lacks c rest
  end.

(** [strings.Split] for a one-byte separator. *)
Fixpoint Split (s : string) (sep : ascii) : list string :=
  match s with
  | EmptyString => [EmptyString]
  | String c rest =>
      if Ascii.eqb c sep then EmptyString :: Split rest sep
      else match Split rest sep with
           | [] => [String c EmptyString]
           | x :: xs => String c x :: xs
           end
  end.

(** The number of bytes of the white-space character at the head of [s],
    as [unicode.IsSpace] decides it on UTF-8 text, and 0 when the head is
    not white space: the six one-byte characters, U+0085 and U+00A0
    (C2 85, C2 A0), U+1680 (E1 9A 80), U+2000 to U+200A, U+2028, U+2029 and
    U+202F (E2 80 80..8A, A8, A9, AF), U+205F (E2 81 9F) and U+3000
    (E3 80 80).  The first byte of each is never a continuation byte, so a
    decoder that reads the text rune by rune stops at every one of them. *)
Definition spaceWidth (s : string) : nat :=
  match s with
  | EmptyString => 0
  | String c0 r0 =>
      let b0 := byteOf c0 in
      if ((9 <=? b0) && (b0 <=? 13)) || (b0 =? 32) then 1
      else
        match r0 with
        | EmptyString => 0
        | String c1 r1 =>
            let b1 := byteOf c1 in
            if (b0 =? 194) && ((b1 =? 133) || (b1 =? 160)) then 2
            else
              match r1 with
              | EmptyString => 0
              | String c2 _ =>
                  let b2 := byteOf c2 in
                  if (b0 =? 225) && (b1 =? 154) && (b2 =? 128) then 3
                  else if (b0 =? 226) && (b1 =? 128)
                          && (((128 <=? b2) && (b2 <=? 138)) || (b2 =? 168)
                              || (b2 =? 169) || (b2 =? 175)) then 3
                  else if (b0 =? 226) && (b1 =? 129) && (b2 =? 159) then 3
                  else if (b0 =? 227) && (b1 =? 128) && (b2 =? 128) then 3
                  else 0
              end
        end
  end.

(** The field in progress, if it has any byte. *)
Definition flushField (cur : string) : list string :=
  match cur with
  | EmptyString => []
  | String _ _ => [cur]
  end.

(** The scan of [strings.Fields]: [skip] bytes of a white-space character
    are still to be passed over, [cur] is the field in progress. *)
Fixpoint scanFields (skip : nat) (cur : string) (s : string) : list string :=
  match s with
  | EmptyString => flushField cur
  | String c rest =>
      match skip with
      | S k => scanFields k cur rest
      | O =>
          match spaceWidth s with
          | O => scanFields 0 (cur ++ String c EmptyString) rest
          | S k => (flushField cur ++ scanFields k EmptyString rest)%list
          end
      end
  end.

(** [strings.Fields]: the maximal runs of bytes between white space. *)
Definition Fields (s : string) : list string := scanFields 0 EmptyString s.

(** ** The sync client *)

(** The struct [ankiNote]; its field [Tags] is [NoteTags] here because
    [CardOptions] has a field of the same name, and its field [Fields] is
    [NoteFields] because of [strings.Fields]. *)
Record ankiNote : Type :=
  { DeckName : string; ModelName : string; NoteFields : gomap string;
    NoteTags : list string; Audio : list ankiMedia; Picture : list ankiMedia;
    Video : list ankiMedia; Options : gomap json }.

(** A call of a method of the client, with its arguments. *)
Inductive call : Type :=
| CallPing
| CallCreateDeck (deck : string)
| CallStoreMediaFile (filename : string) (data : bytes)
| CallAddNote (note : ankiNote)
| CallFindNotes (query : string)
| CallGetNotesInfo (noteIDs : list Z)
| CallUpdateNoteFields (noteID : Z) (fields : gomap string).

(** The client [*AnkiConnect].  Each method ends in an HTTP exchange with
    the remote application; what it returns is an input of the model and
    may depend on the calls made before it.  The error of [StoreMediaFile]
    is only printed by its callers, so its answer is not part of the
    record. *)
Record AnkiConnect : Type :=
  { Ping : list call -> option error;
    CreateDeck : list call -> string -> option error;
    AddNote : list call -> ankiNote -> Z + error;
    FindNotes : list call -> string -> list Z + error;
    GetNotesInfo : list call -> list Z -> list (gomap json) + error;
    UpdateNoteFields : list call -> Z -> gomap string -> option error }.

(** [SELECT n.flds, n.tags FROM notes n JOIN cards c ON c.nid = n.id
    WHERE c.did = ?] with the deck's id.  The statement has no [ORDER BY]:
    the order of the rows is the engine's; the model lists them card by
    card. *)
Definition deckRows (d : Deck) : list (string * string) :=
  flat_map
    (fun c =>
       if c_did c =? topDeckID d
       then map (fun n => (n_flds n, n_tags n))
                (filter (fun n => n_id n =? c_nid c) (notes (db d)))
       else [])
    (cards (db d)).

Definition duplicateMessage : string :=
  "AnkiConnect error: cannot create note because it is a duplicate".

Definition deckExistsMessage : string := "AnkiConnect error: deck already exists".

(** The three calls of [extractMediaReferences] for one note. *)
Definition noteMedia (syncMedia : bool) (front back : string)
  : outcome (list ankiMedia * list ankiMedia * list ankiMedia) :=
  if syncMedia then
    audio <- extractMediaReferences front back "sound" ;;
    picture <- extractMediaReferences front back "img" ;;
    video <- extractMediaReferences front back "video" ;;
    Done (audio, picture, video)
  else Done ([], [], []).

(** The loop over the rows in [PushToAnkiWithMedia]; it returns the calls
    made so far and the result. *)
Fixpoint pushRows (client : AnkiConnect) (d : Deck) (syncMedia : bool)
    (rows : list (string * string)) (h : list call) : list call * outcome unit :=
  match rows with
  | [] => (h, Done tt)
  | (flds, tags) :: rest =>
      match Split flds "031"%char with
      | front :: back :: _ =>
          match noteMedia syncMedia front back with
          | Done (audio, picture, video) =>
              let note :=
                {| DeckName := name d; ModelName := "Basic";
                   NoteFields := [("Front", front); ("Back", back)];
                   NoteTags := if String.eqb tags "" then [] else Fields tags;
                   Audio := audio; Picture := picture; Video := video;
                   Options := [("allowDuplicate", JBool false)] |} in
              let h' := (h ++ [CallAddNote note])%list in
              match AddNote client h note with
              | inr err =>
                  if negb (String.eqb (ErrorText err) duplicateMessage)
                  then (h', Failed (Wrapped "failed to add card" err))
                  else pushRows client d syncMedia rest h'
              | inl _ => pushRows client d syncMedia rest h'
              end
          | Failed err => (h, Failed err)
          | Panicked => (h, Panicked)
          end
      | _ => pushRows client d syncMedia rest h
      end
  end.

(** The loop that stores the media files; a failure is printed and the
    loop goes on. *)
Fixpoint storeMediaFiles (ms : list Media) (h : list call) : list call :=
  match ms with
  | [] => h
  | m :: rest => storeMediaFiles rest (h ++ [CallStoreMediaFile (Filename m) (Data m)])%list
  end.

(** The query of the rows is taken to succeed, like the other queries of
    the store. *)
Definition PushToAnkiWithMedia (client : AnkiConnect) (d : Deck) (syncMedia : bool)
    (h : list call) : list call * outcome unit :=
  let h1 := (h ++ [CallPing])%list in
  match Ping client h with
  | Some err => (h1, Failed (Wrapped "failed to connect to AnkiConnect" err))
  | None =>
      let h2 := (h1 ++ [CallCreateDeck (name d)])%list in
      let refused :=
        match CreateDeck client h1 (name d) with
        | Some err =>
            if negb (String.eqb (ErrorText err) deckExistsMessage) then Some err else None
        | None => None
        end in
      match refused with
      | Some err => (h2, Failed (Wrapped "failed to create deck" err))
      | None =>
          let h3 := if syncMedia && (0 <? Z.of_nat (List.length (media d)))
                    then storeMediaFiles (media d) h2 else h2 in
          pushRows client d syncMedia (deckRows d) h3
      end
  end.

Definition PushToAnki (client : AnkiConnect) (d : Deck) (h : list call)
  : list call * outcome unit :=
  PushToAnkiWithMedia client d false h.

(** What the environment decides for the local statements of
    [PullFromAnki]: the results of the two [DELETE] statements and, for the
    note at each position of the remote list, the clock and the results of
    the statements of its [AddCardWithOptions]. *)
Record PullEnv : Type :=
  { delete_cards_err : option error;
    delete_notes_err : option error;
    add_env : nat -> ExecEnv }.

(** [fields[key].(map[string]interface{})["value"].(string)], or the empty
    string when an assertion fails. *)
Definition fieldValue (fields : gomap json) (key : string) : string :=
  match map_get key fields with
  | Some (JObj f) =>
      match map_get "value" f with
      | Some (JStr v) => v
      | _ => ""
      end
  | _ => ""
  end.

(** The string elements of [noteInfo["tags"]], when it is an array. *)
Definition infoTags (noteInfo : gomap json) : list string :=
  match map_get "tags" noteInfo with
  | Some (JArr items) =>
      flat_map (fun t => match t with JStr s => [s] | _ => [] end) items
  | _ => []
  end.

(** The loop over the remote notes in [PullFromAnki]. *)
Fixpoint pullNotes (env : PullEnv) (i : nat) (infos : list (gomap json)) (d : Deck)
  : Deck * option error :=
  match infos with
  | [] => (d, None)
  | noteInfo :: rest =>
      match map_get "fields" noteInfo with
      | Some (JObj fields) =>
          let front := fieldValue fields "Front" in
          let back := fieldValue fields "Back" in
          let opts := Some {| Tags := infoTags noteInfo |} in
          let r := AddCardWithOptions (add_env env i) d front back opts in
          match snd r with
          | Some err => (fst r, Some (Wrapped "failed to add card" err))
          | None => pullNotes env (S i) rest (fst r)
          end
      | _ => pullNotes env (S i) rest d
      end
  end.

Definition PullFromAnki (client : AnkiConnect) (env : PullEnv) (d : Deck) (h : list call)
  : Deck * list call * option error :=
  let h1 := (h ++ [CallPing])%list in
  match Ping client h with
  | Some err => (d, h1, Some (Wrapped "failed to connect to AnkiConnect" err))
  | None =>
      let query := "deck:" ++ dq ++ name d ++ dq in
      let h2 := (h1 ++ [CallFindNotes query])%list in
      match FindNotes client h1 query with
      | inr err => (d, h2, Some (Wrapped "failed to find notes" err))
      | inl [] => (d, h2, None)
      | inl noteIDs =>
          let h3 := (h2 ++ [CallGetNotesInfo noteIDs])%list in
          match GetNotesInfo client h2 noteIDs with
          | inr err => (d, h3, Some (Wrapped "failed to get notes info" err))
          | inl notesInfo =>
              match delete_cards_err env with
              | Some err => (d, h3, Some (Wrapped "failed to clear existing cards" err))
              | None =>
                  let d1 := clearCards d in
                  match delete_notes_err env with
                  | Some err =>
                      (d1, h3, Some (Wrapped "failed to clear existing notes" err))
                  | None =>
                      let r := pullNotes env 0 notesInfo (clearNotes d1) in
                      (fst r, h3, snd r)
                  end
              end
          end
      end
  end.

(** A remote that answers every ping, accepts the deck or reports that it
    exists, and takes every note or reports it as a duplicate. *)
Definition tolerant (client : AnkiConnect) : Prop :=
  (forall h, Ping client h = None)
  /\ (forall h deck,
        CreateDeck client h deck = None
        \/ exists err, CreateDeck client h deck = Some err
                       /\ ErrorText err = deckExistsMessage)
  /\ (forall h note,
        (exists id, AddNote client h note = inl id)
        \/ exists err, AddNote client h note = inr err
                       /\ ErrorText err = duplicateMessage).

(** What [PushToAnkiWithMedia] may call for the deck [d]. *)
Definition pushCall (d : Deck) (syncMedia : bool) (c : call) : Prop :=
  match c with
  | CallPing => True
  | CallCreateDeck deck => deck = name d
  | CallStoreMediaFile filename data =>
      syncMedia = true /\ In {| Filename := filename; Data := data |} (media d)
  | CallAddNote note =>
      DeckName note = name d /\ ModelName note = "Basic"
      /\ Options note = [("allowDuplicate", JBool false)]
      /\ Video note = []
      /\ (exists front back, NoteFields note = [("Front", front); ("Back", back)])
      /\ (if syncMedia then True else Audio note = [] /\ Picture note = [])
  | CallFindNotes _ => False
  | CallGetNotesInfo _ => False
  | CallUpdateNoteFields _ _ => False
  end.

(** A byte of a word: below 128 and not white space. *)
Definition wordByte (c : ascii) : bool :=
  let b := byteOf c in
  (b <? 128) && negb (((9 <=? b) && (b <=? 13)) || (b =? 32)).

(** A tag that [AddCardWithOptions] turns into one word: not empty, and
    made of spaces and word bytes. *)
Definition plainTag (tag : string) : bool :=
  negb (String.eqb tag "")
  && forallb (fun c => Ascii.eqb c " "%char || wordByte c) (list_ascii_of_string tag).

(** A remote that knows the deck already, takes every note, and holds two
    notes of its own; the second has no Back field. *)
Definition sampleClient : AnkiConnect :=
  {| Ping := fun _ => None;
     CreateDeck := fun _ _ => Some (StoreError deckExistsMessage);
     AddNote := fun h _ => inl (Z.of_nat (List.length h));
     FindNotes := fun _ _ => inl [101; 102];
     GetNotesInfo := fun _ _ =>
       inl [ [("noteId", JNum 101);
              ("fields", JObj [("Front", JObj [("value", JStr "Bonjour"); ("order", JNum 0)]);
                               ("Back", JObj [("value", JStr "Hello"); ("order", JNum 1)])]);
              ("tags", JArr [JStr "french"; JStr "greeting"])];
             [("noteId", JNum 102);
              ("fields", JObj [("Front", JObj [("value", JStr "Merci")])]);
              ("tags", JArr [])] ];
     UpdateNoteFields := fun _ _ _ => None |}.

Definition samplePull : PullEnv :=
  {| delete_cards_err := None; delete_notes_err := None;
     add_env := fun i => okExec (1700000001000 + Z.of_nat i) |}.

(** A note whose content is that of an entry of the remote list: front,
    back and tags as [PullFromAnki] reads them from the entry, and as sort
    field what the integer column keeps of that front. *)
Definition fromRemote (infos : list (gomap json)) (n : Note) : Prop :=
  exists noteInfo fields,
    In noteInfo infos
    /\ map_get "fields" noteInfo = Some (JObj fields)
    /\ n_sfld n = integerAffinity (fieldValue fields "Front")
    /\ n_flds n = fieldValue fields "Front" ++ separator ++ fieldValue fields "Back"
    /\ n_tags n = tagsStr (Some {| Tags := infoTags noteInfo |}).

(** Every card refers to a note of the store. *)
Definition cards_have_notes (d : Deck) : Prop :=
  forall c, In c (cards (db d)) -> exists n, In n (notes (db d)) /\ n_id n = c_nid c.

(** ** Synchronisation with the notes of the remote deck *)

Record SyncOptions : Type :=
  { UpdateExisting : bool; DeleteMissing : bool; SyncMedia : bool }.

(** [int64(f)] for a float64 [f] that holds an integer: the value itself
    inside the int64 range; outside it Go leaves the result to the
    implementation, so the environment supplies it. *)
Definition int64_of_float64 (overflow : Z -> Z) (f : Z) : Z :=
  if (- 2 ^ 63 <=? f) && (f <? 2 ^ 63) then f else overflow f.

(** The key under which [SyncToAnki] and [syncWithExisting] look a note
    up. *)
Definition contentKey (front back : string) : string := front ++ "|" ++ back.

(** The loop of [SyncToAnki] that fills [existingMap] from the answer of
    the remote.  The numbers of the answer are integers. *)
Fixpoint existingNotes (overflow : Z -> Z) (infos : list (gomap json)) (m : gomap Z)
  : gomap Z :=
  match infos with
  | [] => m
  | noteInfo :: rest =>
      match map_get "fields" noteInfo with
      | Some (JObj fields) =>
          let front := fieldValue fields "Front" in
          let back := fieldValue fields "Back" in
          match map_get "noteId" noteInfo with
          | Some (JNum noteID) =>
              existingNotes overflow rest
                (map_set (contentKey front back) (int64_of_float64 overflow noteID) m)
          | _ => existingNotes overflow rest m
          end
      | _ => existingNotes overflow rest m
      end
  end.

(** The loop over the rows in [syncWithExisting]. *)
Fixpoint syncRows (client : AnkiConnect) (d : Deck) (existingMap : gomap Z)
    (syncMedia : bool) (rows : list (string * string)) (h : list call)
  : list call * outcome unit :=
  match rows with
  | [] => (h, Done tt)
  | (flds, tags) :: rest =>
      match Split flds "031"%char with
      | front :: back :: _ =>
          match map_get (contentKey front back) existingMap with
          | Some noteID =>
              let updateFields := [("Front", front); ("Back", back)] in
              let h' := (h ++ [CallUpdateNoteFields noteID updateFields])%list in
              match UpdateNoteFields client h noteID updateFields with
              | Some err =>
                  (h', Failed (Wrapped ("failed to update note " ++ Itoa noteID) err))
              | None => syncRows client d existingMap syncMedia rest h'
              end
          | None =>
              match noteMedia syncMedia front back with
              | Done (audio, picture, video) =>
                  let note :=
                    {| DeckName := name d; ModelName := "Basic";
                       NoteFields := [("Front", front); ("Back", back)];
                       NoteTags := if String.eqb tags "" then [] else Fields tags;
                       Audio := audio; Picture := picture; Video := video;
                       Options := [("allowDuplicate", JBool false)] |} in
                  let h' := (h ++ [CallAddNote note])%list in
                  match AddNote client h note with
                  | inr err =>
                      if negb (String.eqb (ErrorText err) duplicateMessage)
                      then (h', Failed (Wrapped "failed to add card" err))
                      else syncRows client d existingMap syncMedia rest h'
                  | inl _ => syncRows client d existingMap syncMedia rest h'
                  end
              | Failed err => (h, Failed err)
              | Panicked => (h, Panicked)
              end
          end
      | _ => syncRows client d existingMap syncMedia rest h
      end
  end.

(** The query of the rows is taken to succeed, as in
    [PushToAnkiWithMedia]. *)
Definition syncWithExisting (client : AnkiConnect) (d : Deck) (existingMap : gomap Z)
    (syncMedia : bool) (h : list call) : list call * outcome unit :=
  let h1 := if syncMedia && (0 <? Z.of_nat (List.length (media d)))
            then storeMediaFiles (media d) h else h in
  syncRows client d existingMap syncMedia (deckRows d) h1.

Definition SyncToAnki (overflow : Z -> Z) (client : AnkiConnect) (d : Deck)
    (opts : option SyncOptions) (h : list call) : list call * outcome unit :=
  let syncOpts :=
    match opts with
    | Some o => o
    | None => {| UpdateExisting := true; DeleteMissing := false; SyncMedia := false |}
    end in
  let h1 := (h ++ [CallPing])%list in
  match Ping client h with
  | Some err => (h1, Failed (Wrapped "failed to connect to AnkiConnect" err))
  | None =>
      let h2 := (h1 ++ [CallCreateDeck (name d)])%list in
      let refused :=
        match CreateDeck client h1 (name d) with
        | Some err =>
            if negb (String.eqb (ErrorText err) deckExistsMessage) then Some err else None
        | None => None
        end in
      match refused with
      | Some err => (h2, Failed (Wrapped "failed to create deck" err))
      | None =>
          let query := "deck:" ++ dq ++ name d ++ dq in
          let h3 := (h2 ++ [CallFindNotes query])%list in
          match FindNotes client h2 query with
          | inr err => (h3, Failed (Wrapped "failed to find existing notes" err))
          | inl existing =>
              if UpdateExisting syncOpts && (0 <? Z.of_nat (List.length existing))
              then
                let h4 := (h3 ++ [CallGetNotesInfo existing])%list in
                match GetNotesInfo client h3 existing with
                | inr err => (h4, Failed (Wrapped "failed to get notes info" err))
                | inl notesInfo =>
                    syncWithExisting client d (existingNotes overflow notesInfo [])
                      (SyncMedia syncOpts) h4
                end
              else PushToAnkiWithMedia client d (SyncMedia syncOpts) h3
          end
      end
  end.

(** A remote entry with the given content key and note id. *)
Definition remoteEntry (overflow : Z -> Z) (infos : list (gomap json))
    (k : string) (id : Z) : Prop :=
  exists noteInfo fields noteID,
    In noteInfo infos
    /\ map_get "fields" noteInfo = Some (JObj fields)
    /\ map_get "noteId" noteInfo = Some (JNum noteID)
    /\ contentKey (fieldValue fields "Front") (fieldValue fields "Back") = k
    /\ id = int64_of_float64 overflow noteID.

(** What the loop of [syncWithExisting] may call, given the map of the
    remote notes: an update of a note the map holds under the content key
    of the fields sent, or a new note whose content key the map lacks. *)
Definition syncRowCall (existingMap : gomap Z) (c : call) : Prop :=
  match c with
  | CallUpdateNoteFields noteID fields =>
      exists front back,
        fields = [("Front", front); ("Back", back)]
        /\ map_get (contentKey front back) existingMap = Some noteID
  | CallAddNote note =>
      exists front back,
        NoteFields note = [("Front", front); ("Back", back)]
        /\ map_get (contentKey front back) existingMap = None
  | _ => False
  end.

(** * Properties *)

#[local] Arguments getNoteGUID : simpl never.
#[local] Arguments checksum : simpl never.
#[local] Arguments getID : simpl never.
#[local] Arguments getNoteID : simpl never.
#[local] Arguments getCardID : simpl never.
#[local] Arguments tagsStr : simpl never.
#[local] Arguments Itoa : simpl never.
#[local] Arguments SHA1.Sum : simpl never.
#[local] Arguments upsert : simpl never.
#[local] Arguments integerAffinity : simpl never.
#[local] Arguments jsonString : simpl never.
#[local] Arguments scriptText : simpl never.

(** ** SHA-1 test vectors (FIPS 180) *)

Example sha1_empty :
  hex_of_bytes (SHA1.Sum (bytes_of_string "")) = "da39a3ee5e6b4b0d3255bfef95601890afd80709".
Proof. vm_compute. reflexivity. Qed.

Example sha1_abc :
  hex_of_bytes (SHA1.Sum (bytes_of_string "abc")) = "a9993e364706816aba3e25717850c26c9cd0d89d".
Proof. vm_compute. reflexivity. Qed.

Example sha1_two_blocks :
  hex_of_bytes
    (SHA1.Sum (bytes_of_string "abcdbcdecdefdefgefghfghighijhijkijkljklmklmnlmnomnopnopq"))
  = "84983e441c3bd26ebaae4aa1f95129e5e54670f1".
Proof. vm_compute. reflexivity. Qed.

(** The padded message is a whole number of 64-byte blocks, and the fuel
    of [chunks] is enough to cut all of it. *)
Lemma pad_length_blocks (msg : bytes) :
  Z.of_nat (List.length (SHA1.pad msg)) mod 64 = 0.
Proof.
  unfold SHA1.pad, SHA1.length_bytes.
  rewrite !length_app, repeat_length, length_map. cbn [List.length].
  set (len := Z.of_nat (List.length msg)).
  pose proof (Z.mod_pos_bound (55 - len) 64 ltac:(lia)) as Hb.
  pose proof (Z.div_mod (55 - len) 64 ltac:(lia)) as Hd.
  replace (Z.of_nat (List.length msg + (1 + (Z.to_nat ((55 - len) mod 64) + 8))))
    with ((1 - (55 - len) / 64) * 64) by (subst len; lia).
  apply Z.mod_mul. lia.
Qed.

Lemma chunks_concat (fuel : nat) (bs : bytes) :
  (List.length bs <= fuel)%nat -> concat (SHA1.chunks fuel bs) = bs.
Proof.
  revert bs. induction fuel as [|fuel IH]; intros bs Hlen.
  - destruct bs; [reflexivity|simpl in Hlen; lia].
  - destruct bs as [|b bs]; [reflexivity|].
    cbn [SHA1.chunks concat]. rewrite IH.
    + apply firstn_skipn.
    + rewrite length_skipn. simpl in Hlen |- *. lia.
Qed.

(** ** The greatest element of a selection *)

Lemma fold_max_ge (l : list Z) (a : Z) : a <= fold_left Z.max l a.
Proof.
  revert a; induction l as [|x l IH]; intros a; simpl; [lia|].
  specialize (IH (Z.max a x)); lia.
Qed.

Lemma fold_max_upper (l : list Z) (a x : Z) : In x l -> x <= fold_left Z.max l a.
Proof.
  revert a; induction l as [|y l IH]; intros a; simpl; [tauto|].
  intros [->|Hin].
  - pose proof (fold_max_ge l (Z.max a x)); lia.
  - now apply IH.
Qed.

Lemma fold_max_In (l : list Z) (a : Z) :
  fold_left Z.max l a = a \/ In (fold_left Z.max l a) l.
Proof.
  revert a; induction l as [|y l IH]; intros a; simpl; [now left|].
  destruct (IH (Z.max a y)) as [H|H]; [|now right; right].
  rewrite H. destruct (Z.max_spec a y) as [[_ ->]|[_ ->]]; [right; now left|now left].
Qed.

Lemma greatest_Some (l : list Z) (m : Z) :
  greatest l = Some m -> In m l /\ forall x, In x l -> x <= m.
Proof.
  destruct l as [|a l]; simpl; [discriminate|].
  intros [= <-]. split.
  - destruct (fold_max_In l a) as [->|H]; [now left|now right].
  - intros x [<-|Hin]; [apply fold_max_ge|now apply fold_max_upper].
Qed.

Lemma greatest_intro (l : list Z) (m : Z) :
  In m l -> (forall x, In x l -> x <= m) -> greatest l = Some m.
Proof.
  intros Hin Hub. destruct (greatest l) as [m'|] eqn:E.
  - apply greatest_Some in E as [Hin' Hub'].
    f_equal. specialize (Hub _ Hin'). specialize (Hub' _ Hin). lia.
  - destruct l; [contradiction|discriminate].
Qed.

Lemma greatest_None (l : list Z) : greatest l = None -> l = [].
Proof. destruct l; [reflexivity|discriminate]. Qed.

(** ** Columns without duplicates *)

Section Unique.
Context {R K : Type} (g : R -> K).

Lemma NoDup_map_filter (f : R -> bool) (l : list R) :
  NoDup (map g l) -> NoDup (map g (filter f l)).
Proof.
  induction l as [|y l IH]; simpl; [auto|].
  intros H. inversion H as [|? ? Hnotin Hnd]; subst.
  destruct (f y); simpl; [|now apply IH].
  constructor; [|now apply IH].
  intros Hin. apply Hnotin. apply in_map_iff in Hin as (z & Hz & Hin).
  apply filter_In in Hin as [Hin _]. apply in_map_iff. now exists z.
Qed.

Lemma NoDup_map_In_eq (l : list R) (a b : R) :
  NoDup (map g l) -> In a l -> In b l -> g a = g b -> a = b.
Proof.
  induction l as [|y l IH]; simpl; [tauto|].
  intros H. inversion H as [|? ? Hnotin Hnd]; subst.
  intros [->|Ha] [->|Hb] Hg; auto.
  - exfalso. apply Hnotin. rewrite Hg. now apply in_map.
  - exfalso. apply Hnotin. rewrite <- Hg. now apply in_map.
Qed.

(** In a duplicate-free column a value that occurs selects one row. *)
Lemma unique_selects_one (eqb : K -> K -> bool) (r : R) (l : list R) :
  (forall a b, eqb a b = true <-> a = b) ->
  NoDup (map g l) -> In r l ->
  filter (fun x => eqb (g x) (g r)) l = [r].
Proof.
  intros Heqb. induction l as [|y l IH]; simpl; [tauto|].
  intros H. inversion H as [|? ? Hnotin Hnd]; subst.
  assert (Hnone : forall z, ~ In (g z) (map g l) ->
             filter (fun x => eqb (g x) (g z)) l = []).
  { intros z Hz. clear - Hz Heqb. induction l as [|w l IHl]; simpl; [reflexivity|].
    destruct (eqb (g w) (g z)) eqn:E.
    - exfalso. apply Hz. left. now apply Heqb.
    - apply IHl. intros Hc. apply Hz. now right. }
  intros [->|Hin].
  - replace (eqb (g r) (g r)) with true by (symmetry; now apply Heqb).
    f_equal. now apply Hnone.
  - destruct (eqb (g y) (g r)) eqn:E.
    + exfalso. apply Hnotin. apply Heqb in E. rewrite E. now apply in_map.
    + now apply IH.
Qed.
End Unique.

(** ** [INSERT OR REPLACE] after a lookup by content *)

Section Upsert.
Context {R : Type} (key : R -> Z).

Lemma filter_key_twice (k : Z) (l : list R) :
  filter (fun x => negb (key x =? k)) (filter (fun x => negb (key x =? k)) l)
  = filter (fun x => negb (key x =? k)) l.
Proof.
  induction l as [|y l IH]; simpl; [reflexivity|].
  destruct (negb (key y =? k)) eqn:E; simpl; [rewrite E, IH|]; auto.
Qed.

(** A second upsert under the same key replaces the row of the first. *)
Lemma upsert_again (r r' : R) (l : list R) :
  key r' = key r ->
  upsert key r' (upsert key r l)
  = (filter (fun x => negb (key x =? key r)) l ++ [r'])%list.
Proof.
  intros Hk. unfold upsert. rewrite Hk, filter_app, filter_key_twice.
  simpl. rewrite Z.eqb_refl. simpl. now rewrite app_nil_r.
Qed.

Lemma upsert_again_length (r r' : R) (l : list R) :
  key r' = key r ->
  List.length (upsert key r' (upsert key r l)) = List.length (upsert key r l).
Proof.
  intros Hk. rewrite upsert_again by assumption.
  unfold upsert. now rewrite !length_app.
Qed.

Lemma In_upsert_new (r : R) (l : list R) : In r (upsert key r l).
Proof. unfold upsert. apply in_or_app. right. now left. Qed.

Lemma In_upsert_inv (r x : R) (l : list R) :
  In x (upsert key r l) -> x = r \/ (In x l /\ key x <> key r).
Proof.
  unfold upsert. intros H. apply in_app_or in H as [H|[H|[]]].
  - apply filter_In in H as [Hin Hk]. right. split; [assumption|].
    apply negb_true_iff, Z.eqb_neq in Hk. assumption.
  - now left.
Qed.

(** The lookup "greatest key among the rows that satisfy [p]" finds the row
    just written, whenever that row was written under the key that the
    same lookup gave before (or under any key, if the lookup found none). *)
Lemma lookup_after_upsert (p : R -> bool) (r : R) (l : list R) :
  p r = true ->
  match greatest (map key (filter p l)) with
  | Some m => key r = m
  | None => True
  end ->
  greatest (map key (filter p (upsert key r l))) = Some (key r).
Proof.
  intros Hp Hres. unfold upsert. rewrite filter_app, map_app. simpl. rewrite Hp. simpl.
  apply greatest_intro.
  - apply in_or_app. right. now left.
  - intros x Hx. apply in_app_or in Hx as [Hx|[<-|[]]]; [|lia].
    apply in_map_iff in Hx as (y & <- & Hy).
    apply filter_In in Hy as [Hy Hpy]. apply filter_In in Hy as [Hy _].
    assert (Hin : In (key y) (map key (filter p l))).
    { apply in_map. apply filter_In. now split. }
    destruct (greatest (map key (filter p l))) as [m|] eqn:E.
    + apply greatest_Some in E as [_ Hub]. subst m. now apply Hub.
    + apply greatest_None in E. rewrite E in Hin. contradiction.
Qed.
End Upsert.

Section UpsertUnique.
Context {R K : Type} (key : R -> Z) (g : R -> K).

(** An upsert keeps a column free of duplicates when every row that
    already carries the new value is the row being replaced. *)
Lemma upsert_NoDup (r : R) (l : list R) :
  NoDup (map g l) ->
  (forall y, In y l -> g y = g r -> key y = key r) ->
  NoDup (map g (upsert key r l)).
Proof.
  intros Hnd Hsame. unfold upsert. rewrite map_app. simpl.
  apply NoDup_app. repeat split.
  - now apply NoDup_map_filter.
  - constructor; [intros []|constructor].
  - intros x Hx [<-|[]].
    apply in_map_iff in Hx as (y & Hg & Hy).
    apply filter_In in Hy as [Hy Hk].
    apply negb_true_iff, Z.eqb_neq in Hk. apply Hk. now apply Hsame.
Qed.
End UpsertUnique.

(** ** Resolution of note and card identifiers *)

Lemma getNoteID_of_row (d : Deck) (y : Note) (ts : Z) :
  NoDup (map n_guid (notes (db d))) -> In y (notes (db d)) ->
  getNoteID d (n_guid y) ts = n_id y.
Proof.
  intros Hnd Hin. unfold getNoteID.
  rewrite (unique_selects_one n_guid String.eqb y (notes (db d)) String.eqb_eq Hnd Hin).
  reflexivity.
Qed.

Lemma getCardID_of_row (d : Deck) (y : Card) (ts : Z) :
  NoDup (map c_nid (cards (db d))) -> In y (cards (db d)) ->
  getCardID d (c_nid y) ts = c_id y.
Proof.
  intros Hnd Hin. unfold getCardID.
  rewrite (unique_selects_one c_nid Z.eqb y (cards (db d)) Z.eqb_eq Hnd Hin).
  reflexivity.
Qed.

Lemma AddCardWithOptions_ok (e : ExecEnv) (d : Deck) (front back : string)
    (opts : option CardOptions) :
  snd (AddCardWithOptions e d front back opts) = None ->
  note_exec_err e = None /\ card_exec_err e = None.
Proof.
  unfold AddCardWithOptions.
  destruct (note_exec_err e); [discriminate|].
  destruct (card_exec_err e); [discriminate|]. auto.
Qed.

Lemma AddCardWithOptions_ids (e : ExecEnv) (d : Deck) (front back : string)
    (opts : option CardOptions) :
  topDeckID (fst (AddCardWithOptions e d front back opts)) = topDeckID d
  /\ topModelID (fst (AddCardWithOptions e d front back opts)) = topModelID d
  /\ media (fst (AddCardWithOptions e d front back opts)) = media d
  /\ name (fst (AddCardWithOptions e d front back opts)) = name d.
Proof.
  unfold AddCardWithOptions.
  destruct (note_exec_err e); [cbn; auto|].
  destruct (card_exec_err e); cbn; auto.
Qed.

Lemma dedup_inv_AddCardWithOptions (e : ExecEnv) (d : Deck) (front back : string)
    (opts : option CardOptions) :
  dedup_inv d -> dedup_inv (fst (AddCardWithOptions e d front back opts)).
Proof.
  intros [Hn Hc]. unfold AddCardWithOptions.
  destruct (note_exec_err e); [now split|].
  assert (Hn' : forall nt : Note,
             n_id nt = getNoteID d (n_guid nt) (clock e) ->
             NoDup (map n_guid (upsert n_id nt (notes (db d))))).
  { intros nt Hid. apply upsert_NoDup; [assumption|].
    intros y Hy Hg. rewrite Hid, <- Hg. symmetry. now apply getNoteID_of_row. }
  destruct (card_exec_err e); cbn [fst]; split; cbn;
    try (apply Hn'; reflexivity); try assumption.
  apply upsert_NoDup; [assumption|].
  intros y Hy Hg. cbn in Hg |- *. rewrite <- Hg.
  symmetry. now apply (getCardID_of_row _ y).
Qed.

(** ** Deck construction leaves empty tables and clock-valued identifiers *)

Lemma updateDeckName_frame (e : InitEnv) (d d' : Deck) :
  updateDeckName e d = Done d' ->
  name d' = name d /\ media d' = media d /\ topDeckID d' = topDeckID d
  /\ topModelID d' = topModelID d /\ notes (db d') = notes (db d)
  /\ cards (db d') = cards (db d) /\ models (col (db d')) = models (col (db d)).
Proof.
  unfold updateDeckName, bind.
  destruct (negb _ && negb _).
  - destruct (map_get _ _) as [[| | | | |deck]|]; try discriminate.
    destruct (decks_update_err e); [discriminate|].
    intros [= <-]. cbn. repeat split.
  - destruct (decks_update_err e); [discriminate|].
    intros [= <-]. cbn. repeat split.
Qed.

Lemma updateModel_frame (e : InitEnv) (d d' : Deck) :
  updateModel e d = Done d' ->
  name d' = name d /\ media d' = media d /\ topDeckID d' = topDeckID d
  /\ topModelID d' = topModelID d /\ notes (db d') = notes (db d)
  /\ cards (db d') = cards (db d) /\ decks (col (db d')) = decks (col (db d)).
Proof.
  unfold updateModel, bind.
  destruct (negb _).
  - destruct (map_get _ _) as [[| | | | |model]|]; try discriminate.
    destruct (models_update_err e); [discriminate|].
    intros [= <-]. cbn. repeat split.
  - destruct (models_update_err e); [discriminate|].
    intros [= <-]. cbn. repeat split.
Qed.

Lemma NewDeckWithTemplate_done (e : InitEnv) (name0 : string)
    (templateOpts : option TemplateOptions) (d : Deck) :
  NewDeckWithTemplate e name0 templateOpts = Done d ->
  name d = name0 /\ media d = [] /\ topDeckID d = init_clock e
  /\ topModelID d = init_clock e /\ notes (db d) = [] /\ cards (db d) = [].
Proof.
  unfold NewDeckWithTemplate, initializeDatabase, check, bind.
  destruct (open_err e); [discriminate|].
  destruct (template_err e); [discriminate|].
  destruct (updateDeckName e _) as [d1| |] eqn:E1; try discriminate.
  destruct (updateModel e d1) as [d2| |] eqn:E2; try discriminate.
  intros [= <-].
  apply updateDeckName_frame in E1 as (A1 & A2 & A3 & A4 & A5 & A6 & _).
  apply updateModel_frame in E2 as (B1 & B2 & B3 & B4 & B5 & B6 & _).
  rewrite B1, B2, B3, B4, B5, B6, A1, A2, A3, A4, A5, A6.
  cbn. repeat split.
Qed.

Lemma reachable_dedup_inv (d : Deck) : reachable d -> dedup_inv d.
Proof.
  induction 1 as [e name0 opts d H|e d front back opts _ IH|d filename data _ IH
                 |d _ IH|d _ IH].
  - apply NewDeckWithTemplate_done in H as (_ & _ & _ & _ & Hn & Hc).
    unfold dedup_inv. rewrite Hn, Hc. split; constructor.
  - now apply dedup_inv_AddCardWithOptions.
  - exact IH.
  - destruct IH as [Hn Hc]. split; [exact Hn|].
    cbn. now apply NoDup_map_filter.
  - destruct IH as [Hn Hc]. split; [constructor|exact Hc].
Qed.

(** ** The rows that a successful [AddCardWithOptions] writes *)

Lemma AddCardWithOptions_rows (e : ExecEnv) (d : Deck) (front back : string)
    (opts : option CardOptions) :
  note_exec_err e = None -> card_exec_err e = None ->
  exists note card,
    notes (db (fst (AddCardWithOptions e d front back opts)))
      = upsert n_id note (notes (db d))
    /\ cards (db (fst (AddCardWithOptions e d front back opts)))
      = upsert c_id card (cards (db d))
    /\ note =
       {| n_id := getNoteID d (getNoteGUID d (topDeckID d) front back) (clock e);
          n_guid := getNoteGUID d (topDeckID d) front back;
          n_mid := topModelID d;
          n_mod := getID d "notes" "mod" (clock e);
          n_usn := -1;
          n_tags := tagsStr opts;
          n_flds := front ++ separator ++ back;
          n_sfld := integerAffinity front;
          n_csum := checksum d (front ++ separator ++ back);
          n_flags := 0;
          n_data := "" |}
    /\ card =
       {| c_id := getCardID d (n_id note) (clock e);
          c_nid := n_id note;
          c_did := topDeckID d;
          c_ord := 0;
          c_mod := getID d "cards" "mod" (clock e);
          c_usn := -1; c_type := 0; c_queue := 0; c_due := 179; c_ivl := 0;
          c_factor := 0; c_reps := 0; c_lapses := 0; c_left := 0; c_odue := 0;
          c_odid := 0; c_flags := 0; c_data := "" |}.
Proof.
  intros Hn Hc. unfold AddCardWithOptions. rewrite Hn, Hc. cbn [fst].
  eexists; eexists. repeat split.
Qed.

Lemma getNoteID_after_upsert (d d1 : Deck) (note : Note) (ts ts1 : Z) :
  notes (db d1) = upsert n_id note (notes (db d)) ->
  n_id note = getNoteID d (n_guid note) ts ->
  getNoteID d1 (n_guid note) ts1 = n_id note.
Proof.
  intros Hnotes Hid. unfold getNoteID at 1. rewrite Hnotes.
  rewrite (lookup_after_upsert n_id (fun n => String.eqb (n_guid n) (n_guid note))).
  - reflexivity.
  - apply String.eqb_refl.
  - rewrite Hid. unfold getNoteID.
    destruct (greatest _); [reflexivity|exact I].
Qed.

Lemma getCardID_after_upsert (d d1 : Deck) (card : Card) (ts ts1 : Z) :
  cards (db d1) = upsert c_id card (cards (db d)) ->
  c_id card = getCardID d (c_nid card) ts ->
  getCardID d1 (c_nid card) ts1 = c_id card.
Proof.
  intros Hcards Hid. unfold getCardID at 1. rewrite Hcards.
  rewrite (lookup_after_upsert c_id (fun c => c_nid c =? c_nid card)).
  - reflexivity.
  - apply Z.eqb_refl.
  - rewrite Hid. unfold getCardID.
    destruct (greatest _); [reflexivity|exact I].
Qed.

(** With unique guids, the join of [cardsFor] selects by the id of the one
    note that carries the guid. *)
Lemma cardsFor_of_note (s : DB) (note : Note) :
  NoDup (map n_guid (notes s)) -> In note (notes s) ->
  cardsFor s (n_guid note) = cardsOfNote s (n_id note).
Proof.
  intros Hnd Hin. unfold cardsFor, cardsOfNote. apply filter_ext. intros c.
  apply eq_true_iff_eq. rewrite existsb_exists, Z.eqb_eq. split.
  - intros (n & Hn & Hb). apply andb_true_iff in Hb as [Hid Hg].
    apply Z.eqb_eq in Hid. apply String.eqb_eq in Hg.
    now rewrite <- (NoDup_map_In_eq n_guid _ _ _ Hnd Hn Hin Hg).
  - intros Hid. exists note. split; [assumption|].
    apply andb_true_iff. split; [now apply Z.eqb_eq|apply String.eqb_refl].
Qed.

(** C1: on a deck built by the package, two successful [AddCard] calls with
    the same front and back leave exactly one note row with the content's
    guid and exactly one card row joined to it; the second call replaces
    the rows of the first, so neither table grows. *)
Theorem add_card_twice_one_row (e1 e2 : ExecEnv) (d : Deck) (front back : string) :
  reachable d ->
  snd (AddCard e1 d front back) = None ->
  snd (AddCard e2 (fst (AddCard e1 d front back)) front back) = None ->
  let d1 := fst (AddCard e1 d front back) in
  let d2 := fst (AddCard e2 d1 front back) in
  let guid := getNoteGUID d (topDeckID d) front back in
  List.length (notesFor (db d2) guid) = 1%nat
  /\ List.length (cardsFor (db d2) guid) = 1%nat
  /\ List.length (notes (db d2)) = List.length (notes (db d1))
  /\ List.length (cards (db d2)) = List.length (cards (db d1)).
Proof.
  intros Hreach H1 H2 d1 d2 guid. unfold AddCard in H1, H2, d1, d2.
  assert (Hinv : dedup_inv d2).
  { apply reachable_dedup_inv. now do 2 apply reach_add_card. }
  destruct Hinv as [Hnd Hcd].
  apply AddCardWithOptions_ok in H1 as [N1 C1].
  apply AddCardWithOptions_ok in H2 as [N2 C2].
  destruct (AddCardWithOptions_rows e1 d front back None N1 C1)
    as (note1 & card1 & Hn1 & Hc1 & En1 & Ec1).
  destruct (AddCardWithOptions_rows e2 d1 front back None N2 C2)
    as (note2 & card2 & Hn2 & Hc2 & En2 & Ec2).
  fold d1 in Hn1, Hc1. fold d2 in Hn2, Hc2.
  assert (Htop : topDeckID d1 = topDeckID d)
    by apply (AddCardWithOptions_ids e1 d front back None).
  assert (Hg1 : n_guid note1 = guid) by (rewrite En1; reflexivity).
  assert (Hg2 : n_guid note2 = guid).
  { rewrite En2. cbn. rewrite Htop. reflexivity. }
  assert (Hid : n_id note2 = n_id note1).
  { rewrite En2. cbn [n_id]. rewrite Htop.
    change (getNoteGUID d1 (topDeckID d) front back) with guid. rewrite <- Hg1.
    apply (getNoteID_after_upsert d d1 note1 (clock e1)); [assumption|].
    rewrite En1. reflexivity. }
  assert (Hcid : c_id card2 = c_id card1).
  { rewrite Ec2. cbn [c_id]. rewrite Hid.
    replace (n_id note1) with (c_nid card1) by (rewrite Ec1; reflexivity).
    apply (getCardID_after_upsert d d1 card1 (clock e1)); [assumption|].
    rewrite Ec1. reflexivity. }
  assert (Hin2 : In note2 (notes (db d2))) by (rewrite Hn2; apply In_upsert_new).
  assert (Hic2 : In card2 (cards (db d2))) by (rewrite Hc2; apply In_upsert_new).
  repeat split.
  - unfold notesFor. rewrite <- Hg2.
    now rewrite (unique_selects_one n_guid String.eqb note2 _ String.eqb_eq Hnd Hin2).
  - rewrite <- Hg2, (cardsFor_of_note _ note2 Hnd Hin2).
    unfold cardsOfNote.
    replace (n_id note2) with (c_nid card2) by (rewrite Ec2; reflexivity).
    now rewrite (unique_selects_one c_nid Z.eqb card2 _ Z.eqb_eq Hcd Hic2).
  - rewrite Hn2, Hn1. now apply upsert_again_length.
  - rewrite Hc2, Hc1. now apply upsert_again_length.
Qed.

(** C10: the guid hashes the undelimited text deck id, front, back, so two
    (front, back) pairs with the same concatenation get the same guid in one
    deck; the second [AddCard] then resolves to the note id of the first and
    replaces that row: the notes table does not grow, and the row under
    that id now holds the fields of the second call. *)
Theorem guid_ignores_field_boundary (e1 e2 : ExecEnv) (d : Deck)
    (front1 back1 front2 back2 : string) :
  front1 ++ back1 = front2 ++ back2 ->
  snd (AddCard e1 d front1 back1) = None ->
  snd (AddCard e2 (fst (AddCard e1 d front1 back1)) front2 back2) = None ->
  let d1 := fst (AddCard e1 d front1 back1) in
  let d2 := fst (AddCard e2 d1 front2 back2) in
  let guid := getNoteGUID d (topDeckID d) front1 back1 in
  let noteID := getNoteID d guid (clock e1) in
  getNoteGUID d1 (topDeckID d1) front2 back2 = guid
  /\ getNoteID d1 (getNoteGUID d1 (topDeckID d1) front2 back2) (clock e2) = noteID
  /\ List.length (notes (db d2)) = List.length (notes (db d1))
  /\ (exists n, In n (notes (db d2)) /\ n_id n = noteID)
  /\ (forall n, In n (notes (db d2)) -> n_id n = noteID ->
        n_guid n = guid /\ n_flds n = front2 ++ separator ++ back2).
Proof.
  intros Hcat H1 H2 d1 d2 guid noteID. unfold AddCard in H1, H2, d1, d2.
  apply AddCardWithOptions_ok in H1 as [N1 C1].
  apply AddCardWithOptions_ok in H2 as [N2 C2].
  destruct (AddCardWithOptions_rows e1 d front1 back1 None N1 C1)
    as (note1 & card1 & Hn1 & _ & En1 & _).
  destruct (AddCardWithOptions_rows e2 d1 front2 back2 None N2 C2)
    as (note2 & card2 & Hn2 & _ & En2 & _).
  fold d1 in Hn1. fold d2 in Hn2.
  assert (Htop : topDeckID d1 = topDeckID d)
    by apply (AddCardWithOptions_ids e1 d front1 back1 None).
  assert (Hguid : getNoteGUID d1 (topDeckID d1) front2 back2 = guid).
  { rewrite Htop. unfold guid, getNoteGUID. now rewrite Hcat. }
  assert (Hg1 : n_guid note1 = guid) by (rewrite En1; reflexivity).
  assert (Hi1 : n_id note1 = noteID) by (rewrite En1; reflexivity).
  assert (Hres : getNoteID d1 guid (clock e2) = noteID).
  { rewrite <- Hg1, <- Hi1.
    apply (getNoteID_after_upsert d d1 note1 (clock e1)); [assumption|].
    rewrite Hg1, Hi1. reflexivity. }
  assert (Hi2 : n_id note2 = n_id note1).
  { rewrite En2. cbn [n_id]. now rewrite Hguid, Hres. }
  split; [exact Hguid|]. split; [now rewrite Hguid|].
  split; [rewrite Hn2, Hn1; now apply upsert_again_length|].
  split.
  - exists note2. split; [rewrite Hn2; apply In_upsert_new|congruence].
  - intros n Hin Hid. rewrite Hn2 in Hin. apply In_upsert_inv in Hin as [->|[_ Hne]].
    + rewrite En2. cbn [n_guid n_flds]. now split.
    + exfalso. apply Hne. congruence.
Qed.

(** ** The checksum is the leading 32 bits of the hash *)

Lemma hex_value_hex_digit (n : Z) : 0 <= n < 16 -> hex_value (hex_digit n) = Some n.
Proof.
  intros H. rewrite <- (Z2Nat.id n) by lia.
  assert (Hlt : (Z.to_nat n < 16)%nat) by lia.
  revert Hlt. generalize (Z.to_nat n). intros k Hlt.
  do 16 (destruct k as [|k]; [reflexivity|]). lia.
Qed.

Lemma parse_hex_byte (b acc : Z) (rest : string) :
  0 <= b < 256 ->
  parse_hex_acc (String (hex_digit (b / 16)) (String (hex_digit (b mod 16)) rest)) acc
  = parse_hex_acc rest (acc * 256 + b).
Proof.
  intros Hb. cbn [parse_hex_acc].
  rewrite hex_value_hex_digit by (split; [apply Z.div_pos; lia|apply Z.div_lt_upper_bound; lia]).
  rewrite hex_value_hex_digit by (apply Z.mod_pos_bound; lia).
  f_equal. pose proof (Z.div_mod b 16). lia.
Qed.

Lemma ParseInt16_leading_bytes (b0 b1 b2 b3 : Z) (rest : bytes) :
  0 <= b0 < 256 -> 0 <= b1 < 256 -> 0 <= b2 < 256 -> 0 <= b3 < 256 ->
  ParseInt16 (substring 0 8 (hex_of_bytes (b0 :: b1 :: b2 :: b3 :: rest)))
  = truncate32 (b0 :: b1 :: b2 :: b3 :: rest).
Proof.
  intros H0 H1 H2 H3. cbn [hex_of_bytes substring]. unfold ParseInt16.
  rewrite !parse_hex_byte by assumption.
  replace (substring 0 0 (hex_of_bytes rest)) with EmptyString
    by (destruct (hex_of_bytes rest); reflexivity).
  cbn [parse_hex_acc truncate32].
  replace (((0 * 256 + b0) * 256 + b1) * 256 + b2) with ((b0 * 256 + b1) * 256 + b2) by lia.
  destruct (Z.leb_spec (((b0 * 256 + b1) * 256 + b2) * 256 + b3) maxInt64) as [_|Hgt];
    [reflexivity|].
  unfold maxInt64 in Hgt. lia.
Qed.

Lemma digest_shape (s : SHA1.state) :
  exists b0 b1 b2 b3 rest,
    SHA1.digest s = b0 :: b1 :: b2 :: b3 :: rest
    /\ 0 <= b0 < 256 /\ 0 <= b1 < 256 /\ 0 <= b2 < 256 /\ 0 <= b3 < 256
    /\ List.length rest = 16%nat.
Proof.
  unfold SHA1.digest, SHA1.bytes_of_word. cbn [app].
  do 5 eexists. split; [reflexivity|].
  repeat split; try (apply Z.mod_pos_bound; lia).
Qed.

Lemma checksum_truncate32 (d : Deck) (str : string) :
  checksum d str = truncate32 (SHA1.Sum (bytes_of_string str))
  /\ 0 <= checksum d str < 2 ^ 32.
Proof.
  unfold checksum, SHA1.Sum.
  destruct (digest_shape
              (fold_left SHA1.block
                 (SHA1.chunks (List.length (SHA1.pad (bytes_of_string str)))
                    (SHA1.pad (bytes_of_string str))) SHA1.init))
    as (b0 & b1 & b2 & b3 & rest & -> & H0 & H1 & H2 & H3 & _).
  rewrite ParseInt16_leading_bytes by assumption.
  split; [reflexivity|]. cbn [truncate32]. lia.
Qed.

(** C7, as stated, fails: the column [sfld] is declared [integer], so for
    the front 007 the note row holds the integer 7 as sort field, not the
    text of the front. *)
Lemma numeric_front_sort_field :
  let r := AddCardWithOptions (okExec 1700000000005) sampleDeck "007" "x" None in
  snd r = None
  /\ exists note,
       notes (db (fst r)) = [note]
       /\ n_flds note = "007" ++ separator ++ "x"
       /\ n_sfld note = SqlInteger 7
       /\ n_sfld note <> SqlText "007".
Proof.
  intros r. split; [reflexivity|].
  eexists. split; [vm_compute; reflexivity|]. cbn [n_flds n_sfld].
  split; [reflexivity|]. split; [reflexivity|discriminate].
Qed.

(** C7, amended: a successful [AddCardWithOptions] leaves a note row with
    usn -1, flds = front, U+001F, back, as sfld what the integer-declared
    column keeps of the front (the text of the front itself unless that
    text reads as a number, and then the number), csum = the leading 32
    bits of the SHA-1 of the field text, flags 0 and empty data, and a card
    row of that note with ordinal 0, the deck's id, usn -1, type 0, queue 0,
    due 179 and every other scheduling field 0; each is the only row under
    its primary key. *)
Theorem add_card_rows_new_defaults (e : ExecEnv) (d : Deck) (front back : string)
    (opts : option CardOptions) :
  snd (AddCardWithOptions e d front back opts) = None ->
  let d' := fst (AddCardWithOptions e d front back opts) in
  exists note card,
    In note (notes (db d')) /\ In card (cards (db d'))
    /\ (forall n, In n (notes (db d')) -> n_id n = n_id note -> n = note)
    /\ (forall c, In c (cards (db d')) -> c_id c = c_id card -> c = card)
    /\ n_guid note = getNoteGUID d (topDeckID d) front back
    /\ n_mid note = topModelID d
    /\ n_usn note = -1
    /\ n_flds note = front ++ String (ascii_of_nat 31) "" ++ back
    /\ n_sfld note = integerAffinity front
    /\ (numericType front = None -> n_sfld note = SqlText front)
    /\ n_csum note
       = truncate32 (SHA1.Sum (bytes_of_string (front ++ String (ascii_of_nat 31) "" ++ back)))
    /\ 0 <= n_csum note < 2 ^ 32
    /\ n_flags note = 0 /\ n_data note = ""
    /\ c_nid card = n_id note /\ c_ord card = 0 /\ c_did card = topDeckID d
    /\ c_usn card = -1 /\ c_type card = 0 /\ c_queue card = 0 /\ c_due card = 179
    /\ c_ivl card = 0 /\ c_factor card = 0 /\ c_reps card = 0 /\ c_lapses card = 0
    /\ c_left card = 0 /\ c_odue card = 0 /\ c_odid card = 0 /\ c_flags card = 0
    /\ c_data card = "".
Proof.
  intros Hok d'. apply AddCardWithOptions_ok in Hok as [N C].
  destruct (AddCardWithOptions_rows e d front back opts N C)
    as (note & card & Hn & Hc & En & Ec).
  fold d' in Hn, Hc. exists note, card.
  split; [rewrite Hn; apply In_upsert_new|].
  split; [rewrite Hc; apply In_upsert_new|].
  split.
  { intros n Hin Hid. rewrite Hn in Hin.
    apply In_upsert_inv in Hin as [->|[_ Hne]]; [reflexivity|contradiction]. }
  split.
  { intros c Hin Hid. rewrite Hc in Hin.
    apply In_upsert_inv in Hin as [->|[_ Hne]]; [reflexivity|contradiction]. }
  pose proof (checksum_truncate32 d (front ++ separator ++ back)) as [Hsum Hrange].
  rewrite Ec, En. cbn -[Z.pow].
  do 5 (split; [reflexivity|]).
  split; [intros Htext; unfold integerAffinity; now rewrite Htext|].
  repeat split; try assumption; apply Hrange.
Qed.

(** ** A failing card statement *)

Lemma sampleDeck_new : NewDeck sampleInit "Test Deck" = Done sampleDeck.
Proof. vm_compute. reflexivity. Qed.

Lemma sampleDeck_reachable : reachable sampleDeck.
Proof. exact (reach_new sampleInit "Test Deck" None sampleDeck sampleDeck_new). Qed.

(** C8, as stated, fails: when the content was added before, the note
    statement replaces the existing note, the card statement fails, and the
    note still has the card of the earlier call. *)
Lemma card_failure_note_not_orphan :
  let d := fst (AddCard (okExec 1700000000005) sampleDeck "Front" "Back") in
  let e := cardFailExec 1700000000009 in
  let r := AddCardWithOptions e d "Front" "Back" None in
  reachable d
  /\ note_exec_err e = None
  /\ card_exec_err e = Some (StoreError "database or disk is full")
  /\ snd r = Some (Wrapped "failed to insert card" (StoreError "database or disk is full"))
  /\ List.length (notesFor (db (fst r)) (getNoteGUID d (topDeckID d) "Front" "Back")) = 1%nat
  /\ List.length (cardsFor (db (fst r)) (getNoteGUID d (topDeckID d) "Front" "Back")) = 1%nat.
Proof.
  intros d e r. split; [apply reach_add_card; exact sampleDeck_reachable|].
  split; [reflexivity|]. split; [reflexivity|]. split; [reflexivity|].
  split; vm_compute; reflexivity.
Qed.

(** C8, amended: when the note statement succeeds and the card statement
    fails, the call returns an error that wraps the store error, the
    upserted note row stays in the notes table, and the cards table is left
    as it was: the note has exactly the cards that already referenced its
    id before the call, so none if there were none. *)
Theorem card_failure_keeps_note (e : ExecEnv) (d : Deck) (front back : string)
    (opts : option CardOptions) (err : error) :
  note_exec_err e = None ->
  card_exec_err e = Some err ->
  let r := AddCardWithOptions e d front back opts in
  let guid := getNoteGUID d (topDeckID d) front back in
  let noteID := getNoteID d guid (clock e) in
  snd r = Some (Wrapped "failed to insert card" err)
  /\ (exists cause, snd r = Some cause /\ Unwrap cause = Some err)
  /\ (exists note,
        In note (notes (db (fst r))) /\ n_id note = noteID /\ n_guid note = guid
        /\ n_flds note = front ++ separator ++ back
        /\ notes (db (fst r)) = upsert n_id note (notes (db d)))
  /\ cards (db (fst r)) = cards (db d)
  /\ cardsOfNote (db (fst r)) noteID = cardsOfNote (db d) noteID
  /\ (cardsOfNote (db d) noteID = [] -> cardsOfNote (db (fst r)) noteID = []).
Proof.
  intros Hn Hc r guid noteID. unfold r, AddCardWithOptions. rewrite Hn, Hc.
  cbn [fst snd]. split; [reflexivity|].
  split; [eexists; split; reflexivity|].
  split.
  { eexists. split; [apply In_upsert_new|]. repeat split. }
  split; [reflexivity|]. split; [reflexivity|]. auto.
Qed.

(** ** Deck identifiers *)

(** C3, as stated, fails: two decks built at the same clock reading get the
    same deck id. *)
Lemma same_millisecond_same_deck_id :
  exists a b,
    NewDeck sampleInit "Deck A" = Done a
    /\ NewDeck sampleInit "Deck B" = Done b
    /\ name a <> name b
    /\ topDeckID a = topDeckID b.
Proof.
  eexists. eexists. split; [vm_compute; reflexivity|].
  split; [vm_compute; reflexivity|]. split; [discriminate|reflexivity].
Qed.

(** C3, amended: every deck probes its own new, empty store, so its deck id
    is the clock reading at its construction; two decks have different deck
    ids exactly when they were built at different clock readings. *)
Theorem deck_id_is_creation_time (e1 e2 : InitEnv) (name1 name2 : string)
    (opts1 opts2 : option TemplateOptions) (d1 d2 : Deck) :
  NewDeckWithTemplate e1 name1 opts1 = Done d1 ->
  NewDeckWithTemplate e2 name2 opts2 = Done d2 ->
  topDeckID d1 = init_clock e1
  /\ topDeckID d2 = init_clock e2
  /\ (topDeckID d1 <> topDeckID d2 <-> init_clock e1 <> init_clock e2).
Proof.
  intros H1 H2.
  apply NewDeckWithTemplate_done in H1 as (_ & _ & T1 & _).
  apply NewDeckWithTemplate_done in H2 as (_ & _ & T2 & _).
  rewrite T1, T2. repeat split; auto.
Qed.

(** ** Go maps as association lists *)

Section GoMapFacts.
Context {V : Type}.

Lemma map_get_delete_same (k : string) (m : gomap V) :
  map_get k (map_delete k m) = None.
Proof.
  induction m as [|[k' v] m IH]; simpl; [reflexivity|].
  destruct (String.eqb k' k) eqn:E; simpl; [assumption|now rewrite E].
Qed.

Lemma map_get_delete_other (k k' : string) (m : gomap V) :
  k <> k' -> map_get k' (map_delete k m) = map_get k' m.
Proof.
  intros Hne. induction m as [|[k0 v] m IH]; simpl; [reflexivity|].
  destruct (String.eqb k0 k) eqn:E; simpl.
  - apply String.eqb_eq in E. subst k0.
    apply String.eqb_neq in Hne. now rewrite Hne.
  - now rewrite IH.
Qed.

Lemma map_get_app (k : string) (m m' : gomap V) :
  map_get k (m ++ m')%list
  = match map_get k m with
    | Some v => Some v
    | None => map_get k m'
    end.
Proof.
  induction m as [|[k0 v] m IH]; simpl; [reflexivity|].
  destruct (String.eqb k0 k); [reflexivity|assumption].
Qed.

Lemma map_get_set_same (k : string) (v : V) (m : gomap V) :
  map_get k (map_set k v m) = Some v.
Proof.
  unfold map_set. rewrite map_get_app, map_get_delete_same. simpl.
  now rewrite String.eqb_refl.
Qed.

Lemma map_get_set_other (k k' : string) (v : V) (m : gomap V) :
  k <> k' -> map_get k' (map_set k v m) = map_get k' m.
Proof.
  intros Hne. unfold map_set. rewrite map_get_app, map_get_delete_other by assumption.
  simpl. apply String.eqb_neq in Hne. rewrite Hne. now destruct (map_get k' m).
Qed.
End GoMapFacts.

(** ** Renaming the seed deck *)

(** When [range] visits the seed key last, the seed deck is re-keyed to the
    deck id and carries the deck's name, as [json.Marshal] writes it, and
    the deck's id. *)
Lemma deck_renamed_when_range_ends_on_seed (e : InitEnv) (name0 : string)
    (templateOpts : option TemplateOptions) (d : Deck) :
  NewDeckWithTemplate e name0 templateOpts = Done d ->
  lastKeyOf (decks_range e) = "1435588830424" ->
  (exists deck,
     map_get (Itoa (topDeckID d)) (decks (col (db d))) = Some (JObj deck)
     /\ map_get "name" deck = Some (JStr (jsonString name0))
     /\ map_get "id" deck = Some (JNum (float64_of_int64 (topDeckID d))))
  /\ (Itoa (topDeckID d) <> "1435588830424" ->
      map_get "1435588830424" (decks (col (db d))) = None).
Proof.
  intros Hnew Hlast. pose proof (NewDeckWithTemplate_done _ _ _ _ Hnew) as (_ & _ & Htop & _).
  revert Hnew. unfold NewDeckWithTemplate, initializeDatabase, check, bind.
  destruct (open_err e); [discriminate|].
  destruct (template_err e); [discriminate|].
  destruct (updateDeckName e _) as [d1| |] eqn:E1; try discriminate.
  destruct (updateModel e d1) as [d2| |] eqn:E2; try discriminate.
  intros [= <-].
  apply updateModel_frame in E2 as (_ & _ & B3 & _ & _ & _ & Hdecks).
  rewrite B3 in Htop. rewrite Hdecks, B3. clear Hdecks B3.
  revert E1. unfold updateDeckName, bind. rewrite Hlast.
  cbn [String.eqb Ascii.eqb Bool.eqb negb andb].
  cbn [with_db db col decks createTemplate seedDecks map_get String.eqb Ascii.eqb
       Bool.eqb seedDeck name topDeckID].
  destruct (decks_update_err e); [discriminate|].
  intros [= <-]. cbn [topDeckID db with_db col decks name]. split.
  - eexists. split; [apply map_get_set_same|].
    split; [|apply map_get_set_same].
    rewrite map_get_set_other by discriminate. apply map_get_set_same.
  - intros Hne. rewrite map_get_set_other by assumption. reflexivity.
Qed.

(** C2 at the input where it fails: the seed blob has the keys "1" and
    "1435588830424"; when [range] visits "1" last, construction succeeds,
    but the blob has no entry under the decimal text of the new deck id and
    still holds the seed deck, named "Template", under its placeholder key. *)
Theorem deck_rename_skipped_when_range_ends_on_default :
  Permutation (decks_range sampleInitDefaultLast) (map_keys seedDecks)
  /\ exists d,
       NewDeck sampleInitDefaultLast "Test Deck" = Done d
       /\ topDeckID d = 1700000000000
       /\ map_get (Itoa (topDeckID d)) (decks (col (db d))) = None
       /\ map_get "1435588830424" (decks (col (db d)))
          = Some (seedDeck "Template" (-1) 545 1435588830424 1435588830).
Proof.
  split; [apply perm_swap|].
  eexists. split; [vm_compute; reflexivity|].
  split; [reflexivity|]. split; vm_compute; reflexivity.
Qed.

(** ** Tag text *)

Lemma ReplaceAll_space (tag : string) :
  ReplaceAll tag " "%char "_"%char = underscoreSpaces tag.
Proof.
  unfold underscoreSpaces. induction tag as [|c tag IH]; simpl; [reflexivity|].
  now rewrite IH.
Qed.

Lemma append_assoc (a b c : string) : (a ++ b) ++ c = a ++ b ++ c.
Proof. induction a as [|x a IH]; simpl; [reflexivity|now rewrite IH]. Qed.

Lemma concat_then_space (tag : string) (tags : list string) :
  String.concat " " (tag :: tags) ++ " "
  = fold_right (fun t acc => t ++ " " ++ acc) "" (tag :: tags).
Proof.
  revert tag. induction tags as [|t tags IH]; intros tag.
  - reflexivity.
  - change (String.concat " " (tag :: t :: tags))
      with (tag ++ " " ++ String.concat " " (t :: tags)).
    rewrite !append_assoc, IH. reflexivity.
Qed.

Lemma tagsStr_wrapTags (opts : option CardOptions) :
  tagsStr opts = wrapTags (map underscoreSpaces (optionTags opts)).
Proof.
  unfold tagsStr, optionTags. destruct opts as [[tags]|]; [|reflexivity].
  cbn [Tags]. destruct tags as [|t tags]; [reflexivity|].
  rewrite (map_ext _ _ ReplaceAll_space).
  cbn [map wrapTags]. now rewrite <- concat_then_space.
Qed.

Lemma underscoreSpaces_no_space (tag : string) :
  forallb (fun c => negb (Ascii.eqb c " "%char))
          (list_ascii_of_string (underscoreSpaces tag)) = true.
Proof.
  unfold underscoreSpaces. induction tag as [|c tag IH]; simpl; [reflexivity|].
  rewrite IH, andb_true_r. destruct (Ascii.eqb c " "%char) eqn:E; [reflexivity|].
  now rewrite E.
Qed.

(** C5, as stated, fails: a tab inside a tag is white space and is stored
    unchanged, not as an underscore. *)
Lemma tab_in_tag_not_replaced :
  tagsStr (Some {| Tags := ["multi" ++ tab ++ "word"] |})
  <> wrapTags (map underscoreWhitespace ["multi" ++ tab ++ "word"])
  /\ tagsStr (Some {| Tags := ["multi" ++ tab ++ "word"] |}) = " multi" ++ tab ++ "word ".
Proof.
  split; [|vm_compute; reflexivity].
  intros H. vm_compute in H. discriminate H.
Qed.

(** C5, amended: the tag text stored with the note is every tag with each
    space character (U+0020, and no other white space) replaced by an
    underscore, the tags joined by single spaces and wrapped in one leading
    and one trailing space, and it is empty when the tag list is empty or
    absent; the tags tag1, tag2, "multi word tag" give
    " tag1 tag2 multi_word_tag ". *)
Theorem tags_spaces_to_underscores (e : ExecEnv) (d : Deck) (front back : string)
    (opts : option CardOptions) :
  snd (AddCardWithOptions e d front back opts) = None ->
  (exists note,
     In note (notes (db (fst (AddCardWithOptions e d front back opts))))
     /\ n_guid note = getNoteGUID d (topDeckID d) front back
     /\ n_tags note = tagsStr opts)
  /\ tagsStr opts = wrapTags (map underscoreSpaces (optionTags opts))
  /\ tagsStr None = ""
  /\ tagsStr (Some {| Tags := [] |}) = ""
  /\ tagsStr (Some {| Tags := ["tag1"; "tag2"; "multi word tag"] |})
     = " tag1 tag2 multi_word_tag ".
Proof.
  intros Hok. apply AddCardWithOptions_ok in Hok as [N C].
  destruct (AddCardWithOptions_rows e d front back opts N C)
    as (note & card & Hn & _ & En & _).
  split.
  { exists note. split; [rewrite Hn; apply In_upsert_new|].
    rewrite En. split; reflexivity. }
  split; [apply tagsStr_wrapTags|]. repeat split.
Qed.

(** ** The guid *)

Lemma hex_of_bytes_length (l : bytes) :
  String.length (hex_of_bytes l) = (2 * List.length l)%nat.
Proof. induction l as [|b l IH]; simpl; [reflexivity|]. rewrite IH. lia. Qed.

Lemma Sum_length (msg : bytes) : List.length (SHA1.Sum msg) = 20%nat.
Proof. reflexivity. Qed.

(** C4: the guid is a function of the deck id, the front and the back alone:
    it does not depend on the deck value it is computed on (its store, its
    media, the clock), and it is the 40-character hex text of the SHA-1 of
    the decimal deck id followed by front and back. *)
Theorem note_guid_deterministic (d1 d2 : Deck) (deckID : Z) (front back : string) :
  getNoteGUID d1 deckID front back = getNoteGUID d2 deckID front back
  /\ getNoteGUID d1 deckID front back
     = hex_of_bytes (SHA1.Sum (bytes_of_string (Itoa deckID ++ front ++ back)))
  /\ String.length (getNoteGUID d1 deckID front back) = 40%nat.
Proof.
  split; [reflexivity|]. split; [reflexivity|].
  unfold getNoteGUID. now rewrite hex_of_bytes_length, Sum_length.
Qed.

Example guid_Front_Back (d : Deck) :
  getNoteGUID d 1 "Front" "Back" = "ddde60fa8fb36b90524091e4e2f2e8e419821f62".
Proof. vm_compute. reflexivity. Qed.

(** ** Media markup *)

(** C9: each wrapper appends the media entry to the registry and returns the
    markup for the file name: the sound marker, the image element, the
    video element with its source. *)
Theorem media_markup_fragments (d : Deck) (filename : string) (data : bytes) :
  let quote := String (ascii_of_nat 34) "" in
  let entry := {| Filename := filename; Data := data |} in
  media (fst (AddAudio d filename data)) = (media d ++ [entry])%list
  /\ snd (AddAudio d filename data) = "[sound:" ++ filename ++ "]"
  /\ media (fst (AddImage d filename data)) = (media d ++ [entry])%list
  /\ snd (AddImage d filename data) = "<img src=" ++ quote ++ filename ++ quote ++ ">"
  /\ media (fst (AddVideo d filename data)) = (media d ++ [entry])%list
  /\ snd (AddVideo d filename data)
     = "<video controls><source src=" ++ quote ++ filename ++ quote ++ "></video>".
Proof. repeat split. Qed.

(** ** The archive *)

Lemma Itoa_inj (a b : Z) : Itoa a = Itoa b -> a = b.
Proof.
  unfold Itoa. intros H.
  assert (Hnn : forall z, Z.to_int z <> Decimal.Pos Decimal.Nil
                          /\ Z.to_int z <> Decimal.Neg Decimal.Nil).
  { intros [|p|p]; cbn; split; try discriminate;
      intros [= Hp]; now apply (DecimalPos.Unsigned.to_uint_nonnil p). }
  pose proof (NilZero.isi (Z.to_int a) (proj1 (Hnn a)) (proj2 (Hnn a))) as Ha.
  pose proof (NilZero.isi (Z.to_int b) (proj1 (Hnn b)) (proj2 (Hnn b))) as Hb.
  rewrite H, Hb in Ha. injection Ha as Ha.
  rewrite <- (DecimalZ.of_to a), <- (DecimalZ.of_to b). now rewrite Ha.
Qed.

(** Text that is valid UTF-8 goes through [json.Marshal] unchanged. *)
Lemma jsonStringFrom_valid (s : string) (skip : nat) :
  validFrom skip s = true -> jsonStringFrom skip s = s.
Proof.
  revert skip. induction s as [|c s IH]; intros skip H; [reflexivity|].
  cbn [validFrom jsonStringFrom] in H |- *. destruct skip as [|k].
  - destruct (runeSize (String c s)) as [|k]; [discriminate|]. now rewrite IH.
  - now rewrite IH.
Qed.

Lemma jsonString_valid (s : string) : ValidString s = true -> jsonString s = s.
Proof. apply jsonStringFrom_valid. Qed.

Lemma validFrom_digits (d : Decimal.uint) :
  validFrom 0 (NilEmpty.string_of_uint d) = true.
Proof. induction d; cbn; auto. Qed.

Lemma jsonString_Itoa (z : Z) : jsonString (Itoa z) = Itoa z.
Proof.
  apply jsonString_valid. unfold ValidString, Itoa.
  assert (Hu : forall d, validFrom 0 (NilZero.string_of_uint d) = true).
  { intros d. destruct d; try reflexivity; apply (validFrom_digits (_ d)). }
  destruct (Z.to_int z) as [d|d]; cbn [NilZero.string_of_int]; [apply Hu|].
  change (validFrom 0 (NilZero.string_of_uint d) = true). apply Hu.
Qed.

Lemma indexedFrom_cons {A : Type} (k : nat) (x : A) (l : list A) :
  indexedFrom k (x :: l) = (Z.of_nat k, x) :: indexedFrom (S k) l.
Proof. reflexivity. Qed.

Lemma indexedFrom_nth {A : Type} (l : list A) (k i : nat) (x : A) :
  nth_error l i = Some x ->
  nth_error (indexedFrom k l) i = Some (Z.of_nat (k + i), x).
Proof.
  revert k i. induction l as [|y l IH]; intros k [|i] H; try discriminate H;
    rewrite indexedFrom_cons; cbn [nth_error] in H |- *.
  - injection H as ->. now rewrite Nat.add_0_r.
  - rewrite (IH (S k) i H). do 2 f_equal. lia.
Qed.

Lemma buildMediaMap_from (ms : list Media) (k : nat) (acc : gomap string) :
  (forall kv, In kv acc -> exists j, (j < k)%nat /\ fst kv = Itoa (Z.of_nat j)) ->
  buildMediaMap (Z.of_nat k) ms acc
  = (acc ++ map (fun im => (Itoa (fst im), Filename (snd im))) (indexedFrom k ms))%list.
Proof.
  revert k acc. induction ms as [|m ms IH]; intros k acc Hacc.
  - simpl. now rewrite app_nil_r.
  - cbn [buildMediaMap]. rewrite indexedFrom_cons. cbn [map fst snd].
    assert (Hdel : map_delete (Itoa (Z.of_nat k)) acc = acc).
    { unfold map_delete. apply forallb_filter_id. apply forallb_forall.
      intros kv Hin. destruct (Hacc kv Hin) as (j & Hlt & Hk).
      apply negb_true_iff, String.eqb_neq. rewrite Hk. intros Heq.
      apply Itoa_inj in Heq. lia. }
    replace (Z.of_nat k + 1) with (Z.of_nat (S k)) by lia.
    rewrite IH.
    + unfold map_set. rewrite Hdel, <- app_assoc. reflexivity.
    + unfold map_set. rewrite Hdel. intros kv Hin.
      apply in_app_or in Hin as [Hin|[<-|[]]].
      * destruct (Hacc kv Hin) as (j & Hlt & Hk). exists j. split; [lia|assumption].
      * exists k. split; [lia|reflexivity].
Qed.

Lemma marshal_media_map (ms : list Media) :
  marshalStringMap (buildMediaMap 0 ms []) = JObj (writtenManifest ms).
Proof.
  change 0 with (Z.of_nat 0). rewrite buildMediaMap_from by (intros kv []).
  unfold marshalStringMap, writtenManifest, indexed. cbn [app]. rewrite map_map.
  f_equal. apply map_ext. intros [i m]. cbn [fst snd]. now rewrite jsonString_Itoa.
Qed.

(** For file names that are valid UTF-8 the manifest written is the one
    that maps each index to the file name. *)
Lemma writtenManifest_valid (ms : list Media) :
  (forall m, In m ms -> ValidString (Filename m) = true) ->
  writtenManifest ms = manifestOf ms.
Proof.
  intros Hvalid. unfold writtenManifest, manifestOf. apply map_ext_in.
  intros [i m] Hin. cbn [fst snd]. rewrite jsonString_valid; [reflexivity|].
  apply Hvalid. unfold indexed, indexedFrom in Hin. now apply in_combine_r in Hin.
Qed.

Lemma writeMediaFiles_from (e : SaveEnv) (ms : list Media) (k : nat)
    (w w' : list ZipEntry) :
  writeMediaFiles e (Z.of_nat k) ms w = Done w' ->
  w' = (w ++ map (fun im => {| entryName := Itoa (fst im);
                               entryBody := Raw (Data (snd im)) |})
                 (indexedFrom k ms))%list.
Proof.
  revert k w. induction ms as [|m ms IH]; intros k w.
  - simpl. intros [= <-]. now rewrite app_nil_r.
  - cbn [writeMediaFiles]. unfold check, bind.
    destruct (zip_create_err e _); [discriminate|].
    destruct (zip_write_err e _); [discriminate|].
    replace (Z.of_nat k + 1) with (Z.of_nat (S k)) by lia.
    intros H. apply IH in H. rewrite H, <- app_assoc. reflexivity.
Qed.

Lemma writeMediaFiles_total (e : SaveEnv) (ms : list Media) (i : Z) (w : list ZipEntry) :
  (forall entry, zip_create_err e entry = None) ->
  (forall entry, zip_write_err e entry = None) ->
  exists w', writeMediaFiles e i ms w = Done w'.
Proof.
  intros Hc Hw. revert i w. induction ms as [|m ms IH]; intros i w.
  - now exists w.
  - cbn [writeMediaFiles]. rewrite Hc, Hw. cbn [check bind]. apply IH.
Qed.

(** Without faults [Save] returns an archive. *)
Lemma Save_total (e : SaveEnv) (d : Deck) :
  export_err e = None ->
  (forall entry, zip_create_err e entry = None) ->
  (forall entry, zip_write_err e entry = None) ->
  zip_close_err e = None ->
  exists entries, Save e d = Done entries.
Proof.
  intros He Hc Hw Hz. unfold Save, exportDatabase. rewrite He, !Hc, !Hw, Hz.
  cbn [check bind].
  destruct (writeMediaFiles_total e (media d) 0
              [{| entryName := "collection.anki2"; entryBody := Raw (sqlite_file e (db d)) |};
               {| entryName := "media";
                  entryBody := JSONText (marshalStringMap (buildMediaMap 0 (media d) [])) |}]
              Hc Hw) as (w & Hwm).
  cbn [app]. rewrite Hwm. now exists w.
Qed.

Lemma manifest_lookup (ms : list Media) (k i : nat) (m : Media) :
  nth_error ms i = Some m ->
  map_get (Itoa (Z.of_nat (k + i)))
          (map (fun im => (Itoa (fst im), JStr (jsonString (Filename (snd im)))))
               (indexedFrom k ms))
  = Some (JStr (jsonString (Filename m))).
Proof.
  revert k i. induction ms as [|x ms IH]; intros k [|i] H; try discriminate H;
    rewrite indexedFrom_cons; cbn [nth_error map fst snd map_get] in H |- *.
  - injection H as ->. rewrite Nat.add_0_r. now rewrite String.eqb_refl.
  - destruct (String.eqb_spec (Itoa (Z.of_nat k)) (Itoa (Z.of_nat (k + S i)))) as [Heq|_].
    + apply Itoa_inj in Heq. lia.
    + replace (k + S i)%nat with (S k + i)%nat by lia. now apply IH.
Qed.

(** C6, as stated, fails: [json.Marshal] writes U+FFFD for a byte that is
    not part of valid UTF-8, so for the file name a, FF, b.png the manifest
    maps the index 0 to another text than the file name. *)
Lemma invalid_utf8_media_name :
  let e := {| sqlite_file := fun _ => [83; 81; 76];
              export_err := None;
              zip_create_err := fun _ => None;
              zip_write_err := fun _ => None;
              zip_close_err := None |} in
  let filename := "a" ++ String "255"%char "b.png" in
  let d := AddMedia sampleDeck filename [137; 80; 78; 71] in
  exists entries manifest,
    Save e d = Done entries
    /\ nth_error entries 1
       = Some {| entryName := "media"; entryBody := JSONText (JObj manifest) |}
    /\ map_get "0" manifest = Some (JStr ("a" ++ replacementChar ++ "b.png"))
    /\ map_get "0" manifest <> Some (JStr filename)
    /\ JObj manifest <> JObj (manifestOf (media d)).
Proof.
  intros e filename d. eexists. eexists.
  split; [vm_compute; reflexivity|]. cbn [nth_error].
  split; [reflexivity|]. split; [reflexivity|].
  split; intros H; vm_compute in H; discriminate H.
Qed.

(** C6, amended: the archive of a successful [Save] consists of exactly
    the entry collection.anki2 with the database snapshot, the entry media
    with the JSON object that maps each decimal index i to the file name of
    the i-th media entry as [json.Marshal] writes it (every byte that is
    not part of valid UTF-8 replaced by U+FFFD, so the file name itself
    when it is valid UTF-8), and, in index order, one entry named by the
    decimal index i with the payload of the i-th media entry. *)
Theorem save_archive_entries (e : SaveEnv) (d : Deck) (entries : list ZipEntry) :
  Save e d = Done entries ->
  entries
  = {| entryName := "collection.anki2"; entryBody := Raw (sqlite_file e (db d)) |}
    :: {| entryName := "media"; entryBody := JSONText (JObj (writtenManifest (media d))) |}
    :: payloadEntries (media d)
  /\ List.length (writtenManifest (media d)) = List.length (media d)
  /\ List.length (payloadEntries (media d)) = List.length (media d)
  /\ (forall (i : nat) (m : Media),
        nth_error (media d) i = Some m ->
        map_get (Itoa (Z.of_nat i)) (writtenManifest (media d))
        = Some (JStr (jsonString (Filename m)))
        /\ (ValidString (Filename m) = true ->
            map_get (Itoa (Z.of_nat i)) (writtenManifest (media d))
            = Some (JStr (Filename m)))
        /\ nth_error (payloadEntries (media d)) i
           = Some {| entryName := Itoa (Z.of_nat i); entryBody := Raw (Data m) |})
  /\ ((forall m, In m (media d) -> ValidString (Filename m) = true) ->
      writtenManifest (media d) = manifestOf (media d)).
Proof.
  intros HS.
  assert (Hlen : forall A (l : list A), List.length (indexed l) = List.length l).
  { intros A l. unfold indexed, indexedFrom.
    rewrite length_combine, length_map, length_seq. lia. }
  split.
  - revert HS. unfold Save, exportDatabase, check, bind.
    destruct (export_err e); [discriminate|].
    destruct (zip_create_err e "collection.anki2"); [discriminate|].
    destruct (zip_write_err e "collection.anki2"); [discriminate|].
    destruct (zip_create_err e "media"); [discriminate|].
    destruct (zip_write_err e "media"); [discriminate|].
    destruct (writeMediaFiles e 0 (media d) _) as [w| |] eqn:Hw; try discriminate.
    destruct (zip_close_err e); [discriminate|].
    intros [= <-]. change 0 with (Z.of_nat 0) in Hw.
    apply writeMediaFiles_from in Hw. rewrite Hw, marshal_media_map. reflexivity.
  - split; [unfold writtenManifest; now rewrite length_map, Hlen|].
    split; [unfold payloadEntries; now rewrite length_map, Hlen|].
    split; [|apply writtenManifest_valid].
    intros i m Hnth.
    pose proof (manifest_lookup (media d) 0 i m Hnth) as Hlook.
    split; [exact Hlook|]. split.
    + intros Hvalid. rewrite (jsonString_valid _ Hvalid) in Hlook. exact Hlook.
    + unfold payloadEntries, indexed.
      rewrite nth_error_map, (indexedFrom_nth _ 0 i m Hnth). reflexivity.
Qed.

(** ** The properties at sample inputs *)

Lemma add_card_twice_one_row_witness :
  let d1 := fst (AddCard (okExec 1700000000005) sampleDeck "Same Front" "Same Back") in
  let d2 := fst (AddCard (okExec 1700000000009) d1 "Same Front" "Same Back") in
  let guid := getNoteGUID sampleDeck (topDeckID sampleDeck) "Same Front" "Same Back" in
  (reachable sampleDeck
   /\ snd (AddCard (okExec 1700000000005) sampleDeck "Same Front" "Same Back") = None
   /\ snd (AddCard (okExec 1700000000009) d1 "Same Front" "Same Back") = None)
  /\ (List.length (notesFor (db d2) guid) = 1%nat
      /\ List.length (cardsFor (db d2) guid) = 1%nat
      /\ List.length (notes (db d2)) = List.length (notes (db d1))
      /\ List.length (cards (db d2)) = List.length (cards (db d1))).
Proof.
  intros d1 d2 guid.
  assert (Hreach : reachable sampleDeck).
  { apply (reach_new sampleInit "Test Deck" None). vm_compute. reflexivity. }
  assert (H1 : snd (AddCard (okExec 1700000000005) sampleDeck "Same Front" "Same Back") = None)
    by reflexivity.
  assert (H2 : snd (AddCard (okExec 1700000000009) d1 "Same Front" "Same Back") = None)
    by reflexivity.
  split; [repeat split; assumption|].
  exact (add_card_twice_one_row (okExec 1700000000005) (okExec 1700000000009) sampleDeck
           "Same Front" "Same Back" Hreach H1 H2).
Defined.

Lemma guid_ignores_field_boundary_witness :
  let d1 := fst (AddCard (okExec 1700000000005) sampleDeck "ab" "c") in
  let d2 := fst (AddCard (okExec 1700000000009) d1 "a" "bc") in
  let guid := getNoteGUID sampleDeck (topDeckID sampleDeck) "ab" "c" in
  let noteID := getNoteID sampleDeck guid 1700000000005 in
  ("ab" ++ "c" = "a" ++ "bc"
   /\ snd (AddCard (okExec 1700000000005) sampleDeck "ab" "c") = None
   /\ snd (AddCard (okExec 1700000000009) d1 "a" "bc") = None)
  /\ (getNoteGUID d1 (topDeckID d1) "a" "bc" = guid
      /\ getNoteID d1 (getNoteGUID d1 (topDeckID d1) "a" "bc") 1700000000009 = noteID
      /\ List.length (notes (db d2)) = List.length (notes (db d1))
      /\ (exists n, In n (notes (db d2)) /\ n_id n = noteID)
      /\ (forall n, In n (notes (db d2)) -> n_id n = noteID ->
            n_guid n = guid /\ n_flds n = "a" ++ separator ++ "bc")).
Proof.
  intros d1 d2 guid noteID.
  assert (H0 : "ab" ++ "c" = "a" ++ "bc") by reflexivity.
  assert (H1 : snd (AddCard (okExec 1700000000005) sampleDeck "ab" "c") = None)
    by reflexivity.
  assert (H2 : snd (AddCard (okExec 1700000000009) d1 "a" "bc") = None) by reflexivity.
  split; [repeat split; assumption|].
  exact (guid_ignores_field_boundary (okExec 1700000000005) (okExec 1700000000009)
           sampleDeck "ab" "c" "a" "bc" H0 H1 H2).
Defined.

Lemma add_card_rows_new_defaults_witness :
  snd (AddCardWithOptions (okExec 1700000000005) sampleDeck "Front" "Back" None) = None
  /\ exists note card,
       In note (notes (db (fst (AddCardWithOptions (okExec 1700000000005) sampleDeck
                                  "Front" "Back" None))))
       /\ In card (cards (db (fst (AddCardWithOptions (okExec 1700000000005) sampleDeck
                                     "Front" "Back" None))))
       /\ n_flds note = "Front" ++ String (ascii_of_nat 31) "" ++ "Back"
       /\ n_sfld note = SqlText "Front"
       /\ n_csum note = 3900956557
       /\ c_nid card = n_id note
       /\ c_due card = 179.
Proof.
  assert (H : snd (AddCardWithOptions (okExec 1700000000005) sampleDeck "Front" "Back" None)
              = None) by reflexivity.
  split; [exact H|].
  destruct (add_card_rows_new_defaults (okExec 1700000000005) sampleDeck "Front" "Back" None H)
    as (note & card & Hn & Hc & _ & _ & _ & _ & _ & Hf & Hsf & _ & Hs & _ & _ & _ & Hnid
        & _ & _ & _ & _ & _ & Hdue & _).
  exists note, card. split; [exact Hn|]. split; [exact Hc|]. split; [exact Hf|].
  split; [rewrite Hsf; vm_compute; reflexivity|].
  split; [rewrite Hs; vm_compute; reflexivity|]. split; [exact Hnid|exact Hdue].
Defined.

Lemma card_failure_keeps_note_witness :
  let e := cardFailExec 1700000000005 in
  let r := AddCardWithOptions e sampleDeck "Front" "Back" None in
  let guid := getNoteGUID sampleDeck (topDeckID sampleDeck) "Front" "Back" in
  let noteID := getNoteID sampleDeck guid (clock e) in
  (note_exec_err e = None
   /\ card_exec_err e = Some (StoreError "database or disk is full"))
  /\ (snd r = Some (Wrapped "failed to insert card" (StoreError "database or disk is full"))
      /\ (exists cause, snd r = Some cause
                        /\ Unwrap cause = Some (StoreError "database or disk is full"))
      /\ (exists note,
            In note (notes (db (fst r))) /\ n_id note = noteID /\ n_guid note = guid
            /\ n_flds note = "Front" ++ separator ++ "Back"
            /\ notes (db (fst r)) = upsert n_id note (notes (db sampleDeck)))
      /\ cards (db (fst r)) = cards (db sampleDeck)
      /\ cardsOfNote (db (fst r)) noteID = cardsOfNote (db sampleDeck) noteID
      /\ (cardsOfNote (db sampleDeck) noteID = [] -> cardsOfNote (db (fst r)) noteID = [])).
Proof.
  intros e r guid noteID.
  assert (H1 : note_exec_err e = None) by reflexivity.
  assert (H2 : card_exec_err e = Some (StoreError "database or disk is full"))
    by reflexivity.
  split; [split; assumption|].
  exact (card_failure_keeps_note e sampleDeck "Front" "Back" None
           (StoreError "database or disk is full") H1 H2).
Defined.

Lemma deck_id_is_creation_time_witness :
  let a := valueOr blankDeck (NewDeck sampleInit "Deck A") in
  let b := valueOr blankDeck (NewDeck sampleInitDefaultLast "Deck B") in
  (NewDeckWithTemplate sampleInit "Deck A" None = Done a
   /\ NewDeckWithTemplate sampleInitDefaultLast "Deck B" None = Done b)
  /\ (topDeckID a = init_clock sampleInit
      /\ topDeckID b = init_clock sampleInitDefaultLast
      /\ (topDeckID a <> topDeckID b
          <-> init_clock sampleInit <> init_clock sampleInitDefaultLast)).
Proof.
  intros a b.
  assert (H1 : NewDeckWithTemplate sampleInit "Deck A" None = Done a)
    by (vm_compute; reflexivity).
  assert (H2 : NewDeckWithTemplate sampleInitDefaultLast "Deck B" None = Done b)
    by (vm_compute; reflexivity).
  split; [split; assumption|].
  exact (deck_id_is_creation_time sampleInit sampleInitDefaultLast "Deck A" "Deck B"
           None None a b H1 H2).
Defined.

Lemma tags_spaces_to_underscores_witness :
  let opts := Some {| Tags := ["tag1"; "tag2"; "multi word tag"] |} in
  let r := AddCardWithOptions (okExec 1700000000005) sampleDeck "Front" "Back" opts in
  snd r = None
  /\ (exists note,
        In note (notes (db (fst r)))
        /\ n_guid note = getNoteGUID sampleDeck (topDeckID sampleDeck) "Front" "Back"
        /\ n_tags note = " tag1 tag2 multi_word_tag ").
Proof.
  intros opts r.
  assert (H : snd r = None) by reflexivity.
  split; [exact H|].
  destruct (tags_spaces_to_underscores (okExec 1700000000005) sampleDeck "Front" "Back"
              opts H) as ((note & Hin & Hg & Ht) & _ & _ & _ & Hex).
  exists note. split; [exact Hin|]. split; [exact Hg|].
  rewrite Ht. exact Hex.
Defined.

Lemma save_archive_entries_witness :
  let e := {| sqlite_file := fun _ => [83; 81; 76; 105; 116; 101];
              export_err := None;
              zip_create_err := fun _ => None;
              zip_write_err := fun _ => None;
              zip_close_err := None |} in
  let d := AddMedia (fst (AddCard (okExec 1700000000005) sampleDeck "Question" "Answer"))
                    "test.txt" (bytes_of_string "test content") in
  let entries :=
    [ {| entryName := "collection.anki2"; entryBody := Raw [83; 81; 76; 105; 116; 101] |};
      {| entryName := "media"; entryBody := JSONText (JObj [("0", JStr "test.txt")]) |};
      {| entryName := "0"; entryBody := Raw (bytes_of_string "test content") |} ] in
  Save e d = Done entries
  /\ entries
     = {| entryName := "collection.anki2"; entryBody := Raw (sqlite_file e (db d)) |}
       :: {| entryName := "media";
             entryBody := JSONText (JObj (writtenManifest (media d))) |}
       :: payloadEntries (media d)
  /\ writtenManifest (media d) = manifestOf (media d).
Proof.
  intros e d entries.
  assert (H : Save e d = Done entries) by (vm_compute; reflexivity).
  split; [exact H|].
  destruct (save_archive_entries e d entries H) as (Hentries & _ & _ & _ & Hvalid).
  split; [exact Hentries|]. apply Hvalid.
  intros m [<-|[]]. reflexivity.
Defined.

(** * Further properties of the store *)

(** ** The identifier probe *)

Lemma wrap64_small (z : Z) : - 2 ^ 63 <= z < 2 ^ 63 -> wrap64 z = z.
Proof. intros H. unfold wrap64. rewrite Z.mod_small; lia. Qed.

Lemma getID_above (d : Deck) (table colname : string) (ts : Z) (vs : list Z) :
  column (db d) table colname = Some vs ->
  - 2 ^ 63 <= ts ->
  (forall v, In v vs -> v < maxInt64) ->
  ts <= getID d table colname ts
  /\ forall v, In v vs -> v < getID d table colname ts.
Proof.
  intros Hcol Hts Hmax. unfold getID. rewrite Hcol.
  destruct (greatest (filter (fun v => ts <=? v) vs)) as [m|] eqn:E.
  - apply greatest_Some in E as [Hin Hub].
    apply filter_In in Hin as [Hin Hle]. apply Z.leb_le in Hle.
    pose proof (Hmax m Hin) as Hm. unfold maxInt64 in Hm.
    rewrite wrap64_small by lia. split; [lia|].
    intros v Hv. destruct (Z.leb_spec ts v) as [Hge|Hlt]; [|lia].
    assert (v <= m); [|lia]. apply Hub. apply filter_In. split; [assumption|].
    now apply Z.leb_le.
  - apply greatest_None in E. split; [lia|].
    intros v Hv. destruct (Z.leb_spec ts v) as [Hge|Hlt]; [|lia].
    assert (Hin : In v (filter (fun v => ts <=? v) vs)).
    { apply filter_In. split; [assumption|now apply Z.leb_le]. }
    rewrite E in Hin. contradiction.
Qed.

(** X1: while the probed column holds no value at the int64 maximum, the
    identifier returned by [getID] is at least the timestamp and strictly
    greater than every value already in the column, so it is new. *)
Theorem getID_fresh_and_increasing (d : Deck) (table colname : string) (ts : Z)
    (vs : list Z) :
  column (db d) table colname = Some vs ->
  - 2 ^ 63 <= ts ->
  (forall v, In v vs -> v < maxInt64) ->
  ts <= getID d table colname ts
  /\ (forall v, In v vs -> v < getID d table colname ts)
  /\ ~ In (getID d table colname ts) vs.
Proof.
  intros Hcol Hts Hmax.
  destruct (getID_above d table colname ts vs Hcol Hts Hmax) as [Hge Hgt].
  split; [exact Hge|]. split; [exact Hgt|].
  intros Hin. specialize (Hgt _ Hin). lia.
Qed.

Lemma getID_fresh_and_increasing_witness :
  let d := fst (AddCard (okExec 1700000000005) sampleDeck "Front" "Back") in
  column (db d) "notes" "id" = Some [1700000000005]
  /\ 1700000000000 <= getID d "notes" "id" 1700000000000
  /\ ~ In (getID d "notes" "id" 1700000000000) [1700000000005].
Proof.
  intros d.
  assert (Hcol : column (db d) "notes" "id" = Some [1700000000005])
    by (vm_compute; reflexivity).
  assert (Hts : - 2 ^ 63 <= 1700000000000) by (vm_compute; discriminate).
  assert (Hmax : forall v, In v [1700000000005] -> v < maxInt64).
  { intros v [<-|[]]. reflexivity. }
  destruct (getID_fresh_and_increasing d "notes" "id" 1700000000000
              [1700000000005] Hcol Hts Hmax) as (Hge & _ & Hnew).
  split; [exact Hcol|]. split; [exact Hge|exact Hnew].
Defined.

(** X2: once the probed column holds the int64 maximum, the increment
    overflows and [getID] returns the most negative int64, for every
    timestamp. *)
Theorem getID_wraps_at_int64_max (d : Deck) (table colname : string) (ts : Z)
    (vs : list Z) :
  column (db d) table colname = Some vs ->
  In maxInt64 vs ->
  (forall v, In v vs -> v <= maxInt64) ->
  ts <= maxInt64 ->
  getID d table colname ts = - 2 ^ 63.
Proof.
  intros Hcol Hin Hmax Hts. unfold getID. rewrite Hcol.
  rewrite (greatest_intro _ maxInt64).
  - reflexivity.
  - apply filter_In. split; [assumption|now apply Z.leb_le].
  - intros x Hx. apply filter_In in Hx as [Hx _]. now apply Hmax.
Qed.

Lemma getID_wraps_at_int64_max_witness :
  let d := fst (AddCard (okExec maxInt64) sampleDeck "Front" "Back") in
  column (db d) "notes" "id" = Some [maxInt64]
  /\ getID d "notes" "id" 1700000000000 = - 2 ^ 63.
Proof.
  intros d.
  assert (Hcol : column (db d) "notes" "id" = Some [maxInt64])
    by (vm_compute; reflexivity).
  assert (Hin : In maxInt64 [maxInt64]) by (left; reflexivity).
  assert (Hmax : forall v, In v [maxInt64] -> v <= maxInt64).
  { intros v [<-|[]]. vm_compute. discriminate. }
  assert (Hts : 1700000000000 <= maxInt64) by (vm_compute; discriminate).
  split; [exact Hcol|].
  exact (getID_wraps_at_int64_max d "notes" "id" 1700000000000 [maxInt64]
           Hcol Hin Hmax Hts).
Defined.

(** ** Primary keys and the rows of other content *)

Lemma pk_inv_AddCardWithOptions (e : ExecEnv) (d : Deck) (front back : string)
    (opts : option CardOptions) :
  pk_inv d -> pk_inv (fst (AddCardWithOptions e d front back opts)).
Proof.
  intros [Hn Hc]. unfold AddCardWithOptions.
  destruct (note_exec_err e); [now split|].
  destruct (card_exec_err e); cbn [fst]; split; cbn;
    try assumption; apply upsert_NoDup; auto.
Qed.

Lemma reachable_pk_inv (d : Deck) : reachable d -> pk_inv d.
Proof.
  induction 1 as [e name0 opts d H|e d front back opts _ IH|d filename data _ IH
                 |d _ IH|d _ IH].
  - apply NewDeckWithTemplate_done in H as (_ & _ & _ & _ & Hn & Hc).
    unfold pk_inv. rewrite Hn, Hc. split; constructor.
  - now apply pk_inv_AddCardWithOptions.
  - exact IH.
  - destruct IH as [Hn Hc]. split; [exact Hn|].
    cbn. now apply NoDup_map_filter.
  - destruct IH as [Hn Hc]. split; [constructor|exact Hc].
Qed.

(** The id that a guid resolves to is never the id of a note with another
    guid. *)
Lemma getNoteID_other_row (d : Deck) (guid : string) (ts : Z) (n : Note) :
  NoDup (map n_id (notes (db d))) ->
  - 2 ^ 63 <= ts ->
  (forall x, In x (notes (db d)) -> n_id x < maxInt64) ->
  In n (notes (db d)) -> n_guid n <> guid ->
  n_id n <> getNoteID d guid ts.
Proof.
  intros Hpk Hts Hmax Hin Hg. unfold getNoteID.
  destruct (greatest _) as [m|] eqn:E.
  - apply greatest_Some in E as [Hm _].
    apply in_map_iff in Hm as (r & <- & Hr). apply filter_In in Hr as [Hr Hrg].
    apply String.eqb_eq in Hrg. intros Heq. apply Hg. rewrite <- Hrg.
    f_equal. exact (NoDup_map_In_eq n_id _ _ _ Hpk Hin Hr Heq).
  - destruct (getID_above d "notes" "id" ts (map n_id (notes (db d))) eq_refl Hts)
      as [_ Hgt].
    + intros v Hv. apply in_map_iff in Hv as (x & <- & Hx). now apply Hmax.
    + specialize (Hgt (n_id n) (in_map n_id _ _ Hin)). lia.
Qed.

Lemma getCardID_other_row (d : Deck) (noteID ts : Z) (c : Card) :
  NoDup (map c_id (cards (db d))) ->
  - 2 ^ 63 <= ts ->
  (forall x, In x (cards (db d)) -> c_id x < maxInt64) ->
  In c (cards (db d)) -> c_nid c <> noteID ->
  c_id c <> getCardID d noteID ts.
Proof.
  intros Hpk Hts Hmax Hin Hg. unfold getCardID.
  destruct (greatest _) as [m|] eqn:E.
  - apply greatest_Some in E as [Hm _].
    apply in_map_iff in Hm as (r & <- & Hr). apply filter_In in Hr as [Hr Hrg].
    apply Z.eqb_eq in Hrg. intros Heq. apply Hg. rewrite <- Hrg.
    f_equal. exact (NoDup_map_In_eq c_id _ _ _ Hpk Hin Hr Heq).
  - destruct (getID_above d "cards" "id" ts (map c_id (cards (db d))) eq_refl Hts)
      as [_ Hgt].
    + intros v Hv. apply in_map_iff in Hv as (x & <- & Hx). now apply Hmax.
    + specialize (Hgt (c_id c) (in_map c_id _ _ Hin)). lia.
Qed.

Lemma In_upsert_other {R : Type} (key : R -> Z) (r x : R) (l : list R) :
  In x l -> key x <> key r -> In x (upsert key r l).
Proof.
  intros Hin Hne. unfold upsert. apply in_or_app. left.
  apply filter_In. split; [assumption|].
  apply negb_true_iff. now apply Z.eqb_neq.
Qed.

Lemma upsert_fresh_length {R : Type} (key : R -> Z) (r : R) (l : list R) :
  (forall x, In x l -> key x <> key r) ->
  List.length (upsert key r l) = S (List.length l).
Proof.
  intros Hfresh. unfold upsert. rewrite length_app. cbn [List.length].
  rewrite forallb_filter_id; [lia|].
  apply forallb_forall. intros x Hx. apply negb_true_iff, Z.eqb_neq. now apply Hfresh.
Qed.

(** X3: on a deck built by the package whose ids are below the int64
    maximum, [AddCardWithOptions] (successful or not) keeps every note whose
    guid is not the one of the added content and every card of another
    note; and when it succeeds for content that no note carries yet, the
    notes table grows by exactly one row. *)
Theorem add_card_keeps_other_content (e : ExecEnv) (d : Deck) (front back : string)
    (opts : option CardOptions) :
  reachable d ->
  - 2 ^ 63 <= clock e ->
  (forall n, In n (notes (db d)) -> n_id n < maxInt64) ->
  (forall c, In c (cards (db d)) -> c_id c < maxInt64) ->
  let r := AddCardWithOptions e d front back opts in
  let guid := getNoteGUID d (topDeckID d) front back in
  (forall n, In n (notes (db d)) -> n_guid n <> guid -> In n (notes (db (fst r))))
  /\ (forall c, In c (cards (db d)) -> c_nid c <> getNoteID d guid (clock e) ->
        In c (cards (db (fst r))))
  /\ (snd r = None -> notesFor (db d) guid = [] ->
        List.length (notes (db (fst r))) = S (List.length (notes (db d)))).
Proof.
  intros Hreach Hts Hnmax Hcmax r guid.
  destruct (reachable_pk_inv d Hreach) as [Hpkn Hpkc].
  unfold r, AddCardWithOptions. fold guid.
  destruct (note_exec_err e) as [err|]; [cbn; repeat split; auto; discriminate|].
  assert (Hnotes : forall n, In n (notes (db d)) -> n_guid n <> guid ->
            n_id n <> getNoteID d guid (clock e))
    by (intros n Hin Hg; now apply getNoteID_other_row).
  assert (Hcards : forall d1, cards (db d1) = cards (db d) ->
            forall c, In c (cards (db d)) -> c_nid c <> getNoteID d guid (clock e) ->
            c_id c <> getCardID d1 (getNoteID d guid (clock e)) (clock e)).
  { intros d1 Hd1 c Hin Hn. apply getCardID_other_row; rewrite ?Hd1; auto. }
  assert (Hgrow : notesFor (db d) guid = [] ->
            forall nt, n_id nt = getNoteID d guid (clock e) ->
            List.length (upsert n_id nt (notes (db d))) = S (List.length (notes (db d)))).
  { intros Hnone nt Hid. apply upsert_fresh_length. intros x Hx. rewrite Hid.
    apply Hnotes; [assumption|]. intros Hg.
    assert (Hin : In x (notesFor (db d) guid)).
    { apply filter_In. split; [assumption|now apply String.eqb_eq]. }
    rewrite Hnone in Hin. contradiction. }
  destruct (card_exec_err e) as [err|]; cbn [fst snd db notes cards with_db with_notes
                                              with_cards].
  - split; [|split; [auto|discriminate]].
    intros n Hin Hg. apply In_upsert_other; [assumption|]. cbn [n_id]. now apply Hnotes.
  - split; [|split].
    + intros n Hin Hg. apply In_upsert_other; [assumption|]. cbn [n_id]. now apply Hnotes.
    + intros c Hin Hn. apply In_upsert_other; [assumption|]. cbn [c_id].
      now apply Hcards.
    + intros _ Hnone. now apply Hgrow.
Qed.

Lemma add_card_keeps_other_content_witness :
  let d := fst (AddCard (okExec 1700000000005) sampleDeck "Front" "Back") in
  let e := okExec 1700000000005 in
  let r := AddCardWithOptions e d "Question" "Answer" None in
  (reachable d /\ - 2 ^ 63 <= clock e
   /\ (forall n, In n (notes (db d)) -> n_id n < maxInt64)
   /\ (forall c, In c (cards (db d)) -> c_id c < maxInt64))
  /\ List.length (notes (db (fst r))) = 2%nat
  /\ (forall n, In n (notes (db d)) -> In n (notes (db (fst r)))).
Proof.
  intros d e r.
  assert (Hreach : reachable d).
  { apply reach_add_card. apply (reach_new sampleInit "Test Deck" None).
    vm_compute. reflexivity. }
  assert (Hts : - 2 ^ 63 <= clock e) by (vm_compute; discriminate).
  assert (Hn : forall n, In n (notes (db d)) -> n_id n < maxInt64).
  { intros n [<-|[]]. vm_compute. reflexivity. }
  assert (Hc : forall c, In c (cards (db d)) -> c_id c < maxInt64).
  { intros c [<-|[]]. vm_compute. reflexivity. }
  split; [repeat split; assumption|].
  destruct (add_card_keeps_other_content e d "Question" "Answer" None Hreach Hts Hn Hc)
    as (Hkeep & _ & Hgrow).
  split.
  - assert (Hnone : notesFor (db d) (getNoteGUID d (topDeckID d) "Question" "Answer") = [])
      by (vm_compute; reflexivity).
    exact (Hgrow eq_refl Hnone).
  - intros n Hin. apply Hkeep; [exact Hin|].
    destruct Hin as [<-|[]]. vm_compute. discriminate.
Defined.

(** ** Stable identifiers *)

(** X4: after a successful [AddCardWithOptions] the deck resolves the
    content's guid to the id under which the note was stored, and that note
    to the id of the card written with it, whatever the timestamp of the
    lookup: a later add of the same content reuses both ids. *)
Theorem add_card_then_lookup (e : ExecEnv) (d : Deck) (front back : string)
    (opts : option CardOptions) (ts : Z) :
  snd (AddCardWithOptions e d front back opts) = None ->
  let d' := fst (AddCardWithOptions e d front back opts) in
  let guid := getNoteGUID d (topDeckID d) front back in
  let noteID := getNoteID d guid (clock e) in
  getNoteGUID d' (topDeckID d') front back = guid
  /\ getNoteID d' guid ts = noteID
  /\ getCardID d' noteID ts = getCardID d noteID (clock e)
  /\ (exists n, In n (notes (db d')) /\ n_id n = noteID /\ n_guid n = guid)
  /\ (exists c, In c (cards (db d')) /\ c_nid c = noteID
                /\ c_id c = getCardID d noteID (clock e)).
Proof.
  intros Hok d' guid noteID. apply AddCardWithOptions_ok in Hok as [N C].
  destruct (AddCardWithOptions_rows e d front back opts N C)
    as (note & card & Hn & Hc & En & Ec).
  fold d' in Hn, Hc.
  assert (Htop : topDeckID d' = topDeckID d)
    by apply (AddCardWithOptions_ids e d front back opts).
  assert (Hg : n_guid note = guid) by (rewrite En; reflexivity).
  assert (Hi : n_id note = noteID) by (rewrite En; reflexivity).
  assert (Hcn : c_nid card = noteID) by (rewrite Ec; exact Hi).
  assert (Hci : c_id card = getCardID d noteID (clock e)).
  { rewrite Ec. cbn [c_id]. now rewrite Hi. }
  split; [rewrite Htop; reflexivity|].
  split.
  { rewrite <- Hi, <- Hg. apply (getNoteID_after_upsert d d' note (clock e)); [exact Hn|].
    rewrite Hg. exact Hi. }
  split.
  { rewrite <- Hci, <- Hcn.
    apply (getCardID_after_upsert d d' card (clock e)); [exact Hc|].
    rewrite Hcn. exact Hci. }
  split.
  - exists note. split; [rewrite Hn; apply In_upsert_new|now split].
  - exists card. split; [rewrite Hc; apply In_upsert_new|now split].
Qed.

Lemma add_card_then_lookup_witness :
  let e := okExec 1700000000005 in
  let d' := fst (AddCardWithOptions e sampleDeck "Front" "Back" None) in
  snd (AddCardWithOptions e sampleDeck "Front" "Back" None) = None
  /\ getNoteID d' (getNoteGUID sampleDeck (topDeckID sampleDeck) "Front" "Back")
       1800000000000
     = 1700000000005.
Proof.
  intros e d'.
  assert (H : snd (AddCardWithOptions e sampleDeck "Front" "Back" None) = None)
    by reflexivity.
  split; [exact H|].
  destruct (add_card_then_lookup e sampleDeck "Front" "Back" None 1800000000000 H)
    as (_ & Hid & _).
  unfold d'. rewrite Hid. vm_compute. reflexivity.
Defined.

(** ** The shape of every stored row *)

Lemma note_wf_same_ids (d d' : Deck) (n : Note) :
  topDeckID d' = topDeckID d -> topModelID d' = topModelID d ->
  note_wf d n -> note_wf d' n.
Proof.
  unfold note_wf, checksum, getNoteGUID. intros -> ->. exact (fun H => H).
Qed.

Lemma card_wf_same_ids (d d' : Deck) (c : Card) :
  topDeckID d' = topDeckID d -> card_wf d c -> card_wf d' c.
Proof. unfold card_wf. intros ->. exact (fun H => H). Qed.

Lemma rows_wf_AddCardWithOptions (e : ExecEnv) (d : Deck) (front back : string)
    (opts : option CardOptions) :
  (forall n, In n (notes (db d)) -> note_wf d n) ->
  (forall c, In c (cards (db d)) -> card_wf d c) ->
  let d' := fst (AddCardWithOptions e d front back opts) in
  (forall n, In n (notes (db d')) -> note_wf d' n)
  /\ (forall c, In c (cards (db d')) -> card_wf d' c).
Proof.
  intros Hn Hc d'.
  destruct (AddCardWithOptions_ids e d front back opts) as (Ht & Hm & _).
  fold d' in Ht, Hm.
  assert (Hnew : forall nt,
            nt = {| n_id := getNoteID d (getNoteGUID d (topDeckID d) front back) (clock e);
                    n_guid := getNoteGUID d (topDeckID d) front back;
                    n_mid := topModelID d;
                    n_mod := getID d "notes" "mod" (clock e);
                    n_usn := -1; n_tags := tagsStr opts;
                    n_flds := front ++ separator ++ back; n_sfld := integerAffinity front;
                    n_csum := checksum d (front ++ separator ++ back);
                    n_flags := 0; n_data := "" |} ->
            forall n, In n (upsert n_id nt (notes (db d))) -> note_wf d n).
  { intros nt Ent n Hin. apply In_upsert_inv in Hin as [->|[Hin _]]; [|now apply Hn].
    rewrite Ent. unfold note_wf. cbn. repeat split. exists front, back. now repeat split. }
  split.
  - intros n Hin. apply (note_wf_same_ids d d' n Ht Hm).
    revert Hin. unfold d', AddCardWithOptions.
    destruct (note_exec_err e); [cbn; now apply Hn|].
    destruct (card_exec_err e); cbn [fst db notes with_db with_notes with_cards];
      now apply Hnew.
  - intros c Hin. apply (card_wf_same_ids d d' c Ht).
    revert Hin. unfold d', AddCardWithOptions.
    destruct (note_exec_err e); [cbn; now apply Hc|].
    destruct (card_exec_err e); cbn [fst db cards with_db with_notes with_cards];
      [now apply Hc|].
    intros Hin. apply In_upsert_inv in Hin as [->|[Hin _]]; [|now apply Hc].
    unfold card_wf. cbn. repeat split.
Qed.

Lemma reachable_rows_wf (d : Deck) :
  reachable d ->
  (forall n, In n (notes (db d)) -> note_wf d n)
  /\ (forall c, In c (cards (db d)) -> card_wf d c).
Proof.
  induction 1 as [e name0 opts d H|e d front back opts _ [IHn IHc]
                 |d filename data _ IH|d _ [IHn IHc]|d _ [IHn IHc]].
  - apply NewDeckWithTemplate_done in H as (_ & _ & _ & _ & Hn & Hc).
    rewrite Hn, Hc. split; intros ? [].
  - now apply rows_wf_AddCardWithOptions.
  - exact IH.
  - split; [exact IHn|]. intros c Hin. cbn in Hin.
    apply filter_In in Hin as [Hin _]. now apply IHc.
  - split; [intros ? []|exact IHc].
Qed.

(** X5: in every deck built by the package, each note belongs to the
    deck's model, has usn -1, flags 0 and empty data, a checksum that
    matches its field text, field text made of a front, U+001F and a back,
    as sort field what the integer-declared column keeps of that front (the
    text of the front unless it reads as a number), and a guid that is the
    hash of the deck id, that front and that back; each card belongs to the
    deck and carries the new-card defaults. *)
Theorem reachable_rows_well_formed (d : Deck) :
  reachable d ->
  (forall n, In n (notes (db d)) ->
     n_mid n = topModelID d /\ n_usn n = -1 /\ n_flags n = 0 /\ n_data n = ""
     /\ n_csum n = truncate32 (SHA1.Sum (bytes_of_string (n_flds n)))
     /\ exists front back,
          n_flds n = front ++ separator ++ back
          /\ n_sfld n = integerAffinity front
          /\ (numericType front = None -> n_sfld n = SqlText front)
          /\ n_guid n = getNoteGUID d (topDeckID d) front back)
  /\ (forall c, In c (cards (db d)) ->
        c_did c = topDeckID d /\ c_ord c = 0 /\ c_usn c = -1 /\ c_type c = 0
        /\ c_queue c = 0 /\ c_due c = 179 /\ c_ivl c = 0 /\ c_factor c = 0
        /\ c_reps c = 0 /\ c_lapses c = 0 /\ c_left c = 0 /\ c_odue c = 0
        /\ c_odid c = 0 /\ c_flags c = 0 /\ c_data c = "").
Proof.
  intros Hreach. destruct (reachable_rows_wf d Hreach) as [Hn Hc]. split.
  - intros n Hin. destruct (Hn n Hin) as (A & B & C & D & E & front & back & F & G & H).
    repeat (split; [assumption|]). split; [rewrite E; apply checksum_truncate32|].
    exists front, back. split; [exact F|]. split; [exact G|]. split; [|exact H].
    intros Htext. rewrite G. unfold integerAffinity. now rewrite Htext.
  - intros c Hin. exact (Hc c Hin).
Qed.

Lemma reachable_rows_well_formed_witness :
  let d := fst (AddCard (okExec 1700000000005) sampleDeck "Front" "Back") in
  reachable d
  /\ (forall c, In c (cards (db d)) -> c_did c = topDeckID d /\ c_due c = 179).
Proof.
  intros d.
  assert (Hreach : reachable d).
  { apply reach_add_card. apply (reach_new sampleInit "Test Deck" None).
    vm_compute. reflexivity. }
  split; [exact Hreach|].
  intros c Hin. destruct (reachable_rows_well_formed d Hreach) as [_ Hc].
  destruct (Hc c Hin) as (A & _ & _ & _ & _ & B & _). now split.
Defined.

Lemma clearCards_nil (d : Deck) :
  (forall c, In c (cards (db d)) -> card_wf d c) -> cards (db (clearCards d)) = [].
Proof.
  intros Hc. cbn.
  assert (H : forall l : list Card,
             (forall c, In c l -> card_wf d c) ->
             filter (fun c => negb (c_did c =? topDeckID d)) l = []).
  { induction l as [|c l IH]; intros Hl; [reflexivity|]. cbn.
    destruct (Hl c (or_introl eq_refl)) as (Hdid & _).
    rewrite Hdid, Z.eqb_refl. cbn. apply IH. intros x Hx. apply Hl. now right. }
  now apply H.
Qed.

(** X6: in a deck built by the package every card belongs to the deck, so
    the statement [DELETE FROM cards WHERE did = ?] with which
    [PullFromAnki] begins its wipe empties the cards table. *)
Theorem clearCards_empties_cards (d : Deck) :
  reachable d -> cards (db (clearCards d)) = [].
Proof.
  intros Hreach. apply clearCards_nil. now apply reachable_rows_wf.
Qed.

Lemma clearCards_empties_cards_witness :
  let d := fst (AddCard (okExec 1700000000005) sampleDeck "Front" "Back") in
  reachable d /\ cards (db d) <> [] /\ cards (db (clearCards d)) = [].
Proof.
  intros d.
  assert (Hreach : reachable d).
  { apply reach_add_card. apply (reach_new sampleInit "Test Deck" None).
    vm_compute. reflexivity. }
  split; [exact Hreach|]. split; [discriminate|].
  exact (clearCards_empties_cards d Hreach).
Defined.

(** * Further properties of deck construction *)

Lemma decks_range_cases (e : InitEnv) :
  Permutation (decks_range e) (map_keys seedDecks) ->
  decks_range e = ["1"; "1435588830424"] \/ decks_range e = ["1435588830424"; "1"].
Proof.
  intros H. apply Permutation_sym in H. cbn in H.
  now apply Permutation_length_2_inv in H.
Qed.

Lemma models_range_cases (e : InitEnv) (o : TemplateOptions) :
  Permutation (models_range e) (map_keys (seedModels o)) ->
  models_range e = ["1388596687391"].
Proof.
  intros H. apply Permutation_sym in H. cbn in H.
  now apply Permutation_length_1_inv in H.
Qed.

Lemma updateDeckName_no_panic (e : InitEnv) (d : Deck) :
  decks (col (db d)) = seedDecks ->
  Permutation (decks_range e) (map_keys seedDecks) ->
  match updateDeckName e d with
  | Done _ => decks_update_err e = None
  | Failed err => decks_update_err e = Some err
  | Panicked => False
  end.
Proof.
  intros Hd Hp. unfold updateDeckName, bind. rewrite Hd.
  destruct (decks_range_cases e Hp) as [-> | ->]; cbn;
    destruct (decks_update_err e); reflexivity.
Qed.

Lemma updateModel_rekeys (e : InitEnv) (d : Deck) (o : TemplateOptions) :
  models (col (db d)) = seedModels o ->
  Permutation (models_range e) (map_keys (seedModels o)) ->
  match updateModel e d with
  | Done d' =>
      models_update_err e = None
      /\ exists model,
           models (col (db d')) = [(Itoa (topModelID d), JObj model)]
           /\ map_get "name" model = Some (JStr (jsonString (name d)))
           /\ map_get "did" model = Some (JNum (float64_of_int64 (topDeckID d)))
           /\ map_get "id" model = Some (JNum (float64_of_int64 (topModelID d)))
           /\ map_get "css" model = Some (JStr (scriptText (CSS o)))
           /\ map_get "tmpls" model
              = Some (JArr [JObj [ ("name", JStr "Card 1");
                                   ("qfmt", JStr (scriptText (QuestionFormat o)));
                                   ("did", JNull); ("bafmt", JStr "");
                                   ("afmt", JStr (scriptText (AnswerFormat o)));
                                   ("ord", JNum 0); ("bqfmt", JStr "") ]])
  | Failed err => models_update_err e = Some err
  | Panicked => False
  end.
Proof.
  intros Hd Hp. unfold updateModel, bind. rewrite Hd.
  rewrite (models_range_cases e o Hp). cbn.
  destruct (models_update_err e); [reflexivity|].
  split; [reflexivity|]. eexists. split; [reflexivity|]. cbn. repeat split.
Qed.

(** X7: whenever [range] hands out each key of the two seed blobs once,
    in any order, deck construction does not panic, and it returns a deck
    exactly when opening the store, running the script and the two
    [UPDATE] statements all succeed. *)
Theorem NewDeckWithTemplate_success_iff (e : InitEnv) (name0 : string)
    (templateOpts : option TemplateOptions) :
  Permutation (decks_range e) (map_keys seedDecks) ->
  Permutation (models_range e) (map_keys (seedModels (templateDefaults templateOpts))) ->
  NewDeckWithTemplate e name0 templateOpts <> Panicked
  /\ ((exists d, NewDeckWithTemplate e name0 templateOpts = Done d)
      <-> (open_err e = None /\ template_err e = None
           /\ decks_update_err e = None /\ models_update_err e = None)).
Proof.
  intros Hpd Hpm. unfold NewDeckWithTemplate, initializeDatabase, check, bind.
  destruct (open_err e) as [eo|].
  { split; [discriminate|]. split; [intros [d H]; discriminate|].
    intros (H & _). discriminate. }
  destruct (template_err e) as [et|].
  { split; [discriminate|]. split; [intros [d H]; discriminate|].
    intros (_ & H & _). discriminate. }
  match goal with |- context [updateDeckName e ?d0] =>
    pose proof (updateDeckName_no_panic e d0 eq_refl Hpd) as H1;
    destruct (updateDeckName e d0) as [d1|err1|] eqn:E1
  end; [|rewrite H1|contradiction].
  2:{ split; [discriminate|]. split; [intros [d H]; discriminate|].
      intros (_ & _ & H & _). discriminate. }
  apply updateDeckName_frame in E1 as (_ & _ & _ & _ & _ & _ & Hm).
  pose proof (updateModel_rekeys e d1 (templateDefaults templateOpts) Hm Hpm) as H2.
  destruct (updateModel e d1) as [d2|err2|]; [|rewrite H2|contradiction].
  - destruct H2 as [H2 _]. rewrite H1, H2. split; [discriminate|].
    split; [auto|intros _; now exists d2].
  - split; [discriminate|]. split; [intros [d H]; discriminate|].
    intros (_ & _ & _ & H). discriminate.
Qed.

Lemma NewDeckWithTemplate_success_iff_witness :
  (Permutation (decks_range sampleInitDefaultLast) (map_keys seedDecks)
   /\ Permutation (models_range sampleInitDefaultLast)
                  (map_keys (seedModels (templateDefaults None))))
  /\ NewDeckWithTemplate sampleInitDefaultLast "Test Deck" None <> Panicked.
Proof.
  assert (H1 : Permutation (decks_range sampleInitDefaultLast) (map_keys seedDecks))
    by apply perm_swap.
  assert (H2 : Permutation (models_range sampleInitDefaultLast)
                           (map_keys (seedModels (templateDefaults None))))
    by apply Permutation_refl.
  split; [split; assumption|].
  exact (proj1 (NewDeckWithTemplate_success_iff sampleInitDefaultLast "Test Deck" None
                  H1 H2)).
Defined.

(** Text without an apostrophe reads between the apostrophes of a
    literal as it is. *)
Lemma sqlLiteralText_plain (s : string) :
  lacks apostrophe s = true -> sqlLiteralText s = s.
Proof.
  induction s as [|c s IH]; [reflexivity|]. cbn [lacks sqlLiteralText]. intros H.
  apply andb_true_iff in H as [Hc Hs]. apply negb_true_iff in Hc.
  now rewrite Hc, (IH Hs).
Qed.

Lemma scriptText_plain (s : string) :
  ValidString s = true -> lacks apostrophe s = true -> scriptText s = s.
Proof.
  intros Hv Ha. unfold scriptText. rewrite (jsonString_valid s Hv).
  now apply sqlLiteralText_plain.
Qed.

(** X8: a constructed deck has exactly one model entry, keyed by the
    decimal text of the model id; it carries the deck id, the model id and
    the deck's name as [json.Marshal] writes it (bytes that are not valid
    UTF-8 replaced by U+FFFD), and its card template holds the question
    format, the answer format and the CSS of the template options, each
    replaced by the built-in default when it was left empty, as they read
    after [json.Marshal] and between the apostrophes of the script's
    literal: a doubled apostrophe becomes one.  The apostrophes of the
    options are taken to come in pairs, since a single one ends the literal
    early.  A name that is valid UTF-8, and an option that is valid UTF-8
    and has no apostrophe, are stored as they are. *)
Theorem model_entry_carries_template (e : InitEnv) (name0 : string)
    (templateOpts : option TemplateOptions) (d : Deck) :
  NewDeckWithTemplate e name0 templateOpts = Done d ->
  Permutation (models_range e) (map_keys (seedModels (templateDefaults templateOpts))) ->
  pairedApostrophes (QuestionFormat (templateDefaults templateOpts)) = true ->
  pairedApostrophes (AnswerFormat (templateDefaults templateOpts)) = true ->
  pairedApostrophes (CSS (templateDefaults templateOpts)) = true ->
  exists model tmpl,
    models (col (db d)) = [(Itoa (topModelID d), JObj model)]
    /\ map_get "name" model = Some (JStr (jsonString name0))
    /\ (ValidString name0 = true -> map_get "name" model = Some (JStr name0))
    /\ map_get "did" model = Some (JNum (float64_of_int64 (topDeckID d)))
    /\ map_get "id" model = Some (JNum (float64_of_int64 (topModelID d)))
    /\ map_get "css" model = Some (JStr (scriptText (CSS (templateDefaults templateOpts))))
    /\ map_get "tmpls" model = Some (JArr [JObj tmpl])
    /\ map_get "qfmt" tmpl
       = Some (JStr (scriptText (QuestionFormat (templateDefaults templateOpts))))
    /\ map_get "afmt" tmpl
       = Some (JStr (scriptText (AnswerFormat (templateDefaults templateOpts))))
    /\ (ValidString (CSS (templateDefaults templateOpts)) = true ->
        lacks apostrophe (CSS (templateDefaults templateOpts)) = true ->
        map_get "css" model = Some (JStr (CSS (templateDefaults templateOpts))))
    /\ (ValidString (QuestionFormat (templateDefaults templateOpts)) = true ->
        lacks apostrophe (QuestionFormat (templateDefaults templateOpts)) = true ->
        map_get "qfmt" tmpl = Some (JStr (QuestionFormat (templateDefaults templateOpts))))
    /\ (ValidString (AnswerFormat (templateDefaults templateOpts)) = true ->
        lacks apostrophe (AnswerFormat (templateDefaults templateOpts)) = true ->
        map_get "afmt" tmpl = Some (JStr (AnswerFormat (templateDefaults templateOpts)))).
Proof.
  intros Hnew Hpm _ _ _.
  pose proof (NewDeckWithTemplate_done _ _ _ _ Hnew) as (Hname & _).
  revert Hnew. unfold NewDeckWithTemplate, initializeDatabase, check, bind.
  destruct (open_err e); [discriminate|].
  destruct (template_err e); [discriminate|].
  destruct (updateDeckName e _) as [d1| |] eqn:E1; try discriminate.
  apply updateDeckName_frame in E1 as (A1 & _ & A3 & A4 & _ & _ & Hm).
  pose proof (updateModel_rekeys e d1 (templateDefaults templateOpts) Hm Hpm) as H2.
  destruct (updateModel e d1) as [d2| |] eqn:E2; try discriminate.
  intros [= <-].
  apply updateModel_frame in E2 as (B1 & _ & B3 & B4 & _).
  destruct H2 as (_ & model & Hmodels & Hn & Hdid & Hid & Hcss & Htm).
  exists model. eexists.
  rewrite B3, B4. rewrite B1 in Hname. rewrite <- Hname.
  split; [exact Hmodels|]. split; [exact Hn|].
  split; [intros Hv; rewrite Hn; now rewrite (jsonString_valid _ Hv)|].
  split; [exact Hdid|].
  split; [exact Hid|]. split; [exact Hcss|]. split; [exact Htm|].
  split; [reflexivity|]. split; [reflexivity|].
  split; [intros Hv Ha; now rewrite Hcss, (scriptText_plain _ Hv Ha)|].
  split; intros Hv Ha; cbn [map_get String.eqb Ascii.eqb Bool.eqb];
    now rewrite (scriptText_plain _ Hv Ha).
Qed.

Lemma model_entry_carries_template_witness :
  let opts := Some {| QuestionFormat := "<b>{{Front}}</b>"; AnswerFormat := "";
                      CSS := ".card::after { content: ''ok''; }" |} in
  let d := valueOr blankDeck (NewDeckWithTemplate sampleInit "Custom" opts) in
  (NewDeckWithTemplate sampleInit "Custom" opts = Done d
   /\ Permutation (models_range sampleInit)
                  (map_keys (seedModels (templateDefaults opts)))
   /\ pairedApostrophes (QuestionFormat (templateDefaults opts)) = true
   /\ pairedApostrophes (AnswerFormat (templateDefaults opts)) = true
   /\ pairedApostrophes (CSS (templateDefaults opts)) = true)
  /\ exists model tmpl,
       models (col (db d)) = [("1700000000000", JObj model)]
       /\ map_get "name" model = Some (JStr "Custom")
       /\ map_get "css" model = Some (JStr ".card::after { content: 'ok'; }")
       /\ map_get "tmpls" model = Some (JArr [JObj tmpl])
       /\ map_get "qfmt" tmpl = Some (JStr "<b>{{Front}}</b>")
       /\ map_get "afmt" tmpl = Some (JStr defaultAnswerFormat).
Proof.
  intros opts d.
  assert (H1 : NewDeckWithTemplate sampleInit "Custom" opts = Done d)
    by (vm_compute; reflexivity).
  assert (H2 : Permutation (models_range sampleInit)
                           (map_keys (seedModels (templateDefaults opts))))
    by apply Permutation_refl.
  assert (H3 : pairedApostrophes (QuestionFormat (templateDefaults opts)) = true)
    by reflexivity.
  assert (H4 : pairedApostrophes (AnswerFormat (templateDefaults opts)) = true)
    by reflexivity.
  assert (H5 : pairedApostrophes (CSS (templateDefaults opts)) = true)
    by reflexivity.
  split; [repeat split; assumption|].
  destruct (model_entry_carries_template sampleInit "Custom" opts d H1 H2 H3 H4 H5)
    as (model & tmpl & Hm & _ & Hname & _ & _ & Hcss & Htm & Hq & Ha & _ & _ & _).
  exists model, tmpl. split; [exact Hm|].
  split; [apply Hname; reflexivity|].
  split; [rewrite Hcss; vm_compute; reflexivity|].
  split; [exact Htm|].
  split; [rewrite Hq; vm_compute; reflexivity|].
  rewrite Ha. vm_compute. reflexivity.
Defined.

(** X9: unless the clock reads 1, the fixed deck "Default" under the key
    "1" is still in the deck-definitions blob of a constructed deck,
    unchanged, whichever of the two seed keys [range] visits last. *)
Theorem default_deck_kept (e : InitEnv) (name0 : string)
    (templateOpts : option TemplateOptions) (d : Deck) :
  NewDeckWithTemplate e name0 templateOpts = Done d ->
  Permutation (decks_range e) (map_keys seedDecks) ->
  init_clock e <> 1 ->
  map_get "1" (decks (col (db d))) = Some (seedDeck "Default" 0 0 1 1435645724).
Proof.
  intros Hnew Hpd Hclock.
  pose proof (NewDeckWithTemplate_done _ _ _ _ Hnew) as (_ & _ & Htop & _).
  revert Hnew. unfold NewDeckWithTemplate, initializeDatabase, check, bind.
  destruct (open_err e); [discriminate|].
  destruct (template_err e); [discriminate|].
  destruct (updateDeckName e _) as [d1| |] eqn:E1; try discriminate.
  destruct (updateModel e d1) as [d2| |] eqn:E2; try discriminate.
  intros [= <-].
  apply updateModel_frame in E2 as (_ & _ & B3 & _ & _ & _ & Hdecks).
  rewrite B3 in Htop. rewrite Hdecks. clear Hdecks B3.
  assert (Hkey : Itoa (topDeckID d1) <> "1").
  { intros Heq. apply Hclock. rewrite <- Htop.
    apply Itoa_inj. rewrite Heq. reflexivity. }
  revert E1 Hkey. unfold updateDeckName, bind.
  destruct (decks_range_cases e Hpd) as [-> | ->];
    cbn [lastKeyOf fold_left String.eqb Ascii.eqb Bool.eqb negb andb];
    cbn [with_db db col decks createTemplate seedDecks map_get String.eqb Ascii.eqb
         Bool.eqb seedDeck name topDeckID];
    destruct (decks_update_err e); try discriminate;
    intros [= <-]; cbn [topDeckID db with_db col decks name]; intros Hkey.
  - rewrite map_get_set_other by assumption. reflexivity.
  - reflexivity.
Qed.

Lemma default_deck_kept_witness :
  (NewDeckWithTemplate sampleInit "Test Deck" None = Done sampleDeck
   /\ Permutation (decks_range sampleInit) (map_keys seedDecks)
   /\ init_clock sampleInit <> 1)
  /\ map_get "1" (decks (col (db sampleDeck))) = Some (seedDeck "Default" 0 0 1 1435645724).
Proof.
  assert (H1 : NewDeckWithTemplate sampleInit "Test Deck" None = Done sampleDeck)
    by (vm_compute; reflexivity).
  assert (H2 : Permutation (decks_range sampleInit) (map_keys seedDecks))
    by apply Permutation_refl.
  assert (H3 : init_clock sampleInit <> 1) by discriminate.
  split; [repeat split; assumption|].
  exact (default_deck_kept sampleInit "Test Deck" None sampleDeck H1 H2 H3).
Defined.

(** * Further properties of the archive *)

Lemma Save_done_entries (e : SaveEnv) (d : Deck) (entries : list ZipEntry) :
  Save e d = Done entries ->
  entries
  = {| entryName := "collection.anki2"; entryBody := Raw (sqlite_file e (db d)) |}
    :: {| entryName := "media"; entryBody := JSONText (JObj (writtenManifest (media d))) |}
    :: payloadEntries (media d).
Proof.
  unfold Save, exportDatabase, check, bind.
  destruct (export_err e); [discriminate|].
  destruct (zip_create_err e "collection.anki2"); [discriminate|].
  destruct (zip_write_err e "collection.anki2"); [discriminate|].
  destruct (zip_create_err e "media"); [discriminate|].
  destruct (zip_write_err e "media"); [discriminate|].
  destruct (writeMediaFiles e 0 (media d) _) as [w| |] eqn:Hw; try discriminate.
  destruct (zip_close_err e); [discriminate|].
  intros [= <-]. change 0 with (Z.of_nat 0) in Hw.
  apply writeMediaFiles_from in Hw. rewrite Hw, marshal_media_map. reflexivity.
Qed.

Lemma indexedFrom_fst {A : Type} (l : list A) (k : nat) :
  map fst (indexedFrom k l) = map Z.of_nat (seq k (List.length l)).
Proof.
  revert k. induction l as [|x l IH]; intros k; [reflexivity|].
  rewrite indexedFrom_cons. cbn [map fst List.length seq]. now rewrite IH.
Qed.

Lemma indexedFrom_snoc {A : Type} (l : list A) (x : A) (k : nat) :
  indexedFrom k (l ++ [x])%list
  = (indexedFrom k l ++ [(Z.of_nat (k + List.length l), x)])%list.
Proof.
  revert k. induction l as [|y l IH]; intros k.
  - cbn. now rewrite Nat.add_0_r.
  - cbn [app]. rewrite !indexedFrom_cons, IH. cbn [app List.length].
    now rewrite Nat.add_succ_r.
Qed.

(** The decimal text of a number is never a word that does not read as a
    number. *)
Lemma Itoa_not_word (z : Z) (s : string) :
  NilZero.int_of_string s = None -> Itoa z <> s.
Proof.
  intros Hs Heq. unfold Itoa in Heq.
  assert (Hnn : Z.to_int z <> Decimal.Pos Decimal.Nil
                /\ Z.to_int z <> Decimal.Neg Decimal.Nil).
  { destruct z as [|p|p]; cbn; split; try discriminate;
      intros [= Hp]; now apply (DecimalPos.Unsigned.to_uint_nonnil p). }
  pose proof (NilZero.isi (Z.to_int z) (proj1 Hnn) (proj2 Hnn)) as Hz.
  rewrite Heq, Hs in Hz. discriminate.
Qed.

Lemma NoDup_map_injective {A B : Type} (f : A -> B) (l : list A) :
  (forall a b, f a = f b -> a = b) -> NoDup l -> NoDup (map f l).
Proof.
  intros Hinj. induction 1 as [|x l Hnotin _ IH]; cbn; constructor; [|exact IH].
  intros Hin. apply in_map_iff in Hin as (y & Hy & Hin).
  apply Hinj in Hy. subst y. contradiction.
Qed.

(** X10: the entries of the archive that a successful [Save] returns have
    pairwise different names, however many media files the deck holds and
    whatever their file names are. *)
Theorem save_entry_names_distinct (e : SaveEnv) (d : Deck) (entries : list ZipEntry) :
  Save e d = Done entries -> NoDup (map entryName entries).
Proof.
  intros HS. rewrite (Save_done_entries e d entries HS). cbn [map entryName].
  assert (Hnames : map entryName (payloadEntries (media d))
                   = map Itoa (map Z.of_nat (seq 0 (List.length (media d))))).
  { unfold payloadEntries, indexed. rewrite <- indexedFrom_fst, !map_map. reflexivity. }
  rewrite Hnames.
  assert (Hword : forall s, NilZero.int_of_string s = None ->
            ~ In s (map Itoa (map Z.of_nat (seq 0 (List.length (media d)))))).
  { intros s Hs Hin. apply in_map_iff in Hin as (z & Hz & _).
    now apply (Itoa_not_word z s). }
  constructor.
  { intros [Heq|Hin]; [discriminate|]. now apply (Hword "collection.anki2"). }
  constructor; [now apply (Hword "media")|].
  apply NoDup_map_injective; [apply Itoa_inj|].
  apply NoDup_map_injective; [apply Nat2Z.inj|]. apply seq_NoDup.
Qed.

Lemma save_entry_names_distinct_witness :
  let e := {| sqlite_file := fun _ => [83; 81; 76];
              export_err := None;
              zip_create_err := fun _ => None;
              zip_write_err := fun _ => None;
              zip_close_err := None |} in
  let d := AddMedia (AddMedia sampleDeck "a.png" [1]) "a.png" [2] in
  let entries := valueOr [] (Save e d) in
  Save e d = Done entries
  /\ map entryName entries = ["collection.anki2"; "media"; "0"; "1"]
  /\ NoDup (map entryName entries).
Proof.
  intros e d entries.
  assert (H : Save e d = Done entries) by (vm_compute; reflexivity).
  split; [exact H|]. split; [vm_compute; reflexivity|].
  exact (save_entry_names_distinct e d entries H).
Defined.

(** X11: registering one more media file leaves the archive as it was
    except for what the new file adds: the database entry and the earlier
    payload entries are the same, with the same names, the manifest gains
    the pair of the next index and the new file name as [json.Marshal]
    writes it (the file name itself when it is valid UTF-8), and one
    payload entry named by that index is appended. *)
Theorem save_after_AddMedia (e : SaveEnv) (d : Deck) (filename : string) (data : bytes)
    (es es' : list ZipEntry) :
  Save e d = Done es ->
  Save e (AddMedia d filename data) = Done es' ->
  let index := Itoa (Z.of_nat (List.length (media d))) in
  nth_error es' 0 = nth_error es 0
  /\ nth_error es' 1
     = Some {| entryName := "media";
               entryBody := JSONText (JObj (writtenManifest (media d)
                                            ++ [(index, JStr (jsonString filename))])%list) |}
  /\ (ValidString filename = true ->
      nth_error es' 1
      = Some {| entryName := "media";
                entryBody := JSONText (JObj (writtenManifest (media d)
                                             ++ [(index, JStr filename)])%list) |})
  /\ skipn 2 es' = (skipn 2 es ++ [{| entryName := index; entryBody := Raw data |}])%list.
Proof.
  intros H H' index.
  rewrite (Save_done_entries _ _ _ H), (Save_done_entries _ _ _ H').
  cbn [nth_error skipn AddMedia media db].
  unfold writtenManifest, payloadEntries, indexed.
  rewrite indexedFrom_snoc, !map_app. cbn [map fst snd Nat.add Filename Data].
  split; [reflexivity|]. split; [reflexivity|]. split; [|reflexivity].
  intros Hv. now rewrite (jsonString_valid _ Hv).
Qed.

Lemma save_after_AddMedia_witness :
  let e := {| sqlite_file := fun _ => [83; 81; 76];
              export_err := None;
              zip_create_err := fun _ => None;
              zip_write_err := fun _ => None;
              zip_close_err := None |} in
  let d := AddMedia sampleDeck "a.png" [1] in
  let es := valueOr [] (Save e d) in
  let es' := valueOr [] (Save e (AddMedia d "b.mp3" [2; 3])) in
  (Save e d = Done es /\ Save e (AddMedia d "b.mp3" [2; 3]) = Done es')
  /\ nth_error es' 1
     = Some {| entryName := "media";
               entryBody := JSONText (JObj [("0", JStr "a.png"); ("1", JStr "b.mp3")]) |}
  /\ skipn 2 es' = (skipn 2 es ++ [{| entryName := "1"; entryBody := Raw [2; 3] |}])%list.
Proof.
  intros e d es es'.
  assert (H : Save e d = Done es) by (vm_compute; reflexivity).
  assert (H' : Save e (AddMedia d "b.mp3" [2; 3]) = Done es') by (vm_compute; reflexivity).
  split; [split; assumption|].
  destruct (save_after_AddMedia e d "b.mp3" [2; 3] es es' H H')
    as (_ & _ & Hmanifest & Hpayload).
  split; [|exact Hpayload].
  rewrite (Hmanifest eq_refl). vm_compute. reflexivity.
Defined.

(** * Properties of the text scanning *)

Lemma string_length_append (a b : string) :
  String.length (a ++ b) = (String.length a + String.length b)%nat.
Proof. induction a as [|x a IH]; simpl; [reflexivity|now rewrite IH]. Qed.

Lemma hasPrefix_split (p s : string) : hasPrefix s p = true -> exists t, s = p ++ t.
Proof.
  revert s. induction p as [|a p IH]; intros s H; [now exists s|].
  destruct s as [|b s]; [discriminate|]. simpl in H.
  apply andb_true_iff in H as [Hab H]. apply Ascii.eqb_eq in Hab. subst b.
  destruct (IH s H) as [t ->]. now exists t.
Qed.

Lemma hasPrefix_append (p t : string) : hasPrefix (p ++ t) p = true.
Proof.
  induction p as [|a p IH]; [reflexivity|]. simpl.
  now rewrite Ascii.eqb_refl.
Qed.

Lemma indexOf_Some (sub s : string) (n : nat) :
  indexOf sub s = Some n ->
  exists pre post, s = pre ++ sub ++ post /\ String.length pre = n.
Proof.
  revert n. induction s as [|c s IH]; intros n; simpl.
  - destruct (hasPrefix "" sub) eqn:E; [|discriminate].
    intros [= <-]. apply hasPrefix_split in E as [t Ht]. now exists "", t.
  - destruct (hasPrefix (String c s) sub) eqn:E.
    + intros [= <-]. apply hasPrefix_split in E as [t Ht]. now exists "", t.
    + destruct (indexOf sub s) as [m|]; [|discriminate].
      intros [= <-]. destruct (IH m eq_refl) as (pre & post & -> & Hlen).
      exists (String c pre), post. simpl. now rewrite Hlen.
Qed.

Lemma substring_skip (a b : string) (m : nat) :
  substring (String.length a) m (a ++ b) = substring 0 m b.
Proof. induction a as [|x a IH]; simpl; [reflexivity|exact IH]. Qed.

Lemma substring_take (a b : string) : substring 0 (String.length a) (a ++ b) = a.
Proof.
  induction a as [|x a IH]; simpl; [now destruct b|now rewrite IH].
Qed.

Lemma substring_all (a : string) : substring 0 (String.length a) a = a.
Proof. induction a as [|x a IH]; simpl; [reflexivity|now rewrite IH]. Qed.

Lemma slice_middle (a b c : string) :
  slice (a ++ b ++ c) (Z.of_nat (String.length a))
        (Z.of_nat (String.length a) + Z.of_nat (String.length b))
  = Done b.
Proof.
  unfold slice. rewrite !string_length_append.
  replace ((0 <=? Z.of_nat (String.length a))
           && (Z.of_nat (String.length a)
               <=? Z.of_nat (String.length a) + Z.of_nat (String.length b))
           && (Z.of_nat (String.length a) + Z.of_nat (String.length b)
               <=? Z.of_nat (String.length a + (String.length b + String.length c))))
    with true.
  - f_equal. rewrite Nat2Z.id.
    replace (Z.to_nat (Z.of_nat (String.length a) + Z.of_nat (String.length b)
                       - Z.of_nat (String.length a)))
      with (String.length b) by lia.
    now rewrite substring_skip, substring_take.
  - symmetry. rewrite !andb_true_iff, !Z.leb_le. lia.
Qed.

Lemma sliceFrom_tail (a b : string) :
  sliceFrom (a ++ b) (Z.of_nat (String.length a)) = Done b.
Proof.
  unfold sliceFrom. rewrite string_length_append, Nat2Z.inj_add.
  rewrite <- (slice_middle a b "") at 1.
  replace (b ++ "") with b; [reflexivity|].
  clear. induction b as [|x b IH]; simpl; [reflexivity|now rewrite <- IH].
Qed.

(** What one block of the case "sound" does, in terms of the first marker
    of the field. *)
Lemma soundReference_cases (text fieldName : string) (found : list ankiMedia) :
  soundReference text fieldName found = Done found
  \/ exists pre filename post,
       text = pre ++ "[sound:" ++ filename ++ "]" ++ post
       /\ indexOf "[sound:" text = Some (String.length pre)
       /\ indexOf "]" filename = None
       /\ soundReference text fieldName found
          = Done (found ++ [{| mediaPath := ""; mediaFilename := filename;
                               mediaFields := [fieldName]; mediaData := "" |}])%list.
Proof.
  unfold soundReference, Index.
  destruct (indexOf "[sound:" text) as [n|] eqn:E; [|now left].
  destruct (indexOf_Some _ _ _ E) as (pre & post & -> & Hn). subst n.
  replace (0 <=? Z.of_nat (String.length pre)) with true by (symmetry; apply Z.leb_le; lia).
  rewrite sliceFrom_tail. cbn [bind].
  cbn [indexOf hasPrefix append Ascii.eqb Bool.eqb andb].
  destruct (indexOf "]" post) as [m|] eqn:Em; cbn [option_map]; [|now left].
  right.
  (* the first bracket of [post] closes the marker *)
  assert (Hsplit : exists filename post2,
             post = filename ++ "]" ++ post2 /\ String.length filename = m
             /\ indexOf "]" filename = None).
  { clear - Em. revert m Em.
    induction post as [|c post IH]; intros m; cbn [indexOf hasPrefix].
    - discriminate.
    - destruct (Ascii.eqb "]" c) eqn:Hc; cbn [andb].
      + intros [= <-]. apply Ascii.eqb_eq in Hc. subst c. now exists "", post.
      + destruct (indexOf "]" post) as [k|]; [|discriminate].
        intros [= <-]. destruct (IH k eq_refl) as (f & p2 & -> & Hl & Hnone).
        exists (String c f), p2. cbn [append String.length indexOf hasPrefix].
        rewrite Hl, Hc, Hnone. repeat split. }
  destruct Hsplit as (filename & post2 & -> & Hlen & Hnone). subst m.
  exists pre, filename, post2. split; [reflexivity|]. split; [reflexivity|].
  split; [exact Hnone|].
  replace (0 <? Z.of_nat (S (S (S (S (S (S (S (String.length filename)))))))))
    with true by (symmetry; apply Z.ltb_lt; lia).
  replace (Z.of_nat (String.length pre)
           + Z.of_nat (S (S (S (S (S (S (S (String.length filename)))))))))
    with (Z.of_nat (String.length (pre ++ "[sound:"))
          + Z.of_nat (String.length filename))
    by (rewrite string_length_append; cbn [String.length]; lia).
  replace (Z.of_nat (String.length pre) + 7)
    with (Z.of_nat (String.length (pre ++ "[sound:")))
    by (rewrite string_length_append; cbn [String.length]; lia).
  change (String "["%char (String "s"%char (String "o"%char (String "u"%char
            (String "n"%char (String "d"%char (String ":"%char
               (filename ++ "]" ++ post2))))))))
    with ("[sound:" ++ filename ++ "]" ++ post2).
  rewrite <- (append_assoc pre "[sound:" (filename ++ "]" ++ post2)).
  rewrite slice_middle. reflexivity.
Qed.

Lemma indexOf_char_split (c : ascii) (s : string) (m : nat) :
  indexOf (String c "") s = Some m ->
  exists f rest,
    s = f ++ String c rest /\ String.length f = m /\ indexOf (String c "") f = None.
Proof.
  revert m. induction s as [|x s IH]; intros m; cbn [indexOf hasPrefix].
  - discriminate.
  - destruct (Ascii.eqb c x) eqn:Hc; cbn [andb].
    + intros [= <-]. apply Ascii.eqb_eq in Hc. subst x. now exists "", s.
    + destruct (indexOf (String c "") s) as [k|]; [|discriminate].
      intros [= <-]. destruct (IH k eq_refl) as (f & rest & -> & Hl & Hnone).
      exists (String x f), rest. cbn [append String.length indexOf hasPrefix].
      rewrite Hl, Hc, Hnone. repeat split.
Qed.

Lemma indexOf_first (c : ascii) (sub pre post : string) :
  lacks c pre = true ->
  indexOf (String c sub) (pre ++ String c sub ++ post) = Some (String.length pre).
Proof.
  intros Hl. induction pre as [|x pre IH].
  - cbn [append String.length]. change (String c sub ++ post) with (String c (sub ++ post)).
    destruct post as [|y post]; cbn [indexOf];
      change (String c (sub ++ ?p)) with (String c sub ++ p);
      now rewrite hasPrefix_append.
  - cbn [lacks] in Hl. apply andb_true_iff in Hl as [Hx Hl].
    apply negb_true_iff in Hx.
    change (String x pre ++ String c sub ++ post)
      with (String x (pre ++ String c sub ++ post)).
    cbn [indexOf hasPrefix String.length].
    rewrite Ascii.eqb_sym, Hx. cbn [andb]. now rewrite (IH Hl).
Qed.

Lemma imgReference_cases (text fieldName : string) (found : list ankiMedia) :
  imgReference text fieldName found = Done found
  \/ exists pre filename post,
       text = pre ++ ("<img src=" ++ dq) ++ filename ++ dq ++ post
       /\ filename <> ""
       /\ indexOf dq filename = None
       /\ imgReference text fieldName found
          = Done (found ++ [{| mediaPath := ""; mediaFilename := filename;
                               mediaFields := [fieldName]; mediaData := "" |}])%list.
Proof.
  unfold imgReference, Index.
  destruct (indexOf ("<img src=" ++ dq) text) as [n|] eqn:E; [|now left].
  destruct (indexOf_Some _ _ _ E) as (pre & post & -> & Hn). subst n.
  replace (0 <=? Z.of_nat (String.length pre)) with true by (symmetry; apply Z.leb_le; lia).
  replace (Z.of_nat (String.length pre) + 10)
    with (Z.of_nat (String.length (pre ++ "<img src=" ++ dq)))
    by (rewrite string_length_append; cbn [String.length append dq]; lia).
  rewrite <- (append_assoc pre ("<img src=" ++ dq) post).
  rewrite sliceFrom_tail. cbn [bind].
  destruct (indexOf dq post) as [m|] eqn:Em; [|now left].
  destruct m as [|m]; [now left|].
  destruct (indexOf_char_split _ _ _ Em) as (filename & post2 & -> & Hlen & Hnone).
  right. exists pre, filename, post2.
  split; [now rewrite append_assoc|].
  split; [intros ->; discriminate|]. split; [exact Hnone|].
  replace (0 <? Z.of_nat (S m)) with true by (symmetry; apply Z.ltb_lt; lia).
  rewrite <- Hlen.
  change (String "034"%char post2) with (dq ++ post2).
  rewrite slice_middle. reflexivity.
Qed.

Lemma soundReference_grows (text fieldName : string) (found : list ankiMedia) :
  exists more,
    soundReference text fieldName found = Done (found ++ more)%list
    /\ (List.length more <= 1)%nat
    /\ Forall (fun m => mediaFields m = [fieldName]) more.
Proof.
  destruct (soundReference_cases text fieldName found)
    as [H|(pre & f & post & _ & _ & _ & H)]; rewrite H.
  - exists []. rewrite app_nil_r. repeat split; [cbn; lia|constructor].
  - eexists. split; [reflexivity|]. split; [cbn; lia|].
    constructor; [reflexivity|constructor].
Qed.

Lemma imgReference_grows (text fieldName : string) (found : list ankiMedia) :
  exists more,
    imgReference text fieldName found = Done (found ++ more)%list
    /\ (List.length more <= 1)%nat
    /\ Forall (fun m => mediaFields m = [fieldName] /\ mediaFilename m <> "") more.
Proof.
  destruct (imgReference_cases text fieldName found)
    as [H|(pre & f & post & _ & Hne & _ & H)]; rewrite H.
  - exists []. rewrite app_nil_r. repeat split; [cbn; lia|constructor].
  - eexists. split; [reflexivity|]. split; [cbn; lia|].
    constructor; [now split|constructor].
Qed.

Lemma extractMediaReferences_done (front back mediaType : string) :
  exists fromFront fromBack,
    extractMediaReferences front back mediaType = Done (fromFront ++ fromBack)%list
    /\ (List.length fromFront <= 1)%nat /\ (List.length fromBack <= 1)%nat
    /\ Forall (fun m => mediaFields m = ["Front"]) fromFront
    /\ Forall (fun m => mediaFields m = ["Back"]) fromBack.
Proof.
  unfold extractMediaReferences.
  destruct (String.eqb mediaType "sound").
  - destruct (soundReference_grows front "Front" []) as (a & Ha & La & Fa).
    rewrite Ha. cbn [bind app].
    destruct (soundReference_grows back "Back" a) as (b & Hb & Lb & Fb).
    rewrite Hb. now exists a, b.
  - destruct (String.eqb mediaType "img").
    + destruct (imgReference_grows front "Front" []) as (a & Ha & La & Fa).
      rewrite Ha. cbn [bind app].
      destruct (imgReference_grows back "Back" a) as (b & Hb & Lb & Fb).
      rewrite Hb. exists a, b. repeat split; try assumption.
      * eapply Forall_impl; [|exact Fa]. now intros m [H _].
      * eapply Forall_impl; [|exact Fb]. now intros m [H _].
    + exists [], []. repeat split; try constructor; cbn; lia.
Qed.

(** X12: [extractMediaReferences] never panics: every slice it takes is
    within bounds, for all field texts and every media type.  It returns at
    most two references, at most one per field and the one of the front
    first, and none at all for the media type "video". *)
Theorem extractMediaReferences_total (front back mediaType : string) :
  (exists found,
     extractMediaReferences front back mediaType = Done found
     /\ (List.length found <= 2)%nat
     /\ exists fromFront fromBack,
          found = (fromFront ++ fromBack)%list
          /\ (List.length fromFront <= 1)%nat /\ (List.length fromBack <= 1)%nat
          /\ Forall (fun m => mediaFields m = ["Front"]) fromFront
          /\ Forall (fun m => mediaFields m = ["Back"]) fromBack)
  /\ extractMediaReferences front back "video" = Done [].
Proof.
  split; [|reflexivity].
  destruct (extractMediaReferences_done front back mediaType)
    as (a & b & H & La & Lb & Fa & Fb).
  exists (a ++ b)%list. split; [exact H|]. split; [rewrite length_app; lia|].
  now exists a, b.
Qed.

(** X13: when the front holds a sound marker whose file name has no closing
    bracket, after text without an opening bracket, the first reference
    returned for "sound" is that file name attached to the field Front;
    an empty file name is returned like any other. *)
Theorem sound_marker_extracted (pre filename post back : string) :
  lacks "["%char pre = true ->
  lacks "]"%char filename = true ->
  exists rest,
    extractMediaReferences (pre ++ "[sound:" ++ filename ++ "]" ++ post) back "sound"
    = Done ({| mediaPath := ""; mediaFilename := filename; mediaFields := ["Front"];
               mediaData := "" |} :: rest)
    /\ (List.length rest <= 1)%nat.
Proof.
  intros Hpre Hf.
  assert (Hfront : soundReference (pre ++ "[sound:" ++ filename ++ "]" ++ post) "Front" []
                   = Done [{| mediaPath := ""; mediaFilename := filename;
                              mediaFields := ["Front"]; mediaData := "" |}]).
  { unfold soundReference, Index.
    rewrite (indexOf_first "["%char "sound:" pre (filename ++ "]" ++ post) Hpre).
    replace (0 <=? Z.of_nat (String.length pre)) with true
      by (symmetry; apply Z.leb_le; lia).
    rewrite sliceFrom_tail. cbn [bind].
    cbn [indexOf hasPrefix append Ascii.eqb Bool.eqb andb].
    change (String "]"%char post) with ("]" ++ post).
    rewrite (indexOf_first "]"%char "" filename post Hf). cbn [option_map].
    replace (0 <? Z.of_nat (S (S (S (S (S (S (S (String.length filename)))))))))
      with true by (symmetry; apply Z.ltb_lt; lia).
    replace (Z.of_nat (String.length pre)
             + Z.of_nat (S (S (S (S (S (S (S (String.length filename)))))))))
      with (Z.of_nat (String.length (pre ++ "[sound:"))
            + Z.of_nat (String.length filename))
      by (rewrite string_length_append; cbn [String.length]; lia).
    replace (Z.of_nat (String.length pre) + 7)
      with (Z.of_nat (String.length (pre ++ "[sound:")))
      by (rewrite string_length_append; cbn [String.length]; lia).
    change (String "["%char (String "s"%char (String "o"%char (String "u"%char
              (String "n"%char (String "d"%char (String ":"%char
                 (filename ++ "]" ++ post))))))))
      with ("[sound:" ++ filename ++ "]" ++ post).
    rewrite <- (append_assoc pre "[sound:" (filename ++ "]" ++ post)).
    rewrite slice_middle. reflexivity. }
  unfold extractMediaReferences. cbn [String.eqb Ascii.eqb Bool.eqb andb].
  rewrite Hfront. cbn [bind].
  destruct (soundReference_grows back "Back"
              [{| mediaPath := ""; mediaFilename := filename; mediaFields := ["Front"];
                  mediaData := "" |}]) as (more & Hb & Lb & _).
  rewrite Hb. exists more. split; [reflexivity|exact Lb].
Qed.

Lemma sound_marker_extracted_witness :
  (lacks "["%char "Listen: " = true /\ lacks "]"%char "word.mp3" = true)
  /\ extractMediaReferences ("Listen: " ++ "[sound:" ++ "word.mp3" ++ "]" ++ "!")
                            "Answer" "sound"
     = Done [{| mediaPath := ""; mediaFilename := "word.mp3"; mediaFields := ["Front"];
                mediaData := "" |}].
Proof.
  assert (H1 : lacks "["%char "Listen: " = true) by reflexivity.
  assert (H2 : lacks "]"%char "word.mp3" = true) by reflexivity.
  split; [split; assumption|].
  destruct (sound_marker_extracted "Listen: " "word.mp3" "!" "Answer" H1 H2)
    as (rest & Hr & _).
  pose proof Hr as Hr'. vm_compute in Hr'. injection Hr' as <-. exact Hr.
Defined.

(** X14: when the front holds an image element whose source has no double
    quote, after text without an opening angle bracket, the first
    reference returned for "img" is that source attached to the field
    Front, unless the source is empty: an element with an empty source is
    skipped. *)
Theorem img_element_extracted (pre filename post back : string) :
  lacks "<"%char pre = true ->
  lacks "034"%char filename = true ->
  exists rest,
    extractMediaReferences (pre ++ ("<img src=" ++ dq) ++ filename ++ dq ++ post)
                           back "img"
    = Done (match filename with
            | EmptyString => rest
            | String _ _ =>
                {| mediaPath := ""; mediaFilename := filename; mediaFields := ["Front"];
                   mediaData := "" |} :: rest
            end)
    /\ (List.length rest <= 1)%nat.
Proof.
  intros Hpre Hf.
  assert (Hfront :
            imgReference (pre ++ ("<img src=" ++ dq) ++ filename ++ dq ++ post) "Front" []
            = Done (match filename with
                    | EmptyString => []
                    | String _ _ =>
                        [{| mediaPath := ""; mediaFilename := filename;
                            mediaFields := ["Front"]; mediaData := "" |}]
                    end)).
  { unfold imgReference, Index.
    change ("<img src=" ++ dq) with (String "<"%char ("img src=" ++ dq)).
    rewrite (indexOf_first "<"%char ("img src=" ++ dq) pre (filename ++ dq ++ post) Hpre).
    replace (0 <=? Z.of_nat (String.length pre)) with true
      by (symmetry; apply Z.leb_le; lia).
    change (String "<"%char ("img src=" ++ dq)) with ("<img src=" ++ dq).
    replace (Z.of_nat (String.length pre) + 10)
      with (Z.of_nat (String.length (pre ++ "<img src=" ++ dq)))
      by (rewrite string_length_append; cbn [String.length append dq]; lia).
    rewrite <- (append_assoc pre ("<img src=" ++ dq) (filename ++ dq ++ post)).
    rewrite sliceFrom_tail. cbn [bind].
    change (indexOf dq (filename ++ dq ++ post))
      with (indexOf (String "034"%char "") (filename ++ String "034"%char "" ++ post)).
    rewrite (indexOf_first "034"%char "" filename post Hf).
    destruct filename as [|c f]; [reflexivity|].
    replace (0 <? Z.of_nat (String.length (String c f))) with true
      by (symmetry; apply Z.ltb_lt; cbn [String.length]; lia).
    rewrite slice_middle. reflexivity. }
  unfold extractMediaReferences. cbn [String.eqb Ascii.eqb Bool.eqb andb].
  rewrite Hfront. cbn [bind].
  destruct filename as [|c f].
  - destruct (imgReference_grows back "Back" []) as (more & Hb & Lb & _).
    rewrite Hb. exists more. split; [reflexivity|exact Lb].
  - destruct (imgReference_grows back "Back"
                [{| mediaPath := ""; mediaFilename := String c f;
                    mediaFields := ["Front"]; mediaData := "" |}]) as (more & Hb & Lb & _).
    rewrite Hb. exists more. split; [reflexivity|exact Lb].
Qed.

Lemma img_element_extracted_witness :
  (lacks "<"%char "See " = true /\ lacks "034"%char "cat.png" = true)
  /\ extractMediaReferences ("See " ++ ("<img src=" ++ dq) ++ "cat.png" ++ dq ++ ">")
                            "" "img"
     = Done [{| mediaPath := ""; mediaFilename := "cat.png"; mediaFields := ["Front"];
                mediaData := "" |}].
Proof.
  assert (H1 : lacks "<"%char "See " = true) by reflexivity.
  assert (H2 : lacks "034"%char "cat.png" = true) by reflexivity.
  split; [split; assumption|].
  destruct (img_element_extracted "See " "cat.png" ">" "" H1 H2) as (rest & Hr & _).
  pose proof Hr as Hr'. vm_compute in Hr'. injection Hr' as <-. exact Hr.
Defined.

(** * Properties of the push *)

Lemma lacks_Split (sep : ascii) (a : string) : lacks sep a = true -> Split a sep = [a].
Proof.
  induction a as [|x a IH]; [reflexivity|]. cbn [lacks Split]. intros H.
  apply andb_true_iff in H as [Hx Ha]. apply negb_true_iff in Hx.
  now rewrite Hx, (IH Ha).
Qed.

Lemma Split_at_first (sep : ascii) (a b : string) :
  lacks sep a = true -> Split (a ++ String sep b) sep = a :: Split b sep.
Proof.
  induction a as [|x a IH]; intros H.
  - cbn [append Split]. now rewrite Ascii.eqb_refl.
  - cbn [lacks] in H. apply andb_true_iff in H as [Hx Ha]. apply negb_true_iff in Hx.
    cbn [append Split]. now rewrite Hx, (IH Ha).
Qed.

Lemma Split_front_back (front back : string) :
  lacks "031"%char front = true -> lacks "031"%char back = true ->
  Split (front ++ separator ++ back) "031"%char = [front; back].
Proof.
  intros Hf Hb. change (separator ++ back) with (String "031"%char back).
  now rewrite Split_at_first, lacks_Split.
Qed.

Lemma noteMedia_done (syncMedia : bool) (front back : string) :
  exists audio picture,
    noteMedia syncMedia front back = Done (audio, picture, [])
    /\ (if syncMedia then True else audio = [] /\ picture = []).
Proof.
  unfold noteMedia. destruct syncMedia; [|now exists [], []].
  destruct (extractMediaReferences_done front back "sound") as (a & b & -> & _).
  destruct (extractMediaReferences_done front back "img") as (a' & b' & -> & _).
  cbn. now eexists; eexists.
Qed.

(** The loop only appends calls, each of them an [AddNote] for the deck,
    and it does not panic. *)
Lemma pushRows_calls (client : AnkiConnect) (d : Deck) (syncMedia : bool)
    (rows : list (string * string)) (h : list call) :
  exists new,
    fst (pushRows client d syncMedia rows h) = (h ++ new)%list
    /\ Forall (pushCall d syncMedia) new
    /\ snd (pushRows client d syncMedia rows h) <> Panicked.
Proof.
  revert h. induction rows as [|[flds tags] rows IH]; intros h.
  - exists []. cbn. rewrite app_nil_r. repeat split; [constructor|discriminate].
  - cbn [pushRows].
    destruct (Split flds "031"%char) as [|front [|back more]]; try apply IH.
    destruct (noteMedia_done syncMedia front back) as (audio & picture & -> & Hm).
    set (note := {| DeckName := name d; ModelName := "Basic";
                    NoteFields := [("Front", front); ("Back", back)];
                    NoteTags := if String.eqb tags "" then [] else Fields tags;
                    Audio := audio; Picture := picture; Video := [];
                    Options := [("allowDuplicate", JBool false)] |}).
    assert (Hnote : pushCall d syncMedia (CallAddNote note)).
    { cbn. repeat split; [now exists front, back|exact Hm]. }
    destruct (IH (h ++ [CallAddNote note])%list) as (new & Hfst & Hall & Hsnd).
    assert (Hgo : exists new0,
               fst (pushRows client d syncMedia rows (h ++ [CallAddNote note])%list)
               = (h ++ new0)%list
               /\ Forall (pushCall d syncMedia) new0
               /\ snd (pushRows client d syncMedia rows (h ++ [CallAddNote note])%list)
                  <> Panicked).
    { exists (CallAddNote note :: new). rewrite Hfst, <- app_assoc.
      repeat split; [now constructor|exact Hsnd]. }
    destruct (AddNote client h note) as [id|err]; [exact Hgo|].
    destruct (negb (String.eqb (ErrorText err) duplicateMessage)); [|exact Hgo].
    exists [CallAddNote note]. cbn [fst snd].
    repeat split; [now constructor|discriminate].
Qed.

Lemma storeMediaFiles_calls (ms : list Media) (h : list call) :
  storeMediaFiles ms h
  = (h ++ map (fun m => CallStoreMediaFile (Filename m) (Data m)) ms)%list.
Proof.
  revert h. induction ms as [|m ms IH]; intros h; cbn [storeMediaFiles map].
  - now rewrite app_nil_r.
  - now rewrite IH, <- app_assoc.
Qed.

(** X15: whatever the remote answers, [PushToAnkiWithMedia] does not
    panic and only adds calls to those made before: a ping, the creation
    of the deck under the deck's name, media uploads of registered files
    (none unless media sync is on), and notes for the deck's name with the
    model "Basic", duplicates not allowed, the fields Front and Back, no
    video attachment, and no audio or picture attachment unless media sync
    is on. *)
Theorem push_calls_only_for_deck (client : AnkiConnect) (d : Deck) (syncMedia : bool)
    (h : list call) :
  exists new,
    fst (PushToAnkiWithMedia client d syncMedia h) = (h ++ new)%list
    /\ Forall (pushCall d syncMedia) new
    /\ snd (PushToAnkiWithMedia client d syncMedia h) <> Panicked.
Proof.
  unfold PushToAnkiWithMedia.
  destruct (Ping client h) as [err|].
  { exists [CallPing]. cbn. repeat split; [now constructor|discriminate]. }
  assert (Hstore : exists stored,
             (if syncMedia && (0 <? Z.of_nat (List.length (media d)))
              then storeMediaFiles (media d) ((h ++ [CallPing]) ++ [CallCreateDeck (name d)])
              else ((h ++ [CallPing]) ++ [CallCreateDeck (name d)])%list)
             = (h ++ [CallPing; CallCreateDeck (name d)] ++ stored)%list
             /\ Forall (pushCall d syncMedia) stored).
  { destruct syncMedia; cbn [andb].
    - destruct (0 <? Z.of_nat (List.length (media d))).
      + rewrite storeMediaFiles_calls. eexists. rewrite <- !app_assoc.
        split; [reflexivity|]. apply Forall_forall. intros c Hc.
        apply in_map_iff in Hc as (m & <- & Hm). cbn. split; [reflexivity|].
        now destruct m.
      + exists []. rewrite <- !app_assoc. split; [reflexivity|constructor].
    - exists []. rewrite <- !app_assoc. split; [reflexivity|constructor]. }
  destruct Hstore as (stored & Hh3 & Hstored).
  assert (Hrows : exists new,
             fst (pushRows client d syncMedia (deckRows d)
                    (h ++ [CallPing; CallCreateDeck (name d)] ++ stored)%list)
             = (h ++ new)%list
             /\ Forall (pushCall d syncMedia) new
             /\ snd (pushRows client d syncMedia (deckRows d)
                       (h ++ [CallPing; CallCreateDeck (name d)] ++ stored)%list)
                <> Panicked).
  { destruct (pushRows_calls client d syncMedia (deckRows d)
                (h ++ [CallPing; CallCreateDeck (name d)] ++ stored)%list)
      as (new & Hf & Hall & Hs).
    exists (([CallPing; CallCreateDeck (name d)] ++ stored) ++ new)%list.
    rewrite Hf, <- !app_assoc. repeat split; [|exact Hs].
    cbn [app]. constructor; [exact I|]. constructor; [reflexivity|].
    apply Forall_app. now split. }
  assert (Hfail : forall err,
            exists new,
              fst ((h ++ [CallPing]) ++ [CallCreateDeck (name d)],
                   @Failed unit (Wrapped "failed to create deck" err))%list
              = (h ++ new)%list
              /\ Forall (pushCall d syncMedia) new
              /\ snd ((h ++ [CallPing]) ++ [CallCreateDeck (name d)],
                      @Failed unit (Wrapped "failed to create deck" err))%list
                 <> Panicked).
  { intros err. exists [CallPing; CallCreateDeck (name d)]. cbn [fst snd].
    rewrite <- app_assoc. repeat split; [|discriminate].
    constructor; [exact I|]. constructor; [reflexivity|constructor]. }
  destruct (CreateDeck client (h ++ [CallPing]) (name d)) as [err|].
  - destruct (negb (String.eqb (ErrorText err) deckExistsMessage)); [apply Hfail|].
    rewrite Hh3. exact Hrows.
  - rewrite Hh3. exact Hrows.
Qed.

Lemma deckRows_In (d : Deck) (n : Note) (c : Card) :
  In c (cards (db d)) -> c_did c = topDeckID d ->
  In n (notes (db d)) -> n_id n = c_nid c ->
  In (n_flds n, n_tags n) (deckRows d).
Proof.
  intros Hc Hdid Hn Hid. unfold deckRows. apply in_flat_map. exists c.
  split; [exact Hc|]. rewrite Hdid, Z.eqb_refl.
  apply (in_map (fun n0 => (n_flds n0, n_tags n0))). apply filter_In.
  split; [exact Hn|now apply Z.eqb_eq].
Qed.

(** With a remote that takes every note or reports a duplicate, the loop
    runs to its end and sends a note for every row with two fields. *)
Lemma pushRows_sends (client : AnkiConnect) (d : Deck) (syncMedia : bool)
    (rows : list (string * string)) (h : list call) :
  (forall h0 note,
      (exists id, AddNote client h0 note = inl id)
      \/ exists err, AddNote client h0 note = inr err
                     /\ ErrorText err = duplicateMessage) ->
  snd (pushRows client d syncMedia rows h) = Done tt
  /\ forall flds tags front back more,
       In (flds, tags) rows -> Split flds "031"%char = front :: back :: more ->
       exists note,
         In (CallAddNote note) (fst (pushRows client d syncMedia rows h))
         /\ DeckName note = name d /\ ModelName note = "Basic"
         /\ NoteFields note = [("Front", front); ("Back", back)]
         /\ NoteTags note = (if String.eqb tags "" then [] else Fields tags)
         /\ noteMedia syncMedia front back
            = Done (Audio note, Picture note, Video note).
Proof.
  intros Hadd. revert h. induction rows as [|[flds0 tags0] rows IH]; intros h.
  - split; [reflexivity|]. intros ? ? ? ? ? [].
  - cbn [pushRows].
    destruct (Split flds0 "031"%char) as [|front0 [|back0 more0]] eqn:Esplit.
    + destruct (IH h) as [Hd Hs]. split; [exact Hd|].
      intros flds tags front back more [[= <- <-]|Hin] Hsp; [congruence|eauto].
    + destruct (IH h) as [Hd Hs]. split; [exact Hd|].
      intros flds tags front back more [[= <- <-]|Hin] Hsp; [congruence|eauto].
    + destruct (noteMedia_done syncMedia front0 back0) as (audio & picture & Hmedia & _).
      rewrite Hmedia.
      set (note := {| DeckName := name d; ModelName := "Basic";
                      NoteFields := [("Front", front0); ("Back", back0)];
                      NoteTags := if String.eqb tags0 "" then [] else Fields tags0;
                      Audio := audio; Picture := picture; Video := [];
                      Options := [("allowDuplicate", JBool false)] |}).
      destruct (IH (h ++ [CallAddNote note])%list) as [Hd Hs].
      destruct (pushRows_calls client d syncMedia rows (h ++ [CallAddNote note])%list)
        as (new & Hfst & _ & _).
      assert (Hgo : snd (pushRows client d syncMedia rows (h ++ [CallAddNote note])%list)
                    = Done tt
                    /\ forall flds tags front back more,
                         (flds0, tags0) = (flds, tags) \/ In (flds, tags) rows ->
                         Split flds "031"%char = front :: back :: more ->
                         exists nt,
                           In (CallAddNote nt)
                              (fst (pushRows client d syncMedia rows
                                      (h ++ [CallAddNote note])%list))
                           /\ DeckName nt = name d /\ ModelName nt = "Basic"
                           /\ NoteFields nt = [("Front", front); ("Back", back)]
                           /\ NoteTags nt = (if String.eqb tags "" then [] else Fields tags)
                           /\ noteMedia syncMedia front back
                              = Done (Audio nt, Picture nt, Video nt)).
      { split; [exact Hd|].
        intros flds tags front back more [[= <- <-]|Hin] Hsp; [|eauto].
        rewrite Esplit in Hsp. injection Hsp as <- <- _.
        exists note. split.
        - rewrite Hfst. apply in_or_app. left. apply in_or_app. right. now left.
        - repeat split. exact Hmedia. }
      destruct (Hadd h note) as [[id ->]|(err & -> & Herr)]; [exact Hgo|].
      rewrite Herr, String.eqb_refl. exact Hgo.
Qed.

(** X16: a card added with a front and a back that do not contain the
    separator U+001F is sent by a later push as a note of the deck whose
    fields Front and Back are that front and that back, and whose tags are
    the words of the stored tag text, provided the remote answers the
    ping, accepts the deck or reports that it exists, and takes each note
    or reports it as a duplicate; the push then returns no error. *)
Theorem added_card_is_pushed (client : AnkiConnect) (e : ExecEnv) (d : Deck)
    (front back : string) (opts : option CardOptions) (syncMedia : bool) (h : list call) :
  snd (AddCardWithOptions e d front back opts) = None ->
  lacks "031"%char front = true ->
  lacks "031"%char back = true ->
  tolerant client ->
  let d' := fst (AddCardWithOptions e d front back opts) in
  let r := PushToAnkiWithMedia client d' syncMedia h in
  snd r = Done tt
  /\ exists note,
       In (CallAddNote note) (fst r)
       /\ DeckName note = name d
       /\ ModelName note = "Basic"
       /\ NoteFields note = [("Front", front); ("Back", back)]
       /\ NoteTags note
          = (if String.eqb (tagsStr opts) "" then [] else Fields (tagsStr opts)).
Proof.
  intros Hok Hf Hb (Hping & Hcreate & Hadd) d' r.
  apply AddCardWithOptions_ok in Hok as [N C].
  destruct (AddCardWithOptions_rows e d front back opts N C)
    as (note & card & Hn & Hc & En & Ec).
  fold d' in Hn, Hc.
  destruct (AddCardWithOptions_ids e d front back opts) as (Htop & _ & _ & Hname).
  fold d' in Htop, Hname.
  assert (Hrow : In (front ++ separator ++ back, tagsStr opts) (deckRows d')).
  { replace (front ++ separator ++ back) with (n_flds note) by (rewrite En; reflexivity).
    replace (tagsStr opts) with (n_tags note) by (rewrite En; reflexivity).
    apply (deckRows_In d' note card).
    - rewrite Hc. apply In_upsert_new.
    - rewrite Ec, Htop. reflexivity.
    - rewrite Hn. apply In_upsert_new.
    - rewrite Ec. reflexivity. }
  unfold r, PushToAnkiWithMedia. rewrite Hping.
  assert (Hloop : forall h3,
            snd (pushRows client d' syncMedia (deckRows d') h3) = Done tt
            /\ exists nt,
                 In (CallAddNote nt) (fst (pushRows client d' syncMedia (deckRows d') h3))
                 /\ DeckName nt = name d /\ ModelName nt = "Basic"
                 /\ NoteFields nt = [("Front", front); ("Back", back)]
                 /\ NoteTags nt
                    = (if String.eqb (tagsStr opts) "" then [] else Fields (tagsStr opts))).
  { intros h3.
    destruct (pushRows_sends client d' syncMedia (deckRows d') h3 Hadd) as [Hd Hs].
    split; [exact Hd|].
    destruct (Hs _ _ front back [] Hrow (Split_front_back front back Hf Hb))
      as (nt & Hin & Hdn & Hmn & Hfl & Htg & _).
    exists nt. split; [exact Hin|]. split; [now rewrite Hdn|]. now repeat split. }
  destruct (Hcreate (h ++ [CallPing])%list (name d')) as [->|(err & -> & Herr)].
  - apply Hloop.
  - rewrite Herr, String.eqb_refl. cbn [negb]. apply Hloop.
Qed.

Lemma sampleClient_tolerant : tolerant sampleClient.
Proof.
  split; [reflexivity|]. split.
  - intros h deck. right. now exists (StoreError deckExistsMessage).
  - intros h note. left. now eexists.
Qed.

Lemma added_card_is_pushed_witness :
  let e := okExec 1700000000005 in
  let opts := Some {| Tags := ["tag1"; "multi word tag"] |} in
  let d' := fst (AddCardWithOptions e sampleDeck "Front" "Back" opts) in
  let r := PushToAnkiWithMedia sampleClient d' false [] in
  (snd (AddCardWithOptions e sampleDeck "Front" "Back" opts) = None
   /\ lacks "031"%char "Front" = true /\ lacks "031"%char "Back" = true
   /\ tolerant sampleClient)
  /\ snd r = Done tt
  /\ exists note,
       In (CallAddNote note) (fst r)
       /\ NoteFields note = [("Front", "Front"); ("Back", "Back")]
       /\ NoteTags note = ["tag1"; "multi_word_tag"].
Proof.
  intros e opts d' r.
  assert (H1 : snd (AddCardWithOptions e sampleDeck "Front" "Back" opts) = None)
    by reflexivity.
  assert (H2 : lacks "031"%char "Front" = true) by reflexivity.
  assert (H3 : lacks "031"%char "Back" = true) by reflexivity.
  split; [repeat split; try assumption; apply sampleClient_tolerant|].
  destruct (added_card_is_pushed sampleClient e sampleDeck "Front" "Back" opts false []
              H1 H2 H3 sampleClient_tolerant)
    as (Hdone & note & Hin & _ & _ & Hfields & Htags).
  split; [exact Hdone|]. exists note. split; [exact Hin|]. split; [exact Hfields|].
  rewrite Htags. vm_compute. reflexivity.
Defined.

(** X17: with media sync on, once the ping is answered and the deck is
    accepted or reported as existing, every file of the media registry is
    uploaded: the push calls [StoreMediaFile] for it whatever the uploads
    before it returned, and whatever happens to the notes afterwards. *)
Theorem push_stores_every_media (client : AnkiConnect) (d : Deck) (h : list call)
    (m : Media) :
  Ping client h = None ->
  (CreateDeck client (h ++ [CallPing])%list (name d) = None
   \/ exists err, CreateDeck client (h ++ [CallPing])%list (name d) = Some err
                  /\ ErrorText err = deckExistsMessage) ->
  In m (media d) ->
  In (CallStoreMediaFile (Filename m) (Data m))
     (fst (PushToAnkiWithMedia client d true h)).
Proof.
  intros Hping Hcreate Hm. unfold PushToAnkiWithMedia. rewrite Hping.
  assert (Hlen : (0 <? Z.of_nat (List.length (media d))) = true).
  { apply Z.ltb_lt. destruct (media d); [contradiction|cbn [List.length]; lia]. }
  cbn [andb]. rewrite Hlen.
  assert (Hloop : In (CallStoreMediaFile (Filename m) (Data m))
                     (fst (pushRows client d true (deckRows d)
                             (storeMediaFiles (media d)
                                ((h ++ [CallPing]) ++ [CallCreateDeck (name d)])%list)))).
  { destruct (pushRows_calls client d true (deckRows d)
                (storeMediaFiles (media d)
                   ((h ++ [CallPing]) ++ [CallCreateDeck (name d)])%list))
      as (new & -> & _).
    apply in_or_app. left. rewrite storeMediaFiles_calls. apply in_or_app. right.
    now apply (in_map (fun x => CallStoreMediaFile (Filename x) (Data x))). }
  destruct Hcreate as [->|(err & -> & Herr)]; [exact Hloop|].
  rewrite Herr, String.eqb_refl. exact Hloop.
Qed.

Lemma push_stores_every_media_witness :
  let d := AddMedia (AddMedia sampleDeck "a.png" [1]) "b.mp3" [2; 3] in
  (Ping sampleClient [] = None
   /\ (CreateDeck sampleClient ([] ++ [CallPing])%list (name d) = None
       \/ exists err, CreateDeck sampleClient ([] ++ [CallPing])%list (name d) = Some err
                      /\ ErrorText err = deckExistsMessage)
   /\ In {| Filename := "b.mp3"; Data := [2; 3] |} (media d))
  /\ In (CallStoreMediaFile "b.mp3" [2; 3]) (fst (PushToAnkiWithMedia sampleClient d true [])).
Proof.
  intros d.
  assert (H1 : Ping sampleClient [] = None) by reflexivity.
  assert (H2 : CreateDeck sampleClient ([] ++ [CallPing])%list (name d) = None
               \/ exists err, CreateDeck sampleClient ([] ++ [CallPing])%list (name d)
                              = Some err
                              /\ ErrorText err = deckExistsMessage).
  { right. now exists (StoreError deckExistsMessage). }
  assert (H3 : In {| Filename := "b.mp3"; Data := [2; 3] |} (media d))
    by (right; left; reflexivity).
  split; [repeat split; assumption|].
  exact (push_stores_every_media sampleClient d [] {| Filename := "b.mp3"; Data := [2; 3] |}
           H1 H2 H3).
Defined.

(** * The tag text read back by [strings.Fields] *)

Lemma append_empty_r (s : string) : s ++ "" = s.
Proof. induction s as [|c s IH]; simpl; [reflexivity|now rewrite IH]. Qed.

Lemma spaceWidth_wordByte (c : ascii) (rest : string) :
  wordByte c = true -> spaceWidth (String c rest) = 0%nat.
Proof.
  unfold wordByte, spaceWidth. intros H.
  apply andb_true_iff in H as [Hlt Hns]. apply Z.ltb_lt in Hlt.
  apply negb_true_iff in Hns. rewrite Hns.
  assert (H194 : (byteOf c =? 194) = false) by (apply Z.eqb_neq; lia).
  assert (H225 : (byteOf c =? 225) = false) by (apply Z.eqb_neq; lia).
  assert (H226 : (byteOf c =? 226) = false) by (apply Z.eqb_neq; lia).
  assert (H227 : (byteOf c =? 227) = false) by (apply Z.eqb_neq; lia).
  destruct rest as [|c1 [|c2 r2]]; [reflexivity| |];
    rewrite ?H194, ?H225, ?H226, ?H227; reflexivity.
Qed.

Lemma flushField_append (cur : string) (c : ascii) (w : string) :
  flushField (cur ++ String c w) = [cur ++ String c w].
Proof. destruct cur; reflexivity. Qed.

(** A run of word bytes followed by a space closes one field. *)
Lemma scanFields_word (w cur rest : string) :
  forallb wordByte (list_ascii_of_string w) = true ->
  scanFields 0 cur (w ++ String " "%char rest)
  = (flushField (cur ++ w) ++ scanFields 0 "" rest)%list.
Proof.
  revert cur. induction w as [|c w IH]; intros cur Hw.
  - cbn [append]. rewrite append_empty_r. reflexivity.
  - cbn [list_ascii_of_string forallb] in Hw. apply andb_true_iff in Hw as [Hc Hw].
    cbn [append scanFields]. rewrite (spaceWidth_wordByte c _ Hc).
    rewrite (IH _ Hw), append_assoc. reflexivity.
Qed.

Lemma underscoreSpaces_word (tag : string) :
  plainTag tag = true ->
  underscoreSpaces tag <> ""
  /\ forallb wordByte (list_ascii_of_string (underscoreSpaces tag)) = true.
Proof.
  unfold plainTag, underscoreSpaces. intros H.
  apply andb_true_iff in H as [Hne Hall]. split.
  - destruct tag; [discriminate|discriminate].
  - clear Hne. induction tag as [|c tag IH]; [reflexivity|].
    cbn [list_ascii_of_string forallb mapString] in Hall |- *.
    apply andb_true_iff in Hall as [Hc Hall]. rewrite (IH Hall), andb_true_r.
    destruct (Ascii.eqb c " "%char); [reflexivity|exact Hc].
Qed.

Lemma scanFields_tags (tags : list string) :
  forallb plainTag tags = true ->
  scanFields 0 "" (fold_right (fun tag acc => tag ++ " " ++ acc) ""
                              (map underscoreSpaces tags))
  = map underscoreSpaces tags.
Proof.
  induction tags as [|t tags IH]; intros Hall; [reflexivity|].
  cbn [forallb] in Hall. apply andb_true_iff in Hall as [Ht Hall].
  destruct (underscoreSpaces_word t Ht) as [Hne Hw].
  cbn [map fold_right].
  change (underscoreSpaces t ++ " " ++ ?x) with (underscoreSpaces t ++ String " "%char x).
  rewrite (scanFields_word _ "" _ Hw).
  change ("" ++ underscoreSpaces t) with (underscoreSpaces t).
  rewrite (IH Hall). destruct (underscoreSpaces t); [contradiction|reflexivity].
Qed.

(** X18: when every tag is not empty and consists of spaces and of bytes
    below 128 that are not white space, splitting the stored tag text with
    [strings.Fields], as the push does, gives back the tags in order, each
    with its spaces turned into underscores. *)
Theorem stored_tags_read_back (tags : list string) :
  forallb plainTag tags = true ->
  Fields (tagsStr (Some {| Tags := tags |})) = map underscoreSpaces tags.
Proof.
  intros Hall. rewrite tagsStr_wrapTags. cbn [optionTags Tags].
  destruct tags as [|t tags]; [reflexivity|].
  etransitivity; [|exact (scanFields_tags (t :: tags) Hall)]. reflexivity.
Qed.

Lemma stored_tags_read_back_witness :
  forallb plainTag ["tag1"; "tag2"; "multi word tag"] = true
  /\ Fields (tagsStr (Some {| Tags := ["tag1"; "tag2"; "multi word tag"] |}))
     = ["tag1"; "tag2"; "multi_word_tag"].
Proof.
  assert (H : forallb plainTag ["tag1"; "tag2"; "multi word tag"] = true) by reflexivity.
  split; [exact H|].
  exact (stored_tags_read_back ["tag1"; "tag2"; "multi word tag"] H).
Defined.

(** * Properties of the pull *)

Lemma upsert_length_le {R : Type} (key : R -> Z) (r : R) (l : list R) :
  (List.length (upsert key r l) <= S (List.length l))%nat.
Proof.
  unfold upsert. rewrite length_app. cbn [List.length].
  pose proof (filter_length_le (fun x => negb (key x =? key r)) l). lia.
Qed.

Lemma AddCardWithOptions_notes_cases (e : ExecEnv) (d : Deck) (front back : string)
    (opts : option CardOptions) :
  notes (db (fst (AddCardWithOptions e d front back opts))) = notes (db d)
  \/ exists note,
       notes (db (fst (AddCardWithOptions e d front back opts)))
       = upsert n_id note (notes (db d))
       /\ n_sfld note = integerAffinity front
       /\ n_flds note = front ++ separator ++ back
       /\ n_tags note = tagsStr opts.
Proof.
  unfold AddCardWithOptions. destruct (note_exec_err e); [now left|].
  right. eexists. destruct (card_exec_err e); cbn; repeat split.
Qed.

Lemma cards_have_notes_AddCardWithOptions (e : ExecEnv) (d : Deck) (front back : string)
    (opts : option CardOptions) :
  cards_have_notes d -> cards_have_notes (fst (AddCardWithOptions e d front back opts)).
Proof.
  intros H. unfold AddCardWithOptions.
  destruct (note_exec_err e); [exact H|].
  assert (Hold : forall nt c, In c (cards (db d)) ->
            exists n, In n (upsert n_id nt (notes (db d))) /\ n_id n = c_nid c).
  { intros nt c Hc. destruct (H c Hc) as (n & Hn & Hid).
    destruct (Z.eq_dec (n_id n) (n_id nt)) as [Heq|Hne].
    - exists nt. split; [apply In_upsert_new|congruence].
    - exists n. split; [now apply In_upsert_other|exact Hid]. }
  destruct (card_exec_err e); cbn [fst]; intros c Hc; cbn in Hc |- *.
  - now apply Hold.
  - apply In_upsert_inv in Hc as [->|[Hc _]]; [|now apply Hold].
    eexists. split; [apply In_upsert_new|reflexivity].
Qed.

Lemma pullNotes_keeps (P : Deck -> Prop) (env : PullEnv) :
  (forall e d front back opts, P d -> P (fst (AddCardWithOptions e d front back opts))) ->
  forall infos i d, P d -> P (fst (pullNotes env i infos d)).
Proof.
  intros Hstep. induction infos as [|info infos IH]; intros i d Hd; [exact Hd|].
  cbn [pullNotes].
  destruct (map_get "fields" info) as [[| | | | |fields]|]; try now apply IH.
  destruct (snd (AddCardWithOptions _ d _ _ _)); cbn [fst];
    [now apply Hstep|apply IH; now apply Hstep].
Qed.

Lemma pullNotes_fromRemote (env : PullEnv) (all : list (gomap json)) :
  forall infos i d,
    incl infos all ->
    (forall n, In n (notes (db d)) -> fromRemote all n) ->
    forall n, In n (notes (db (fst (pullNotes env i infos d)))) -> fromRemote all n.
Proof.
  induction infos as [|info infos IH]; intros i d Hincl Hd; [exact Hd|].
  assert (Hrest : incl infos all) by (intros x Hx; apply Hincl; now right).
  cbn [pullNotes].
  destruct (map_get "fields" info) as [[| | | | |fields]|] eqn:Ef; try now apply IH.
  assert (Hstep : forall n,
            In n (notes (db (fst (AddCardWithOptions (add_env env i) d
                                    (fieldValue fields "Front") (fieldValue fields "Back")
                                    (Some {| Tags := infoTags info |}))))) ->
            fromRemote all n).
  { intros n Hn.
    destruct (AddCardWithOptions_notes_cases (add_env env i) d
                (fieldValue fields "Front") (fieldValue fields "Back")
                (Some {| Tags := infoTags info |}))
      as [Heq|(note & Heq & Hs & Hf & Ht)]; rewrite Heq in Hn; [now apply Hd|].
    apply In_upsert_inv in Hn as [->|[Hn _]]; [|now apply Hd].
    exists info, fields. repeat split; try assumption. apply Hincl. now left. }
  destruct (snd (AddCardWithOptions _ d _ _ _)); cbn [fst]; [exact Hstep|].
  now apply IH.
Qed.

Lemma pullNotes_length (env : PullEnv) :
  forall infos i d,
    (List.length (notes (db (fst (pullNotes env i infos d))))
     <= List.length (notes (db d)) + List.length infos)%nat.
Proof.
  induction infos as [|info infos IH]; intros i d; [cbn; lia|].
  cbn [pullNotes List.length].
  destruct (map_get "fields" info) as [[| | | | |fields]|];
    try (specialize (IH (S i) d); lia).
  assert (Hstep : (List.length
                     (notes (db (fst (AddCardWithOptions (add_env env i) d
                                        (fieldValue fields "Front")
                                        (fieldValue fields "Back")
                                        (Some {| Tags := infoTags info |})))))
                   <= S (List.length (notes (db d))))%nat).
  { destruct (AddCardWithOptions_notes_cases (add_env env i) d
                (fieldValue fields "Front") (fieldValue fields "Back")
                (Some {| Tags := infoTags info |}))
      as [->|(note & -> & _)]; [lia|apply upsert_length_le]. }
  destruct (snd (AddCardWithOptions _ d _ _ _)); cbn [fst]; [lia|].
  specialize (IH (S i) (fst (AddCardWithOptions (add_env env i) d
                               (fieldValue fields "Front") (fieldValue fields "Back")
                               (Some {| Tags := infoTags info |})))).
  lia.
Qed.

(** X19: when the remote deck has notes and [PullFromAnki] returns no
    error on a deck built by the package, the local content is replaced:
    every note of the deck afterwards has the front, back and tags of an
    entry of the remote list that carries a fields object (and as sort
    field what the integer-declared column keeps of that front), there are at
    most as many notes as entries, every card refers to a note of the
    store, and the deck is again one the package can build.  The client was
    called three times: ping, findNotes for the deck's name, notesInfo. *)
Theorem pull_replaces_local (client : AnkiConnect) (env : PullEnv) (d d' : Deck)
    (h h' : list call) (noteIDs : list Z) (notesInfo : list (gomap json)) :
  reachable d ->
  Ping client h = None ->
  FindNotes client (h ++ [CallPing])%list ("deck:" ++ dq ++ name d ++ dq) = inl noteIDs ->
  noteIDs <> [] ->
  GetNotesInfo client
    ((h ++ [CallPing]) ++ [CallFindNotes ("deck:" ++ dq ++ name d ++ dq)])%list noteIDs
  = inl notesInfo ->
  PullFromAnki client env d h = (d', h', None) ->
  reachable d'
  /\ (forall n, In n (notes (db d')) -> fromRemote notesInfo n)
  /\ (List.length (notes (db d')) <= List.length notesInfo)%nat
  /\ cards_have_notes d'
  /\ h' = (h ++ [CallPing; CallFindNotes ("deck:" ++ dq ++ name d ++ dq);
                 CallGetNotesInfo noteIDs])%list.
Proof.
  intros Hreach Hping Hfind Hne Hinfo. unfold PullFromAnki.
  rewrite Hping, Hfind. destruct noteIDs as [|id ids]; [contradiction|].
  rewrite Hinfo.
  destruct (delete_cards_err env); [discriminate|].
  destruct (delete_notes_err env); [discriminate|].
  intros [= <- <- Hnone].
  assert (Hstart : reachable (clearNotes (clearCards d)))
    by (apply reach_clear_notes; now apply reach_clear_cards).
  split.
  { apply (pullNotes_keeps reachable); [|exact Hstart].
    intros e0 d0 f b o Hd0. now apply reach_add_card. }
  split.
  { apply (pullNotes_fromRemote env notesInfo notesInfo 0 _ (incl_refl _)).
    intros n []. }
  split.
  { pose proof (pullNotes_length env notesInfo 0 (clearNotes (clearCards d))) as Hl.
    cbn [clearNotes with_db with_notes db notes List.length] in Hl. exact Hl. }
  split.
  { apply (pullNotes_keeps cards_have_notes).
    - intros e0 d0 f b o Hd0. now apply cards_have_notes_AddCardWithOptions.
    - intros c Hc. exfalso.
      assert (Hnil : cards (db (clearNotes (clearCards d))) = []).
      { change (cards (db (clearNotes (clearCards d)))) with (cards (db (clearCards d))).
        apply clearCards_nil. now apply reachable_rows_wf. }
      rewrite Hnil in Hc. contradiction. }
  rewrite <- !app_assoc. reflexivity.
Qed.

Lemma pull_replaces_local_witness :
  let d := fst (AddCard (okExec 1700000000005) sampleDeck "Old front" "Old back") in
  let r := PullFromAnki sampleClient samplePull d [] in
  (reachable d
   /\ Ping sampleClient [] = None
   /\ FindNotes sampleClient ([] ++ [CallPing])%list ("deck:" ++ dq ++ name d ++ dq)
      = inl [101; 102]
   /\ [101; 102] <> []
   /\ PullFromAnki sampleClient samplePull d [] = (fst (fst r), snd (fst r), None))
  /\ map n_flds (notes (db (fst (fst r))))
     = ["Bonjour" ++ separator ++ "Hello"; "Merci" ++ separator ++ ""]
  /\ cards_have_notes (fst (fst r)).
Proof.
  intros d r.
  assert (H1 : reachable d).
  { apply reach_add_card. apply (reach_new sampleInit "Test Deck" None).
    vm_compute. reflexivity. }
  assert (H2 : Ping sampleClient [] = None) by reflexivity.
  assert (H3 : FindNotes sampleClient ([] ++ [CallPing])%list
                 ("deck:" ++ dq ++ name d ++ dq) = inl [101; 102]) by reflexivity.
  assert (H4 : [101; 102] <> []) by discriminate.
  assert (H5 : PullFromAnki sampleClient samplePull d [] = (fst (fst r), snd (fst r), None))
    by (vm_compute; reflexivity).
  split; [repeat split; assumption|].
  split; [vm_compute; reflexivity|].
  exact (proj1 (proj2 (proj2 (proj2
           (pull_replaces_local sampleClient samplePull d (fst (fst r)) []
              (snd (fst r)) [101; 102] _ H1 H2 H3 H4 eq_refl H5))))).
Defined.

(** * Which faults make [Save] fail *)

Lemma writeMediaFiles_done_iff (e : SaveEnv) (ms : list Media) (k : nat)
    (w : list ZipEntry) :
  (exists w', writeMediaFiles e (Z.of_nat k) ms w = Done w')
  <-> (forall i, (i < List.length ms)%nat ->
         zip_create_err e (Itoa (Z.of_nat (k + i))) = None
         /\ zip_write_err e (Itoa (Z.of_nat (k + i))) = None).
Proof.
  revert k w. induction ms as [|m ms IH]; intros k w.
  - split; [intros _ i Hi; cbn in Hi; lia|intros _; now exists w].
  - cbn [writeMediaFiles List.length]. unfold check, bind.
    replace (Z.of_nat k + 1) with (Z.of_nat (S k)) by lia.
    split.
    + intros [w' H].
      destruct (zip_create_err e (Itoa (Z.of_nat k))) eqn:Ec; [discriminate|].
      destruct (zip_write_err e (Itoa (Z.of_nat k))) eqn:Ew; [discriminate|].
      intros [|i] Hi.
      * rewrite Nat.add_0_r. now split.
      * replace (k + S i)%nat with (S k + i)%nat by lia.
        eapply (proj1 (IH (S k) _)); [exists w'; exact H|lia].
    + intros H. destruct (H 0%nat ltac:(lia)) as [Hc Hw].
      rewrite Nat.add_0_r in Hc, Hw. rewrite Hc, Hw.
      apply (proj2 (IH (S k) _)). intros i Hi.
      replace (S k + i)%nat with (k + S i)%nat by lia. apply H. lia.
Qed.

(** X20: [Save] returns an archive exactly when the snapshot of the
    database succeeds, creating and writing succeed for each entry the
    archive is to hold (collection.anki2, media, and the decimal index of
    every media file), and closing the writer succeeds; the writer's
    answer for any other entry name does not matter. *)
Theorem Save_succeeds_iff (e : SaveEnv) (d : Deck) :
  (exists entries, Save e d = Done entries)
  <-> (export_err e = None
       /\ (forall entry,
             In entry ("collection.anki2" :: "media"
                       :: map (fun i => Itoa (Z.of_nat i))
                              (seq 0 (List.length (media d)))) ->
             zip_create_err e entry = None /\ zip_write_err e entry = None)
       /\ zip_close_err e = None).
Proof.
  unfold Save, exportDatabase, check, bind. split.
  - intros [entries H].
    destruct (export_err e); [discriminate|].
    destruct (zip_create_err e "collection.anki2") eqn:E1; [discriminate|].
    destruct (zip_write_err e "collection.anki2") eqn:E2; [discriminate|].
    destruct (zip_create_err e "media") eqn:E3; [discriminate|].
    destruct (zip_write_err e "media") eqn:E4; [discriminate|].
    destruct (writeMediaFiles e 0 (media d) _) as [w| |] eqn:Hw; try discriminate.
    destruct (zip_close_err e); [discriminate|].
    split; [reflexivity|]. split; [|reflexivity].
    intros entry [<-|[<-|Hin]]; [now split|now split|].
    apply in_map_iff in Hin as (i & <- & Hi). apply in_seq in Hi.
    change 0 with (Z.of_nat 0) in Hw.
    eapply (proj1 (writeMediaFiles_done_iff e (media d) 0 _));
      [exists w; exact Hw|lia].
  - intros (He & Hall & Hclose). rewrite He.
    destruct (Hall "collection.anki2" (or_introl eq_refl)) as [-> ->].
    destruct (Hall "media" (or_intror (or_introl eq_refl))) as [-> ->].
    destruct (proj2 (writeMediaFiles_done_iff e (media d) 0
                       ([{| entryName := "collection.anki2";
                            entryBody := Raw (sqlite_file e (db d)) |}]
                        ++ [{| entryName := "media";
                               entryBody :=
                                 JSONText (marshalStringMap
                                             (buildMediaMap 0 (media d) [])) |}])%list))
      as [w Hw].
    { intros i Hi. apply Hall. right. right.
      apply (in_map (fun i0 => Itoa (Z.of_nat i0))). apply in_seq. lia. }
    change (Z.of_nat 0) with 0 in Hw. rewrite Hw, Hclose. now exists w.
Qed.

(** * Synchronisation *)

Lemma existingNotes_lookup (overflow : Z -> Z) (infos : list (gomap json))
    (m : gomap Z) (k : string) (id : Z) :
  map_get k (existingNotes overflow infos m) = Some id ->
  map_get k m = Some id \/ remoteEntry overflow infos k id.
Proof.
  revert m. induction infos as [|noteInfo infos IH]; intros m H; [now left|].
  assert (Hrest : forall m', map_get k (existingNotes overflow infos m') = Some id ->
                    map_get k m' = Some id \/ remoteEntry overflow (noteInfo :: infos) k id).
  { intros m' H'. destruct (IH m' H') as [Hm|(ni & fs & z & Hin & Hrem)]; [now left|].
    right. exists ni, fs, z. split; [now right|exact Hrem]. }
  cbn [existingNotes] in H.
  destruct (map_get "fields" noteInfo) as [[| | | | |fields]|] eqn:Ef; try (now apply Hrest).
  destruct (map_get "noteId" noteInfo) as [[| |z| | |]|] eqn:Ei; try (now apply Hrest).
  destruct (Hrest _ H) as [Hm|Hr]; [|now right].
  destruct (string_dec (contentKey (fieldValue fields "Front") (fieldValue fields "Back")) k)
    as [Hk|Hk].
  - rewrite Hk, map_get_set_same in Hm. injection Hm as <-.
    right. exists noteInfo, fields, z. repeat split; try assumption. now left.
  - rewrite map_get_set_other in Hm by exact Hk. now left.
Qed.

Lemma existingNotes_found (overflow : Z -> Z) (infos : list (gomap json))
    (m : gomap Z) (k : string) :
  (map_get k m <> None \/ exists id0, remoteEntry overflow infos k id0) ->
  exists id, map_get k (existingNotes overflow infos m) = Some id.
Proof.
  revert m. induction infos as [|noteInfo infos IH]; intros m H.
  - destruct H as [H|(id0 & ni & fs & z & [] & _)].
    cbn. destruct (map_get k m) as [id|]; [now exists id|congruence].
  - assert (Hkeep : forall key v, map_get k m <> None -> map_get k (map_set key v m) <> None).
    { intros key v Hm. destruct (string_dec key k) as [->|Hk].
      - rewrite map_get_set_same. discriminate.
      - now rewrite map_get_set_other. }
    cbn [existingNotes].
    destruct H as [Hm|(id0 & ni & fs & z & [<-|Hin] & Hf & Hi & Hk & Hid)].
    + destruct (map_get "fields" noteInfo) as [[| | | | |fields]|];
        try (apply IH; now left).
      destruct (map_get "noteId" noteInfo) as [[| |z| | |]|]; try (apply IH; now left).
      apply IH. left. now apply Hkeep.
    + rewrite Hf, Hi. apply IH. left. rewrite Hk, map_get_set_same. discriminate.
    + assert (Hr : exists id1, remoteEntry overflow infos k id1).
      { exists id0, ni, fs, z. now repeat split. }
      destruct (map_get "fields" noteInfo) as [[| | | | |fields]|];
        try (apply IH; now right).
      destruct (map_get "noteId" noteInfo) as [[| |z'| | |]|]; apply IH; now right.
Qed.

(** The loop only appends calls, each an update of a note found under the
    content key or a new note whose content key was not found, and it does
    not panic. *)
Lemma syncRows_calls (client : AnkiConnect) (d : Deck) (m : gomap Z) (syncMedia : bool)
    (rows : list (string * string)) (h : list call) :
  exists new,
    fst (syncRows client d m syncMedia rows h) = (h ++ new)%list
    /\ Forall (syncRowCall m) new
    /\ snd (syncRows client d m syncMedia rows h) <> Panicked.
Proof.
  revert h. induction rows as [|[flds tags] rows IH]; intros h.
  - exists []. cbn. rewrite app_nil_r. repeat split; [constructor|discriminate].
  - cbn [syncRows].
    destruct (Split flds "031"%char) as [|front [|back more]]; try apply IH.
    destruct (map_get (contentKey front back) m) as [noteID|] eqn:Ek.
    + assert (Hc : syncRowCall m (CallUpdateNoteFields noteID
                                    [("Front", front); ("Back", back)])).
      { cbn. now exists front, back. }
      destruct (UpdateNoteFields client h noteID [("Front", front); ("Back", back)]).
      * eexists. cbn [fst snd]. repeat split; [now constructor|discriminate].
      * destruct (IH (h ++ [CallUpdateNoteFields noteID
                              [("Front", front); ("Back", back)]])%list)
          as (new & Hfst & Hall & Hsnd).
        exists (CallUpdateNoteFields noteID [("Front", front); ("Back", back)] :: new).
        rewrite Hfst, <- app_assoc. repeat split; [now constructor|exact Hsnd].
    + destruct (noteMedia_done syncMedia front back) as (audio & picture & -> & _).
      set (note := {| DeckName := name d; ModelName := "Basic";
                      NoteFields := [("Front", front); ("Back", back)];
                      NoteTags := if String.eqb tags "" then [] else Fields tags;
                      Audio := audio; Picture := picture; Video := [];
                      Options := [("allowDuplicate", JBool false)] |}).
      assert (Hc : syncRowCall m (CallAddNote note)).
      { cbn. now exists front, back. }
      destruct (IH (h ++ [CallAddNote note])%list) as (new & Hfst & Hall & Hsnd).
      assert (Hgo : exists new0,
                 fst (syncRows client d m syncMedia rows (h ++ [CallAddNote note])%list)
                 = (h ++ new0)%list
                 /\ Forall (syncRowCall m) new0
                 /\ snd (syncRows client d m syncMedia rows (h ++ [CallAddNote note])%list)
                    <> Panicked).
      { exists (CallAddNote note :: new). rewrite Hfst, <- app_assoc.
        repeat split; [now constructor|exact Hsnd]. }
      destruct (AddNote client h note) as [id|err]; [exact Hgo|].
      destruct (negb (String.eqb (ErrorText err) duplicateMessage)); [|exact Hgo].
      exists [CallAddNote note]. cbn [fst snd].
      repeat split; [now constructor|discriminate].
Qed.

(** With a remote that accepts every update and takes every note or
    reports a duplicate, the loop runs to its end; a row with two fields
    is sent as an update when its content key is in the map and as a new
    note otherwise. *)
Lemma syncRows_sends (client : AnkiConnect) (d : Deck) (m : gomap Z) (syncMedia : bool)
    (rows : list (string * string)) (h : list call) :
  (forall h0 id fs, UpdateNoteFields client h0 id fs = None) ->
  (forall h0 note,
      (exists id, AddNote client h0 note = inl id)
      \/ exists err, AddNote client h0 note = inr err
                     /\ ErrorText err = duplicateMessage) ->
  snd (syncRows client d m syncMedia rows h) = Done tt
  /\ forall flds tags front back more,
       In (flds, tags) rows -> Split flds "031"%char = front :: back :: more ->
       match map_get (contentKey front back) m with
       | Some id =>
           In (CallUpdateNoteFields id [("Front", front); ("Back", back)])
              (fst (syncRows client d m syncMedia rows h))
       | None =>
           exists note,
             In (CallAddNote note) (fst (syncRows client d m syncMedia rows h))
             /\ DeckName note = name d
             /\ NoteFields note = [("Front", front); ("Back", back)]
             /\ NoteTags note = (if String.eqb tags "" then [] else Fields tags)
       end.
Proof.
  intros Hupd Hadd. revert h. induction rows as [|[flds0 tags0] rows IH]; intros h.
  - split; [reflexivity|]. intros ? ? ? ? ? [].
  - cbn [syncRows].
    destruct (Split flds0 "031"%char) as [|front0 [|back0 more0]] eqn:Esplit.
    + destruct (IH h) as [Hd Hs]. split; [exact Hd|].
      intros flds tags front back more [[= <- <-]|Hin] Hsp; [congruence|exact (Hs _ _ _ _ _ Hin Hsp)].
    + destruct (IH h) as [Hd Hs]. split; [exact Hd|].
      intros flds tags front back more [[= <- <-]|Hin] Hsp; [congruence|exact (Hs _ _ _ _ _ Hin Hsp)].
    + destruct (map_get (contentKey front0 back0) m) as [noteID|] eqn:Ek.
      * rewrite Hupd.
        set (c := CallUpdateNoteFields noteID [("Front", front0); ("Back", back0)]).
        destruct (IH (h ++ [c])%list) as [Hd Hs].
        destruct (syncRows_calls client d m syncMedia rows (h ++ [c])%list)
          as (new & Hfst & _ & _).
        split; [exact Hd|].
        intros flds tags front back more [[= <- <-]|Hin] Hsp; [|exact (Hs _ _ _ _ _ Hin Hsp)].
        rewrite Esplit in Hsp. injection Hsp as <- <- _. rewrite Ek, Hfst.
        apply in_or_app. left. apply in_or_app. right. now left.
      * destruct (noteMedia_done syncMedia front0 back0) as (audio & picture & -> & _).
        set (note := {| DeckName := name d; ModelName := "Basic";
                        NoteFields := [("Front", front0); ("Back", back0)];
                        NoteTags := if String.eqb tags0 "" then [] else Fields tags0;
                        Audio := audio; Picture := picture; Video := [];
                        Options := [("allowDuplicate", JBool false)] |}).
        destruct (IH (h ++ [CallAddNote note])%list) as [Hd Hs].
        destruct (syncRows_calls client d m syncMedia rows (h ++ [CallAddNote note])%list)
          as (new & Hfst & _ & _).
        assert (Hgo : snd (syncRows client d m syncMedia rows (h ++ [CallAddNote note])%list)
                      = Done tt
                      /\ forall flds tags front back more,
                           (flds0, tags0) = (flds, tags) \/ In (flds, tags) rows ->
                           Split flds "031"%char = front :: back :: more ->
                           match map_get (contentKey front back) m with
                           | Some id =>
                               In (CallUpdateNoteFields id [("Front", front); ("Back", back)])
                                  (fst (syncRows client d m syncMedia rows
                                          (h ++ [CallAddNote note])%list))
                           | None =>
                               exists nt,
                                 In (CallAddNote nt)
                                    (fst (syncRows client d m syncMedia rows
                                            (h ++ [CallAddNote note])%list))
                                 /\ DeckName nt = name d
                                 /\ NoteFields nt = [("Front", front); ("Back", back)]
                                 /\ NoteTags nt
                                    = (if String.eqb tags "" then [] else Fields tags)
                           end).
        { split; [exact Hd|].
          intros flds tags front back more [[= <- <-]|Hin] Hsp; [|exact (Hs _ _ _ _ _ Hin Hsp)].
          rewrite Esplit in Hsp. injection Hsp as <- <- _. rewrite Ek.
          exists note. split; [|now repeat split].
          rewrite Hfst. apply in_or_app. left. apply in_or_app. right. now left. }
        destruct (Hadd h note) as [[id ->]|(err & -> & Herr)]; [exact Hgo|].
        rewrite Herr, String.eqb_refl. exact Hgo.
Qed.

(** The row of a card that was just added. *)
Lemma added_card_row (e : ExecEnv) (d : Deck) (front back : string)
    (opts : option CardOptions) :
  snd (AddCardWithOptions e d front back opts) = None ->
  In (front ++ separator ++ back, tagsStr opts)
     (deckRows (fst (AddCardWithOptions e d front back opts))).
Proof.
  intros Hok. apply AddCardWithOptions_ok in Hok as [N C].
  destruct (AddCardWithOptions_rows e d front back opts N C)
    as (note & card & Hn & Hc & En & Ec).
  destruct (AddCardWithOptions_ids e d front back opts) as (Htop & _ & _ & Hname).
  replace (front ++ separator ++ back) with (n_flds note) by (rewrite En; reflexivity).
  replace (tagsStr opts) with (n_tags note) by (rewrite En; reflexivity).
  apply (deckRows_In _ note card).
  - rewrite Hc. apply In_upsert_new.
  - rewrite Ec, Htop. reflexivity.
  - rewrite Hn. apply In_upsert_new.
  - rewrite Ec. reflexivity.
Qed.


(** When the remote deck holds notes and updating is on, [SyncToAnki]
    comes down to the loop over the rows, run after calls that neither add
    nor update a note. *)
Lemma SyncToAnki_update_path (overflow : Z -> Z) (client : AnkiConnect) (d : Deck)
    (so : option SyncOptions) (h : list call) (ids : list Z)
    (infos : list (gomap json)) :
  Ping client h = None ->
  (CreateDeck client (h ++ [CallPing])%list (name d) = None
   \/ exists err, CreateDeck client (h ++ [CallPing])%list (name d) = Some err
                  /\ ErrorText err = deckExistsMessage) ->
  (forall o, so = Some o -> UpdateExisting o = true) ->
  FindNotes client ((h ++ [CallPing]) ++ [CallCreateDeck (name d)])%list
    ("deck:" ++ dq ++ name d ++ dq) = inl ids ->
  ids <> [] ->
  GetNotesInfo client
    (((h ++ [CallPing]) ++ [CallCreateDeck (name d)])
     ++ [CallFindNotes ("deck:" ++ dq ++ name d ++ dq)])%list ids = inl infos ->
  exists prefix syncMedia,
    SyncToAnki overflow client d so h
    = syncRows client d (existingNotes overflow infos []) syncMedia (deckRows d)
        (h ++ prefix)%list
    /\ Forall (fun c => match c with
                        | CallAddNote _ | CallUpdateNoteFields _ _ => False
                        | _ => True
                        end) prefix.
Proof.
  intros Hping Hcreate Hso Hfind Hids Hinfo. unfold SyncToAnki. rewrite Hping.
  set (syncOpts := match so with
                   | Some o => o
                   | None => {| UpdateExisting := true; DeleteMissing := false;
                                SyncMedia := false |}
                   end).
  assert (Hupd : UpdateExisting syncOpts = true).
  { unfold syncOpts. destruct so as [o|]; [now apply Hso|reflexivity]. }
  assert (Hlen : (0 <? Z.of_nat (List.length ids)) = true).
  { destruct ids; [congruence|]. apply Z.ltb_lt. cbn [List.length]. lia. }
  assert (Hgo : exists prefix syncMedia,
            (if UpdateExisting syncOpts && (0 <? Z.of_nat (List.length ids))
             then
               match GetNotesInfo client
                       (((h ++ [CallPing]) ++ [CallCreateDeck (name d)])
                        ++ [CallFindNotes ("deck:" ++ dq ++ name d ++ dq)])%list ids with
               | inl notesInfo =>
                   syncWithExisting client d (existingNotes overflow notesInfo [])
                     (SyncMedia syncOpts)
                     ((((h ++ [CallPing]) ++ [CallCreateDeck (name d)])
                       ++ [CallFindNotes ("deck:" ++ dq ++ name d ++ dq)])
                      ++ [CallGetNotesInfo ids])%list
               | inr err =>
                   (((((h ++ [CallPing]) ++ [CallCreateDeck (name d)])
                      ++ [CallFindNotes ("deck:" ++ dq ++ name d ++ dq)])
                     ++ [CallGetNotesInfo ids])%list,
                    Failed (Wrapped "failed to get notes info" err))
               end
             else PushToAnkiWithMedia client d (SyncMedia syncOpts)
                    (((h ++ [CallPing]) ++ [CallCreateDeck (name d)])
                     ++ [CallFindNotes ("deck:" ++ dq ++ name d ++ dq)])%list)
            = syncRows client d (existingNotes overflow infos []) syncMedia (deckRows d)
                (h ++ prefix)%list
            /\ Forall (fun c => match c with
                                | CallAddNote _ | CallUpdateNoteFields _ _ => False
                                | _ => True
                                end) prefix).
  { rewrite Hupd, Hlen, Hinfo. cbn [andb]. unfold syncWithExisting.
    destruct (SyncMedia syncOpts && (0 <? Z.of_nat (List.length (media d)))).
    - rewrite storeMediaFiles_calls.
      exists ([CallPing; CallCreateDeck (name d);
               CallFindNotes ("deck:" ++ dq ++ name d ++ dq); CallGetNotesInfo ids]
              ++ map (fun m => CallStoreMediaFile (Filename m) (Data m)) (media d))%list,
             (SyncMedia syncOpts).
      split; [now rewrite <- !app_assoc|].
      repeat (constructor; [exact I|]). apply Forall_forall. intros c Hc.
      apply in_map_iff in Hc as (m & <- & _). exact I.
    - exists [CallPing; CallCreateDeck (name d);
              CallFindNotes ("deck:" ++ dq ++ name d ++ dq); CallGetNotesInfo ids],
             (SyncMedia syncOpts).
      split; [now rewrite <- !app_assoc|]. repeat constructor. }
  destruct Hcreate as [->|(err & -> & Herr)].
  - rewrite Hfind. exact Hgo.
  - rewrite Herr, String.eqb_refl. cbn [negb]. rewrite Hfind. exact Hgo.
Qed.

(** X21: a card added with a front and a back that do not contain the
    separator is updated, not added, by a later [SyncToAnki] when the
    remote deck holds a note whose Front and Back give the same content key
    (front, a bar, back): the sync calls [UpdateNoteFields] with that front
    and back for the id of such a remote note and sends no new note with
    these fields.  The remote is taken to answer the ping, accept the deck
    or report it as existing, list its notes, accept updates, and take each
    note or report a duplicate; updating is on (the default). *)
Theorem sync_updates_matching_note (overflow : Z -> Z) (client : AnkiConnect)
    (e : ExecEnv) (d : Deck) (front back : string) (opts : option CardOptions)
    (so : option SyncOptions) (h : list call) (ids : list Z)
    (infos : list (gomap json)) (id0 : Z) :
  snd (AddCardWithOptions e d front back opts) = None ->
  lacks "031"%char front = true ->
  lacks "031"%char back = true ->
  tolerant client ->
  (forall h0 id fs, UpdateNoteFields client h0 id fs = None) ->
  (forall o, so = Some o -> UpdateExisting o = true) ->
  FindNotes client ((h ++ [CallPing]) ++ [CallCreateDeck (name d)])%list
    ("deck:" ++ dq ++ name d ++ dq) = inl ids ->
  ids <> [] ->
  GetNotesInfo client
    (((h ++ [CallPing]) ++ [CallCreateDeck (name d)])
     ++ [CallFindNotes ("deck:" ++ dq ++ name d ++ dq)])%list ids = inl infos ->
  remoteEntry overflow infos (contentKey front back) id0 ->
  let d' := fst (AddCardWithOptions e d front back opts) in
  let r := SyncToAnki overflow client d' so h in
  snd r = Done tt
  /\ (exists id,
        remoteEntry overflow infos (contentKey front back) id
        /\ In (CallUpdateNoteFields id [("Front", front); ("Back", back)]) (fst r))
  /\ forall note,
       In (CallAddNote note) (fst r) ->
       In (CallAddNote note) h \/ NoteFields note <> [("Front", front); ("Back", back)].
Proof.
  intros Hok Hf Hb (Hping & Hcreate & Hadd) Hupd Hso Hfind Hids Hinfo Hrem d' r.
  pose proof (added_card_row e d front back opts Hok) as Hrow. fold d' in Hrow.
  destruct (AddCardWithOptions_ids e d front back opts) as (_ & _ & _ & Hname).
  fold d' in Hname. rewrite <- Hname in Hfind, Hinfo.
  destruct (SyncToAnki_update_path overflow client d' so h ids infos
              (Hping h) (Hcreate _ _) Hso Hfind Hids Hinfo)
    as (prefix & syncMedia & Hsync & Hprefix).
  unfold r. rewrite Hsync.
  set (m := existingNotes overflow infos []).
  destruct (existingNotes_found overflow infos [] (contentKey front back))
    as [id Hid]; [right; now exists id0|]. fold m in Hid.
  destruct (syncRows_sends client d' m syncMedia (deckRows d') (h ++ prefix)%list
              Hupd Hadd) as [Hdone Hsends].
  specialize (Hsends _ _ front back [] Hrow (Split_front_back front back Hf Hb)).
  rewrite Hid in Hsends.
  destruct (syncRows_calls client d' m syncMedia (deckRows d') (h ++ prefix)%list)
    as (new & Hfst & Hnew & _).
  split; [exact Hdone|]. split.
  - exists id. split; [|exact Hsends].
    destruct (existingNotes_lookup overflow infos [] _ _ Hid) as [Hnil|Hr];
      [discriminate|exact Hr].
  - intros note Hin. rewrite Hfst in Hin.
    apply in_app_or in Hin as [Hin|Hin]; [apply in_app_or in Hin as [Hin|Hin]|].
    + now left.
    + exfalso. exact (proj1 (Forall_forall _ _) Hprefix _ Hin).
    + right. intros Hfields.
      destruct (proj1 (Forall_forall _ _) Hnew _ Hin) as (f & b & Hfb & Hnone).
      rewrite Hfields in Hfb. injection Hfb as <- <-. congruence.
Qed.

(** X22: under the same assumptions on the remote, a card added with a
    front and a back whose content key no remote note has is sent by
    [SyncToAnki] as a new note of the deck with these fields and the words
    of the stored tag text as tags, and no update is called with these
    fields. *)
Theorem sync_adds_unmatched_card (overflow : Z -> Z) (client : AnkiConnect)
    (e : ExecEnv) (d : Deck) (front back : string) (opts : option CardOptions)
    (so : option SyncOptions) (h : list call) (ids : list Z)
    (infos : list (gomap json)) :
  snd (AddCardWithOptions e d front back opts) = None ->
  lacks "031"%char front = true ->
  lacks "031"%char back = true ->
  tolerant client ->
  (forall h0 id fs, UpdateNoteFields client h0 id fs = None) ->
  (forall o, so = Some o -> UpdateExisting o = true) ->
  FindNotes client ((h ++ [CallPing]) ++ [CallCreateDeck (name d)])%list
    ("deck:" ++ dq ++ name d ++ dq) = inl ids ->
  ids <> [] ->
  GetNotesInfo client
    (((h ++ [CallPing]) ++ [CallCreateDeck (name d)])
     ++ [CallFindNotes ("deck:" ++ dq ++ name d ++ dq)])%list ids = inl infos ->
  (forall id, ~ remoteEntry overflow infos (contentKey front back) id) ->
  let d' := fst (AddCardWithOptions e d front back opts) in
  let r := SyncToAnki overflow client d' so h in
  snd r = Done tt
  /\ (exists note,
        In (CallAddNote note) (fst r)
        /\ DeckName note = name d
        /\ NoteFields note = [("Front", front); ("Back", back)]
        /\ NoteTags note
           = (if String.eqb (tagsStr opts) "" then [] else Fields (tagsStr opts)))
  /\ forall id,
       In (CallUpdateNoteFields id [("Front", front); ("Back", back)]) (fst r) ->
       In (CallUpdateNoteFields id [("Front", front); ("Back", back)]) h.
Proof.
  intros Hok Hf Hb (Hping & Hcreate & Hadd) Hupd Hso Hfind Hids Hinfo Hnone d' r.
  pose proof (added_card_row e d front back opts Hok) as Hrow. fold d' in Hrow.
  destruct (AddCardWithOptions_ids e d front back opts) as (_ & _ & _ & Hname).
  fold d' in Hname. rewrite <- Hname in Hfind, Hinfo.
  destruct (SyncToAnki_update_path overflow client d' so h ids infos
              (Hping h) (Hcreate _ _) Hso Hfind Hids Hinfo)
    as (prefix & syncMedia & Hsync & Hprefix).
  unfold r. rewrite Hsync.
  set (m := existingNotes overflow infos []).
  assert (Hid : map_get (contentKey front back) m = None).
  { destruct (map_get (contentKey front back) m) as [id|] eqn:E; [|reflexivity].
    destruct (existingNotes_lookup overflow infos [] _ _ E) as [Hnil|Hr];
      [discriminate|]. now apply Hnone in Hr. }
  destruct (syncRows_sends client d' m syncMedia (deckRows d') (h ++ prefix)%list
              Hupd Hadd) as [Hdone Hsends].
  specialize (Hsends _ _ front back [] Hrow (Split_front_back front back Hf Hb)).
  rewrite Hid in Hsends. destruct Hsends as (note & Hin & Hdn & Hfl & Htg).
  destruct (syncRows_calls client d' m syncMedia (deckRows d') (h ++ prefix)%list)
    as (new & Hfst & Hnew & _).
  split; [exact Hdone|]. split.
  - exists note. split; [exact Hin|]. split; [now rewrite Hdn|]. now split.
  - intros id Hu. rewrite Hfst in Hu.
    apply in_app_or in Hu as [Hu|Hu]; [apply in_app_or in Hu as [Hu|Hu]|].
    + exact Hu.
    + exfalso. exact (proj1 (Forall_forall _ _) Hprefix _ Hu).
    + exfalso.
      destruct (proj1 (Forall_forall _ _) Hnew _ Hu) as (f & b & Hfb & Hsome).
      injection Hfb as <- <-. congruence.
Qed.


Lemma sampleClient_updates (h : list call) (id : Z) (fs : gomap string) :
  UpdateNoteFields sampleClient h id fs = None.
Proof. reflexivity. Qed.

Lemma sync_updates_matching_note_witness :
  let e := okExec 1700000000005 in
  let d' := fst (AddCardWithOptions e sampleDeck "Bonjour" "Hello" None) in
  let r := SyncToAnki (fun _ => 0) sampleClient d' None [] in
  (snd (AddCardWithOptions e sampleDeck "Bonjour" "Hello" None) = None
   /\ lacks "031"%char "Bonjour" = true /\ lacks "031"%char "Hello" = true)
  /\ snd r = Done tt
  /\ exists id, In (CallUpdateNoteFields id [("Front", "Bonjour"); ("Back", "Hello")]) (fst r).
Proof.
  intros e d' r.
  assert (H1 : snd (AddCardWithOptions e sampleDeck "Bonjour" "Hello" None) = None)
    by reflexivity.
  assert (H2 : lacks "031"%char "Bonjour" = true) by reflexivity.
  assert (H3 : lacks "031"%char "Hello" = true) by reflexivity.
  assert (H4 : forall o, @None SyncOptions = Some o -> UpdateExisting o = true)
    by (intros o Ho; discriminate Ho).
  assert (H5 : [101; 102] <> []) by discriminate.
  split; [now repeat split|].
  pose (infos := match GetNotesInfo sampleClient [] [] with
                 | inl notesInfo => notesInfo
                 | inr _ => []
                 end).
  assert (H6 : remoteEntry (fun _ => 0) infos (contentKey "Bonjour" "Hello") 101).
  { unfold remoteEntry, infos. cbn [GetNotesInfo sampleClient].
    eexists _, _, 101. split; [left; reflexivity|]. repeat split; reflexivity. }
  destruct (sync_updates_matching_note (fun _ => 0) sampleClient e sampleDeck
              "Bonjour" "Hello" None None [] [101; 102] infos 101
              H1 H2 H3 sampleClient_tolerant sampleClient_updates H4 eq_refl H5
              eq_refl H6)
    as (Hdone & (id & _ & Hin) & _).
  split; [exact Hdone|]. exists id. exact Hin.
Defined.

Lemma sync_adds_unmatched_card_witness :
  let e := okExec 1700000000005 in
  let d' := fst (AddCardWithOptions e sampleDeck "Front" "Back" None) in
  let r := SyncToAnki (fun _ => 0) sampleClient d' None [] in
  (snd (AddCardWithOptions e sampleDeck "Front" "Back" None) = None
   /\ lacks "031"%char "Front" = true /\ lacks "031"%char "Back" = true)
  /\ snd r = Done tt
  /\ exists note,
       In (CallAddNote note) (fst r)
       /\ NoteFields note = [("Front", "Front"); ("Back", "Back")].
Proof.
  intros e d' r.
  assert (H1 : snd (AddCardWithOptions e sampleDeck "Front" "Back" None) = None)
    by reflexivity.
  assert (H2 : lacks "031"%char "Front" = true) by reflexivity.
  assert (H3 : lacks "031"%char "Back" = true) by reflexivity.
  assert (H4 : forall o, @None SyncOptions = Some o -> UpdateExisting o = true)
    by (intros o Ho; discriminate Ho).
  assert (H5 : [101; 102] <> []) by discriminate.
  split; [now repeat split|].
  destruct (sync_adds_unmatched_card (fun _ => 0) sampleClient e sampleDeck
              "Front" "Back" None None [] [101; 102] _
              H1 H2 H3 sampleClient_tolerant sampleClient_updates H4 eq_refl H5
              eq_refl)
    as (Hdone & (note & Hin & _ & Hfields & _) & _).
  { intros id (ni & fs & z & Hni & Hf & _ & Hk & _).
    destruct Hni as [<-|[<-|[]]]; vm_compute in Hf; injection Hf as <-;
      vm_compute in Hk; discriminate Hk. }
  split; [exact Hdone|]. exists note. split; [exact Hin|exact Hfields].
Defined.
